(** * MCQ-Gen: the generation pipeline, embedded and verified

    A shallow embedding of the core of [mcqgen]: the partitioner
    ([run_utils.make_chunks]), the validator and normaliser
    ([postprocess.postprocess_questions]), the mock and the real generation
    drivers ([mock_llm], [generate]), prompt rendering ([text_utils],
    [str.format]), the explanation enricher ([explain]) and the run that
    ties them together ([pages.build_chunk_text],
    [pipeline.run_generate_pipeline]).

    Python integers are [Z], Python [str] is [string] (the UTF-8 bytes of the
    text), JSON-like payloads ([Dict[str, Any]]) are association lists over
    a small [value] type, the page map ([Dict[int, str]]) is a [gmap],
    exceptions are an explicit [result]. Where the code writes into the
    dict objects of a list ([postprocess_questions]) the list is a list of
    addresses into a map of objects, so that one object may be listed
    twice. *)

From stdpp Require Import base tactics option numbers list strings pretty gmap.
From Stdlib Require Import ZArith Lia Ascii.

Local Open Scope string_scope.
Local Open Scope list_scope.

#[local] Set Warnings "-register-all".

(** ** Python runtime: the pieces of the language the code relies on *)

Module Py.

(** Exceptions the modelled code can raise. *)
Inductive exn : Type :=
| ValueError (msg : string)
| KeyError (key : string)
| TypeError
| AttributeError
| IndexError
| OracleError.

Inductive result (A : Type) : Type :=
| Ok (a : A)
| Raise (e : exn).
Arguments Ok {A} a.
Arguments Raise {A} e.

Definition bind {A B} (m : result A) (k : A -> result B) : result B :=
  match m with
  | Ok a => k a
  | Raise e => Raise e
  end.

Definition is_ok {A} (m : result A) : bool :=
  match m with Ok _ => true | Raise _ => false end.

#[global] Instance result_ret : MRet result := @Ok.
#[global] Instance result_bind : MBind result := fun A B k m => bind m k.

(** [str(z)] for an int. *)
Definition str_of_int (z : Z) : string := pretty z.

(** [s.zfill]-style left padding with the character 0. *)
Definition zero_pad (width : nat) (s : string) : string :=
  String.concat "" (replicate (width - String.length s) "0") +:+ s.

(** [format(z, "0<width>d")]: sign first, then zeros up to the width. *)
Definition format_0d (width : nat) (z : Z) : string :=
  if (z <? 0)%Z
  then "-" +:+ zero_pad (width - 1) (pretty (Z.abs z))
  else zero_pad width (pretty z).

(** *** JSON-like payloads ([Any]) *)

(** The values a parsed JSON document or the generators put in a question
    dict. Numbers are Python ints. *)
Inductive value : Type :=
| VNone
| VBool (b : bool)
| VInt (z : Z)
| VStr (s : string)
| VList (l : list value)
| VDict (d : list (string * value)).

(** [Dict[str, Any]]: keys in insertion order. *)
Definition dict : Type := list (string * value).

(** [bool(v)]. *)
Definition truthy (v : value) : bool :=
  match v with
  | VNone => false
  | VBool b => b
  | VInt z => negb (z =? 0)%Z
  | VStr s => negb (String.eqb s "")
  | VList l => match l with [] => false | _ => true end
  | VDict d => match d with [] => false | _ => true end
  end.

(** Lists and dicts cannot be hashed; [set(...)] and dict keys raise
    [TypeError] on them. *)
Definition hashable (v : value) : bool :=
  match v with
  | VList _ | VDict _ => false
  | _ => true
  end.

Definition int_of_bool (b : bool) : Z := if b then 1%Z else 0%Z.

(** [a == b] on hashable values; [True == 1] and [False == 0] as in
    Python. *)
Definition py_eqb (a b : value) : bool :=
  match a, b with
  | VNone, VNone => true
  | VBool x, VBool y => Bool.eqb x y
  | VBool x, VInt y => (int_of_bool x =? y)%Z
  | VInt x, VBool y => (x =? int_of_bool y)%Z
  | VInt x, VInt y => (x =? y)%Z
  | VStr x, VStr y => String.eqb x y
  | _, _ => false
  end.

(** [v in s] for a set (or the keys of a dict) held as a list. *)
Definition py_mem (v : value) (s : list value) : bool :=
  existsb (py_eqb v) s.

(** [set(l)]: hashes every element in turn, keeps the first of equal
    ones. *)
Fixpoint py_set_from (acc : list value) (l : list value) : result (list value) :=
  match l with
  | [] => Ok acc
  | v :: l' =>
      if hashable v
      then py_set_from (if py_mem v acc then acc else acc ++ [v]) l'
      else Raise TypeError
  end.

Definition py_set (l : list value) : result (list value) := py_set_from [] l.

(** [k in d] and [d[k]] (as an option). *)
Fixpoint dict_get (k : string) (d : dict) : option value :=
  match d with
  | [] => None
  | (k', v) :: d' => if decide (k' = k) then Some v else dict_get k d'
  end.

Definition dict_has (k : string) (d : dict) : bool :=
  match dict_get k d with Some _ => true | None => false end.

(** [d.get(k, dflt)]; [d.get(k)] is [get_default k VNone d]. *)
Definition get_default (k : string) (dflt : value) (d : dict) : value :=
  default dflt (dict_get k d).

(** [d[k] = v]: overwrites in place, or appends a new key. *)
Fixpoint dict_set (k : string) (v : value) (d : dict) : dict :=
  match d with
  | [] => [(k, v)]
  | (k', v') :: d' =>
      if decide (k' = k) then (k', v) :: d' else (k', v') :: dict_set k v d'
  end.

(** [d.setdefault(k, v)]. *)
Definition dict_setdefault (k : string) (v : value) (d : dict) : dict :=
  if dict_has k d then d else dict_set k v d.

(** [v.get(k, dflt)] on an arbitrary value: only dicts have [get]. *)
Definition method_get (k : string) (dflt : value) (v : value) : result value :=
  match v with
  | VDict d => Ok (get_default k dflt d)
  | _ => Raise AttributeError
  end.

(** [v == s] for a [str] [s]. *)
Definition eq_str (v : value) (s : string) : bool := py_eqb v (VStr s).

(** What a hashable value is as a set element or dict key: equal values
    ([py_eqb]) are the same key. *)
Inductive key : Type :=
| KNone
| KInt (z : Z)
| KStr (s : string).

Definition key_of (v : value) : key :=
  match v with
  | VBool b => KInt (int_of_bool b)
  | VInt z => KInt z
  | VStr s => KStr s
  | _ => KNone
  end.

Definition is_dict (v : value) : bool :=
  match v with VDict _ => true | _ => false end.

(** [v.get(k)] where [v] is known to be a dict. *)
Definition field (k : string) (v : value) : value :=
  match v with
  | VDict d => get_default k VNone d
  | _ => VNone
  end.

(** *** Iteration, dict-keyed tables, strings *)

(** [for x in v]: lists yield their items, dicts their keys, strings their
    characters; the other values are not iterable. *)
Definition py_iter (v : value) : result (list value) :=
  match v with
  | VList l => Ok l
  | VDict d => Ok ((fun kv => VStr kv.1) <$> d)
  | VStr s => Ok ((fun a => VStr (String a "")) <$> String.list_ascii_of_string s)
  | _ => Raise TypeError
  end.

(** [v[k]] for a [str] key [k]: dicts only. *)
Definition subscript (k : string) (v : value) : result value :=
  match v with
  | VDict d =>
      match dict_get k d with
      | Some x => Ok x
      | None => Raise (KeyError k)
      end
  | _ => Raise TypeError
  end.

(** A Python dict with hashable keys, in insertion order. *)
Definition table (V : Type) : Type := list (value * V).

Fixpoint table_get {V} (k : value) (t : table V) : option V :=
  match t with
  | [] => None
  | (k', v) :: t' => if py_eqb k' k then Some v else table_get k t'
  end.

Fixpoint table_set {V} (k : value) (v : V) (t : table V) : table V :=
  match t with
  | [] => [(k, v)]
  | (k', v') :: t' =>
      if py_eqb k' k then (k', v) :: t' else (k', v') :: table_set k v t'
  end.

(** The newline character. *)
Definition nl : string := String (Ascii.ascii_of_nat 10) "".

(** [sep.join(parts)]. *)
Definition join (sep : string) (parts : list string) : string :=
  String.concat sep parts.

Definition byte (n : Z) : string := String (Ascii.ascii_of_N (Z.to_N n)) "".

(** [chr(n)], as the UTF-8 bytes of the code point. *)
Definition py_chr (n : Z) : result string :=
  if (n <? 0)%Z || (1114111 <? n)%Z
  then Raise (ValueError "chr() arg not in range(0x110000)")
  else if (n <? 128)%Z then Ok (byte n)
  else if (n <? 2048)%Z
  then Ok (byte (192 + n / 64) +:+ byte (128 + n mod 64))
  else if (n <? 65536)%Z
  then Ok (byte (224 + n / 4096) +:+ byte (128 + (n / 64) mod 64)
           +:+ byte (128 + n mod 64))
  else Ok (byte (240 + n / 262144) +:+ byte (128 + (n / 4096) mod 64)
           +:+ byte (128 + (n / 64) mod 64) +:+ byte (128 + n mod 64)).

(** [s.replace(old, new)] for a one-character [old]. *)
Fixpoint replace_char (old : ascii) (new : string) (s : string) : string :=
  match s with
  | EmptyString => EmptyString
  | String a s' =>
      if Ascii.eqb a old then new +:+ replace_char old new s'
      else String a (replace_char old new s')
  end.

(** *** What the model takes from outside the repository *)

(** One call of [client.responses.create]: it raises, or it returns a
    response with this [output_text]. *)
Inductive outcome : Type :=
| Fails
| Replies (text : string).

(** The library code behind the modelled functions: [repr] of containers,
    [str.strip], [str.format] on templates with a replacement field that
    carries a conversion, a format spec, an attribute or an index,
    [json.loads], and the remote model ([responses_create n prompt] is the
    outcome of the [n]-th call of the run when it is sent [prompt]). *)
Class Runtime : Type := {
  py_repr : value -> string;
  py_strip : string -> string;
  format_full : string -> dict -> result string;
  json_loads : string -> result value;
  responses_create : nat -> string -> outcome
}.

(** [str(v)]. *)
Definition py_str `{Runtime} (v : value) : string :=
  match v with
  | VStr s => s
  | VInt z => str_of_int z
  | VBool true => "True"
  | VBool false => "False"
  | VNone => "None"
  | _ => py_repr v
  end.

(** *** [str.format] with keyword arguments *)

Inductive field_kind : Type :=
| SimpleField
| ComplexField
| BadField.

(** A replacement field is read up to a conversion, a spec, an attribute
    or an index; a brace before that is an error. *)
Fixpoint classify_field (f : string) : field_kind :=
  match f with
  | EmptyString => SimpleField
  | String a f' =>
      if Ascii.eqb a "{" then BadField
      else if Ascii.eqb a "!" || Ascii.eqb a ":" || Ascii.eqb a "."
              || Ascii.eqb a "["
      then ComplexField
      else classify_field f'
  end.

Definition is_digit (a : ascii) : bool :=
  (48 <=? Ascii.nat_of_ascii a)%nat && (Ascii.nat_of_ascii a <=? 57)%nat.

(** An empty or all-digit name asks for a positional argument. *)
Definition positional (f : string) : bool :=
  forallb is_digit (String.list_ascii_of_string f).

(** The text a replacement field stands for, when the field is a plain
    keyword name; [None] when it is beyond this fragment of the grammar. *)
Definition format_field `{Runtime} (f : string) (kwargs : dict)
    : option (result string) :=
  match classify_field f with
  | BadField => Some (Raise (ValueError "unexpected '{' in field name"))
  | ComplexField => None
  | SimpleField =>
      if positional f then Some (Raise IndexError)
      else match dict_get f kwargs with
           | Some v => Some (Ok (py_str v))
           | None => Some (Raise (KeyError f))
           end
  end.

(** Where the scanner is: in literal text, or inside a replacement field
    at some brace depth with the field text read so far. *)
Inductive scan_mode : Type :=
| Literal
| InField (depth : nat) (text : string).

(** [s] in front of what the rest of the template renders to. *)
Definition prepend (s : string) (rest : option (result string))
    : option (result string) :=
  match rest with
  | Some (Ok r) => Some (Ok (s +:+ r))
  | other => other
  end.

(** The scanner of [str.format], left to right: doubled braces are literal
    braces, a single closing brace is an error, an opening brace starts a
    field that runs to its matching closing brace. It stops at the first
    error, and gives [None] at the first field beyond the fragment. *)
Fixpoint format_scan `{Runtime} (kwargs : dict) (mode : scan_mode) (t : string)
    : option (result string) :=
  match mode, t with
  | Literal, EmptyString => Some (Ok "")
  | Literal, String a t' =>
      if Ascii.eqb a "{" then
        match t' with
        | String b t'' =>
            if Ascii.eqb b "{"
            then prepend "{" (format_scan kwargs Literal t'')
            else format_scan kwargs (InField 0 "") t'
        | EmptyString =>
            Some (Raise (ValueError "Single '{' encountered in format string"))
        end
      else if Ascii.eqb a "}" then
        match t' with
        | String b t'' =>
            if Ascii.eqb b "}"
            then prepend "}" (format_scan kwargs Literal t'')
            else Some (Raise (ValueError
                                "Single '}' encountered in format string"))
        | EmptyString =>
            Some (Raise (ValueError "Single '}' encountered in format string"))
        end
      else prepend (String a "") (format_scan kwargs Literal t')
  | InField _ _, EmptyString =>
      Some (Raise (ValueError "expected '}' before end of string"))
  | InField depth text, String a t' =>
      if Ascii.eqb a "}" then
        match depth with
        | O =>
            match format_field text kwargs with
            | Some (Ok v) => prepend v (format_scan kwargs Literal t')
            | other => other
            end
        | S d => format_scan kwargs (InField d (text +:+ "}")) t'
        end
      else if Ascii.eqb a "{"
      then format_scan kwargs (InField (S depth) (text +:+ "{")) t'
      else format_scan kwargs (InField depth (text +:+ String a "")) t'
  end.

(** Two runs of the scanner that end the same way: both render, both
    raise the same exception, or both leave the fragment. *)
Definition same_outcome (r1 r2 : option (result string)) : Prop :=
  match r1, r2 with
  | Some (Ok _), Some (Ok _) => True
  | Some (Raise e1), Some (Raise e2) => e1 = e2
  | None, None => True
  | _, _ => False
  end.

(** [template.format] applied to the keyword arguments [kwargs]: the
    scanner above on templates whose fields are plain names, the library's
    own answer on the others. *)
Definition py_format `{Runtime} (template : string) (kwargs : dict)
    : result string :=
  match format_scan kwargs Literal template with
  | Some r => r
  | None => format_full template kwargs
  end.

(** *** The [random] module *)

(** The generator state: the raw draws still to come. [random.shuffle]
    only ever asks for [randbelow n]; every sequence of answers it can get
    is the reduction of some tape. *)
Definition rng : Type := list nat.

Definition randbelow (n : nat) (g : rng) : nat * rng :=
  match g with
  | [] => (0, [])
  | r :: g' => (r mod n, g')
  end.

(** [x[i], x[j] = x[j], x[i]]. *)
Definition swap {A} (x : list A) (i j : nat) : list A :=
  match x !! i, x !! j with
  | Some a, Some b => <[j:=a]> (<[i:=b]> x)
  | _, _ => x
  end.

(** [for i in reversed(range(1, len(x))): j = randbelow(i + 1); swap]. *)
Fixpoint shuffle_from {A} (i : nat) (x : list A) (g : rng) : list A * rng :=
  match i with
  | O => (x, g)
  | S i' =>
      let '(j, g') := randbelow (S i) g in
      shuffle_from i' (swap x i j) g'
  end.

(** [random.shuffle(x)]. *)
Definition shuffle {A} (x : list A) (g : rng) : list A * rng :=
  shuffle_from (length x - 1) x g.

End Py.

(** ** run_utils.make_chunks *)

Module RunUtils.

(** The dict literal built for each window:
    [{"chunk_id": ..., "page_start": ..., "page_end": ...}]. *)
Record chunk : Type := Chunk {
  chunk_id : string;
  page_start : Z;
  page_end : Z
}.

(** The local variables of the [while] loop. *)
Record loop_state : Type := LoopState {
  chunks : list chunk;
  start : Z;
  idx : Z
}.

(** The [while start <= total_pages] loop; [None] when [fuel] iterations
    were not enough to leave it. *)
Fixpoint make_chunks_loop (fuel : nat) (total_pages pages_per_partition stride : Z)
    (st : loop_state) : option (list chunk) :=
  match fuel with
  | O => None
  | S fuel' =>
      if (start st <=? total_pages)%Z then
        let end_ := Z.min (start st + pages_per_partition - 1) total_pages in
        let chunks' :=
          chunks st ++ [Chunk ("chunk_" +:+ Py.format_0d 3 (idx st)) (start st) end_] in
        if (end_ =? total_pages)%Z then Some chunks'
        else make_chunks_loop fuel' total_pages pages_per_partition stride
               (LoopState chunks' (start st + stride) (idx st + 1))
      else Some (chunks st)
  end.

Definition make_chunks_fuel (fuel : nat)
    (total_pages pages_per_partition overlap_pages : Z) : option (list chunk) :=
  let stride := (pages_per_partition - overlap_pages)%Z in
  make_chunks_loop fuel total_pages pages_per_partition stride (LoopState [] 1 1).

(** One iteration per page is always enough when the stride is positive. *)
Definition make_chunks (total_pages pages_per_partition overlap_pages : Z)
    : option (list chunk) :=
  make_chunks_fuel (S (Z.to_nat total_pages))
    total_pages pages_per_partition overlap_pages.

(** Page [p] lies in window [w]. *)
Definition covers (w : chunk) (p : Z) : Prop :=
  (page_start w <= p <= page_end w)%Z.

(** Number of pages two windows have in common. *)
Definition overlap_count (a b : chunk) : Z :=
  Z.max 0 (Z.min (page_end a) (page_end b)
           - Z.max (page_start a) (page_start b) + 1).

(** [P] holds of every two neighbouring elements of the list. *)
Fixpoint adjacent {A} (P : A -> A -> Prop) (l : list A) : Prop :=
  match l with
  | a :: (b :: _) as tl => P a b /\ adjacent P tl
  | _ => True
  end.

(** The shape of the list the loop appends when entered with [start = s]:
    full windows one stride apart, closed by the window that reaches
    [total_pages]. *)
Inductive tiling (total_pages pages_per_partition stride : Z)
  : Z -> list chunk -> Prop :=
| tiling_none s :
    (total_pages < s)%Z -> tiling total_pages pages_per_partition stride s []
| tiling_last s id :
    (s <= total_pages <= s + pages_per_partition - 1)%Z ->
    tiling total_pages pages_per_partition stride s [Chunk id s total_pages]
| tiling_more s id ws :
    (s + pages_per_partition - 1 < total_pages)%Z ->
    tiling total_pages pages_per_partition stride (s + stride) ws ->
    tiling total_pages pages_per_partition stride s
      (Chunk id s (s + pages_per_partition - 1) :: ws).

(** What two neighbouring windows look like. *)
Definition neighbours (pages_per_partition stride : Z) (a b : chunk) : Prop :=
  (page_start b = page_start a + stride)%Z
  /\ (page_end a = page_start a + pages_per_partition - 1)%Z
  /\ (page_start b <= page_end a + 1)%Z
  /\ (page_end a < page_end b)%Z
  /\ overlap_count a b = (pages_per_partition - stride)%Z.

End RunUtils.

(** ** postprocess.postprocess_questions *)

Module Postprocess.
Import Py.

Definition required_keys : list string :=
  ["stem"; "choices"; "correct_choice_ids"; "chunk_id"].

(** [for k in (...): if k not in q: raise ValueError(...)]. The message
    keeps the key and leaves out the printed question. *)
Fixpoint check_required (keys : list string) (q : dict) : result unit :=
  match keys with
  | [] => Ok tt
  | k :: keys' =>
      if dict_has k q then check_required keys' q
      else Raise (ValueError ("Question missing '" +:+ k +:+ "'"))
  end.

(** [any(cid not in set(choice_ids) for cid in correct)], with the
    [TypeError] of hashing an unhashable [cid]. *)
Fixpoint check_correct_refer (ids : list value) (correct : list value)
    : result unit :=
  match correct with
  | [] => Ok tt
  | cid :: correct' =>
      if negb (hashable cid) then Raise TypeError
      else if negb (py_mem cid ids)
      then Raise (ValueError "correct_choice_ids must refer to existing choices")
      else check_correct_refer ids correct'
  end.

(** The checks on the choices of one question; returns [choice_ids]. *)
Definition check_choices (choices_per_question : Z) (q : dict)
    : result (list value) :=
  match dict_get "choices" q with
  | None => Raise (KeyError "choices")
  | Some (VList choices) =>
      if negb (Z.of_nat (length choices) =? choices_per_question)%Z
      then Raise (ValueError "Choices count mismatch")
      else
        choice_ids ← mapM (method_get "id" VNone) choices;
        if existsb (fun cid => negb (truthy cid)) choice_ids
        then Raise (ValueError "Choice ids must be unique and non-empty")
        else
          s ← py_set choice_ids;
          if negb (length s =? length choice_ids)%nat
          then Raise (ValueError "Choice ids must be unique and non-empty")
          else Ok choice_ids
  | Some _ => Raise (ValueError "Choices count mismatch")
  end.

(** The checks on the correct ids of one question. *)
Definition check_correct (question_type : string) (choice_ids : list value)
    (q : dict) : result unit :=
  match dict_get "correct_choice_ids" q with
  | None => Raise (KeyError "correct_choice_ids")
  | Some (VList correct) =>
      if (length correct <? 1)%nat
      then Raise (ValueError "correct_choice_ids must be a non-empty list")
      else if String.eqb question_type "MCQ" && negb (length correct =? 1)%nat
      then Raise (ValueError "MCQ must have exactly 1 correct choice")
      else check_correct_refer choice_ids correct
  | Some _ => Raise (ValueError "correct_choice_ids must be a non-empty list")
  end.

(** The body of the validation loop for one [q]; returns [q] after
    [q.setdefault("explanation", "")]. *)
Definition validate_question (question_type : string) (choices_per_question : Z)
    (q : dict) : result dict :=
  _ ← check_required required_keys q;
  if negb (eq_str (get_default "question_type" VNone q) question_type)
  then Raise (ValueError "Question type mismatch with config")
  else
    choice_ids ← check_choices choices_per_question q;
    _ ← check_correct question_type choice_ids q;
    Ok (dict_setdefault "explanation" (VStr "") q).

(** [random.shuffle(q["choices"])]. *)
Definition shuffle_choices (q : dict) (g : rng) : result (dict * rng) :=
  match dict_get "choices" q with
  | None => Raise (KeyError "choices")
  | Some (VList choices) =>
      let '(choices', g') := shuffle choices g in
      Ok (dict_set "choices" (VList choices') q, g')
  | Some _ => Raise TypeError
  end.

(** [f"q_{i:04d}"]. *)
Definition question_id (i : nat) : string :=
  "q_" +:+ format_0d 4 (Z.of_nat i).

(** *** The run on question objects

    [questions] is a list of references to dict objects, and the loops
    write into those objects. A map [s] gives the content of the object at
    each address (an address it does not hold reads as an empty dict), and
    the list is a list of addresses: one object may be listed at several
    positions. Every choice list belongs to one question object. *)
Definition deref (s : gmap nat dict) (r : nat) : dict := default [] (s !! r).

(** The list as its reader sees it: the content at each position. *)
Definition contents (s : gmap nat dict) (refs : list nat) : list dict :=
  deref s <$> refs.

(** A) [for q in questions: ...; q.setdefault("explanation", "")]. *)
Fixpoint validate_objects (question_type : string) (choices_per_question : Z)
    (refs : list nat) (s : gmap nat dict) : result (gmap nat dict) :=
  match refs with
  | [] => Ok s
  | r :: refs' =>
      q ← validate_question question_type choices_per_question (deref s r);
      validate_objects question_type choices_per_question refs' (<[r := q]> s)
  end.

(** C) [for q in questions: random.shuffle(q["choices"])]. *)
Fixpoint shuffle_objects (refs : list nat) (s : gmap nat dict) (g : rng)
    : result (gmap nat dict * rng) :=
  match refs with
  | [] => Ok (s, g)
  | r :: refs' =>
      '(q, g1) ← shuffle_choices (deref s r) g;
      shuffle_objects refs' (<[r := q]> s) g1
  end.

(** D) [for i, q in enumerate(questions, start=1): q["id"] = f"q_{i:04d}"],
    entered with the number [i]. *)
Fixpoint assign_ids (i : nat) (refs : list nat) (s : gmap nat dict) : gmap nat dict :=
  match refs with
  | [] => s
  | r :: refs' =>
      assign_ids (S i) refs'
        (<[r := dict_set "id" (VStr (question_id i)) (deref s r)]> s)
  end.

(** A) to C): the list and the objects as the id assignment finds them. *)
Definition prepare (refs : list nat) (s : gmap nat dict)
    (question_type : string) (choices_per_question : Z)
    (randomize_questions randomize_options : bool) (g : rng)
    : result (list nat * gmap nat dict * rng) :=
  s1 ← validate_objects question_type choices_per_question refs s;
  let '(refs1, g1) :=
    if randomize_questions then shuffle refs g else (refs, g) in
  if randomize_options
  then '(s2, g2) ← shuffle_objects refs1 s1 g1; Ok (refs1, s2, g2)
  else Ok (refs1, s1, g1).

(** [postprocess_questions] called with the list [refs] of objects of [s]:
    the returned list (the argument, reordered in place), the objects and
    the random state afterwards. *)
Definition postprocess_objects (refs : list nat) (s : gmap nat dict)
    (question_type : string) (choices_per_question : Z)
    (randomize_questions randomize_options : bool) (g : rng)
    : result (list nat * gmap nat dict * rng) :=
  '(refs1, s2, g2) ← prepare refs s question_type choices_per_question
                       randomize_questions randomize_options g;
  Ok (refs1, assign_ids 1 refs1 s2, g2).

(** [postprocess_questions] called with a list of pairwise distinct objects
    that hold [questions]: the contents of the returned list. *)
Definition postprocess_questions (questions : list dict)
    (question_type : string) (choices_per_question : Z)
    (randomize_questions randomize_options : bool) (g : rng)
    : result (list dict * rng) :=
  '(refs, s, g') ← postprocess_objects (seq 0 (length questions))
                     (map_seq 0 questions) question_type choices_per_question
                     randomize_questions randomize_options g;
  Ok (contents s refs, g').

(** *** The run by value

    When no object is listed twice every loop visits each object once, and
    the contents of the returned list can be computed from the contents of
    the argument alone. *)

(** A) on distinct objects. *)
Definition validate (question_type : string) (choices_per_question : Z)
    (questions : list dict) : result (list dict) :=
  mapM (validate_question question_type choices_per_question) questions.

(** C) on distinct objects. *)
Fixpoint shuffle_options (questions : list dict) (g : rng)
    : result (list dict * rng) :=
  match questions with
  | [] => Ok ([], g)
  | q :: questions' =>
      '(q', g1) ← shuffle_choices q g;
      '(rest, g2) ← shuffle_options questions' g1;
      Ok (q' :: rest, g2)
  end.

(** D) on distinct objects: each question with the number of its
    position. *)
Definition numbered (questions : list dict) : list dict :=
  imap (fun i q => dict_set "id" (VStr (question_id (S i))) q) questions.

(** B) and C) on distinct objects: the two optional shuffles, questions
    first. *)
Definition randomize (questions : list dict)
    (randomize_questions randomize_options : bool) (g : rng)
    : result (list dict * rng) :=
  let '(ordered, g1) :=
    if randomize_questions then shuffle questions g else (questions, g) in
  if randomize_options then shuffle_options ordered g1 else Ok (ordered, g1).

Definition postprocess_by_value (questions : list dict)
    (question_type : string) (choices_per_question : Z)
    (randomize_questions randomize_options : bool) (g : rng)
    : result (list dict * rng) :=
  validated ← validate question_type choices_per_question questions;
  '(shuffled, g') ← randomize validated randomize_questions randomize_options g;
  Ok (numbered shuffled, g').

(** *** Vocabulary for the properties *)

(** The keys the validation pass reads. *)
Definition checked_keys : list string := "question_type" :: required_keys.

(** Two dicts the validation pass cannot tell apart. *)
Definition agree (q q' : dict) : Prop :=
  forall k, k ∈ checked_keys -> dict_get k q' = dict_get k q.

(** [q] goes through every check of the validation loop. *)
Definition passes (question_type : string) (choices_per_question : Z)
    (q : dict) : Prop :=
  check_required required_keys q = Ok tt
  /\ eq_str (get_default "question_type" VNone q) question_type = true
  /\ exists choice_ids,
       check_choices choices_per_question q = Ok choice_ids
       /\ check_correct question_type choice_ids q = Ok tt.

(** [q'] is [q] with its choice list reordered in place. *)
Definition reshuffled (q q' : dict) : Prop :=
  exists cs cs',
    dict_get "choices" q = Some (VList cs)
    /\ cs' ≡ₚ cs
    /\ q' = dict_set "choices" (VList cs') q.

(** [q'] is [q], or [q] with its choices reordered. *)
Definition settled (q q' : dict) : Prop := q' = q \/ reshuffled q q'.

(** [q] as it is after a successful run, at position [i] of the result. *)
Definition normalized (question_type : string) (choices_per_question : Z)
    (i : nat) (q : dict) : Prop :=
  passes question_type choices_per_question q
  /\ dict_has "explanation" q = true
  /\ dict_get "id" q = Some (VStr (question_id (S i))).

(** A question whose payload has the shape the generators promise:
    choices are dicts with a hashable id, correct ids are hashable. *)
Definition well_shaped (q : dict) : Prop :=
  (forall cs, dict_get "choices" q = Some (VList cs) ->
     Forall (fun c => is_dict c = true /\ hashable (field "id" c) = true) cs)
  /\ (forall correct, dict_get "correct_choice_ids" q = Some (VList correct) ->
        Forall (fun cid => hashable cid = true) correct).

Definition is_ValueError (e : exn) : Prop :=
  match e with ValueError _ => True | _ => False end.

End Postprocess.

(** ** mock_llm.mock_generate_questions_for_chunk *)

Module MockLlm.
Import Py RunUtils.

(** The entries of [cfg["generation"]] the generators read. *)
Record generation_cfg : Type := GenerationCfg {
  question_type : string;
  choices_per_question : Z;
  questions_per_partition : Z
}.

(** [range(a, b)]. *)
Definition py_range (a b : Z) : list Z := seqZ a (b - a).

(** The id [f"c{k}"] of the [k]-th mock choice. *)
Definition mock_id (k : Z) : value := VStr ("c" +:+ str_of_int k).

(** [{"id": f"c{k}", "text": f"Mock option {k} (chunk {chunk_id})"}]. *)
Definition mock_choice (cid : string) (k : Z) : value :=
  VDict [("id", mock_id k);
         ("text", VStr ("Mock option " +:+ str_of_int k
                        +:+ " (chunk " +:+ cid +:+ ")"))].

(** The [correct] list picked for every mock question. *)
Definition mock_correct (qtype : string) (n_choices : Z) : list value :=
  if String.eqb qtype "MCQ" then
    if (2 <=? n_choices)%Z then [VStr "c2"] else [VStr "c1"]
  else
    if (4 <=? n_choices)%Z then [VStr "c2"; VStr "c4"]
    else if (2 <=? n_choices)%Z then [VStr "c1"; VStr "c2"]
    else [VStr "c1"].

Definition mock_stem (c : chunk) (i : Z) : string :=
  "[MOCK] Q" +:+ str_of_int i +:+ " for " +:+ chunk_id c
  +:+ " (pages " +:+ str_of_int (page_start c) +:+ "-"
  +:+ str_of_int (page_end c) +:+ "): " +:+ "Which option is correct?".

(** The dict appended in iteration [i] of the loop. *)
Definition mock_question (c : chunk) (cfg : generation_cfg) (i : Z) : dict :=
  let n_choices := choices_per_question cfg in
  let choices := mock_choice (chunk_id c) <$> py_range 1 (n_choices + 1) in
  [("question_type", VStr (question_type cfg));
   ("stem", VStr (mock_stem c i));
   ("choices", VList choices);
   ("correct_choice_ids", VList (mock_correct (question_type cfg) n_choices));
   ("chunk_id", VStr (chunk_id c));
   ("explanation", VStr "")].

Definition mock_generate_questions_for_chunk (c : chunk) (cfg : generation_cfg)
    : list dict :=
  mock_question c cfg <$> py_range 1 (questions_per_partition cfg + 1).

End MockLlm.

(** ** text_utils.escape_braces *)

Module TextUtils.
Import Py.

(** [text.replace("{", "{{").replace("}", "}}")]. *)
Definition escape_braces (text : string) : string :=
  replace_char "}" "}}" (replace_char "{" "{{" text).

(** How often the character [a] occurs in [s]. *)
Fixpoint count_char (a : ascii) (s : string) : nat :=
  match s with
  | EmptyString => 0
  | String b s' => (if Ascii.eqb b a then 1 else 0) + count_char a s'
  end.

(** The text has a curly brace in it. *)
Definition has_brace (text : string) : bool :=
  existsb (fun a => Ascii.eqb a "{" || Ascii.eqb a "}")
    (String.list_ascii_of_string text).

End TextUtils.

(** ** llm_schemas.generation_schema *)

Module LlmSchemas.
Import Py.

(** [{"type": "string", "minLength": 1}]. *)
Definition nonempty_string (v : value) : bool :=
  match v with
  | VStr s => negb (String.eqb s "")
  | _ => false
  end.

(** An object with exactly the [required] properties
    ([additionalProperties] is false), each accepted by its schema. *)
Definition closed_object (props : list (string * (value -> bool))) (v : value)
    : bool :=
  match v with
  | VDict d =>
      forallb (fun kv => existsb (fun p => String.eqb p.1 kv.1) props) d
      && forallb (fun p => match dict_get p.1 d with
                           | Some x => p.2 x
                           | None => false
                           end) props
  | _ => false
  end.

(** An array within the item bounds whose items are accepted. *)
Definition array_of (min_items : Z) (max_items : option Z)
    (item : value -> bool) (v : value) : bool :=
  match v with
  | VList l =>
      (min_items <=? Z.of_nat (length l))%Z
      && match max_items with
         | Some m => (Z.of_nat (length l) <=? m)%Z
         | None => true
         end
      && forallb item l
  | _ => false
  end.

Definition choice_schema : value -> bool :=
  closed_object [("id", nonempty_string); ("text", nonempty_string)].

Definition question_schema (choices_per_question : Z) : value -> bool :=
  closed_object
    [("stem", nonempty_string);
     ("choices",
      array_of choices_per_question (Some choices_per_question) choice_schema);
     ("correct_choice_ids", array_of 1 None nonempty_string)].

(** The value under ["schema"]: what a conforming reply parses to. *)
Definition conforms (choices_per_question : Z) : value -> bool :=
  closed_object
    [("questions", array_of 1 None (question_schema choices_per_question))].

(** [generation_schema(choices_per_question)]: the name it registers the
    schema under, or the [ValueError]. *)
Definition generation_schema (choices_per_question : Z) : result string :=
  if (choices_per_question <? 2)%Z
  then Raise (ValueError "choices_per_question must be >= 2")
  else Ok "mcqgen_chunk_questions_v1".

End LlmSchemas.

(** ** explain: the enrichment flow *)

Module Explain.
Import Py TextUtils.

(** The three counters the function reports when it is done. *)
Record counts : Type := Counts {
  updated : nat;
  skipped_missing : nat;
  skipped_failed : nat
}.

(** What the loop over [wrong_ids] carries along: the question objects
    (shared between [output["questions"]] and [by_id]), the counters, and
    the number of oracle calls made so far. *)
Record enrich_state : Type := EnrichState {
  questions : list value;
  tally : counts;
  calls : nat
}.

Section WithRuntime.
Context `{Runtime}.

Definition render_explain_prompt (template : string) (variables : dict)
    : result string :=
  py_format template variables.

(** The loop of [format_choices_with_letters], from index [idx] on. *)
Fixpoint letter_lines (idx : Z) (choices : list value) : result (list string) :=
  match choices with
  | [] => Ok []
  | c :: choices' =>
      letter ← py_chr (65 + idx);
      text ← method_get "text" (VStr "") c;
      rest ← letter_lines (idx + 1) choices';
      Ok ((letter +:+ ". " +:+ py_str text) :: rest)
  end.

Definition format_choices_with_letters (choices : value) : result string :=
  items ← py_iter choices;
  lines ← letter_lines 0 items;
  Ok (join nl lines).

(** The first loop of [format_correct_letters]: [id_to_letter]. *)
Fixpoint letters_by_id (idx : Z) (choices : list value) (acc : table string)
    : result (table string) :=
  match choices with
  | [] => Ok acc
  | c :: choices' =>
      cid ← method_get "id" (VStr "") c;
      if truthy cid then
        letter ← py_chr (65 + idx);
        if hashable cid
        then letters_by_id (idx + 1) choices' (table_set cid letter acc)
        else Raise TypeError
      else letters_by_id (idx + 1) choices' acc
  end.

Definition format_correct_letters (choices correct_ids : value) : result string :=
  items ← py_iter choices;
  id_to_letter ← letters_by_id 0 items [];
  cids ← py_iter correct_ids;
  letters ← mapM (fun cid =>
                    if hashable cid
                    then Ok (default "?" (table_get cid id_to_letter))
                    else Raise TypeError) cids;
  Ok (join ", " letters).

(** The prompt built for the question dict [q]. *)
Definition explain_prompt (template : string) (q : dict) : result string :=
  let stem := py_str (get_default "stem" (VStr "") q) in
  let choices := get_default "choices" (VList []) q in
  let correct_ids := get_default "correct_choice_ids" (VList []) q in
  lettered ← format_choices_with_letters choices;
  letters ← format_correct_letters choices correct_ids;
  render_explain_prompt template
    [("stem", VStr (escape_braces stem));
     ("choices", VStr (escape_braces lettered));
     ("correct_choice_ids", VStr (escape_braces letters))].

(** [call_responses_text(...).strip()] as call number [n] of the run:
    [None] when the [try] block raises. *)
Definition call_responses_text (prompt : string) (n : nat) : option string :=
  match responses_create n prompt with
  | Fails => None
  | Replies text => Some (py_strip text)
  end.

(** [for attempt in range(1, retries + 1)] with [attempts] rounds to go:
    the explanation, if any, and the call count afterwards. *)
Fixpoint explain_attempts (attempts : nat) (prompt : string) (n : nat)
    : option string * nat :=
  match attempts with
  | O => (None, n)
  | S attempts' =>
      match call_responses_text prompt n with
      | Some explanation => (Some explanation, S n)
      | None => explain_attempts attempts' prompt (S n)
      end
  end.

(** [by_id = {q.get("id"): q for q in questions}], holding for each id the
    position of its question object. *)
Fixpoint build_by_id (i : nat) (qs : list value) (acc : table nat)
    : result (table nat) :=
  match qs with
  | [] => Ok acc
  | q :: qs' =>
      qid ← method_get "id" VNone q;
      if hashable qid then build_by_id (S i) qs' (table_set qid i acc)
      else Raise TypeError
  end.

(** [by_id.get(qid)] followed by [if not q]: the position and the current
    content of the question, when there is a non-empty one. *)
Definition find_question (by_id : table nat) (qs : list value) (qid : string)
    : option (nat * dict) :=
  match table_get (VStr qid) by_id with
  | Some i =>
      match qs !! i with
      | Some (VDict d) => if truthy (VDict d) then Some (i, d) else None
      | _ => None
      end
  | None => None
  end.

(** The body of [for qid in wrong_ids]. *)
Definition explain_one (template : string) (retries : Z) (by_id : table nat)
    (st : enrich_state) (qid : string) : result enrich_state :=
  match find_question by_id (questions st) qid with
  | None =>
      Ok (EnrichState (questions st)
            (Counts (updated (tally st)) (S (skipped_missing (tally st)))
               (skipped_failed (tally st)))
            (calls st))
  | Some (i, q) =>
      prompt ← explain_prompt template q;
      match explain_attempts (Z.to_nat retries) prompt (calls st) with
      | (None, n) =>
          Ok (EnrichState (questions st)
                (Counts (updated (tally st)) (skipped_missing (tally st))
                   (S (skipped_failed (tally st))))
                n)
      | (Some explanation, n) =>
          Ok (EnrichState
                (<[i := VDict (dict_set "explanation" (VStr explanation) q)]>
                   (questions st))
                (Counts (S (updated (tally st))) (skipped_missing (tally st))
                   (skipped_failed (tally st)))
                n)
      end
  end.

Fixpoint explain_all (template : string) (retries : Z) (by_id : table nat)
    (st : enrich_state) (wrong_ids : list string) : result enrich_state :=
  match wrong_ids with
  | [] => Ok st
  | qid :: wrong_ids' =>
      st' ← explain_one template retries by_id st qid;
      explain_all template retries by_id st' wrong_ids'
  end.

(** The returned [output]: the loaded object, whose ["questions"] list holds
    the question objects as the loop left them. *)
Definition store_questions (output : value) (qs : list value) : value :=
  match output with
  | VDict d =>
      match dict_get "questions" d with
      | Some (VList _) => VDict (dict_set "questions" (VList qs) d)
      | _ => output
      end
  | _ => output
  end.

(** The first three statements: the question objects of the loaded output
    and the [by_id] index over them. *)
Definition load (output : value) : result (list value * table nat) :=
  listed ← method_get "questions" (VList []) output;
  qs ← py_iter listed;
  by_id ← build_by_id 0 qs [];
  Ok (qs, by_id).

(** [add_explanations_for_wrong_questions], from the parsed [output.json]
    on; [n] oracle calls were made before. Returns [output], the counters
    it logs, and the call count. *)
Definition add_explanations_for_wrong_questions (output : value)
    (wrong_ids : list string) (template : string) (retries : Z) (n : nat)
    : result (value * counts * nat) :=
  '(qs, by_id) ← load output;
  st ← explain_all template retries by_id
         (EnrichState qs (Counts 0 0 0) n) wrong_ids;
  Ok (store_questions output (questions st), tally st, calls st).

(** *** Vocabulary for the properties *)

(** [qid] names a (non-empty) question of the loaded output. *)
Definition is_known (output : value) (qid : string) : bool :=
  match load output with
  | Ok (qs, by_id) =>
      match find_question by_id qs qid with
      | Some _ => true
      | None => false
      end
  | Raise _ => false
  end.

End WithRuntime.

(** The attempt budget when the caller does not pass [retries]. *)
Definition default_retries : Z := 3.

(** The question objects an output lists under ["questions"]. *)
Definition listed (output : value) : list value :=
  match output with
  | VDict d =>
      match get_default "questions" (VList []) d with
      | VList qs => qs
      | _ => []
      end
  | _ => []
  end.

(** Some listed question carries the id [qid]: its ["id"] entry is that
    string. *)
Definition names_question (output : value) (qid : string) : bool :=
  existsb (fun q => eq_str (field "id" q) qid) (listed output).

(** [m] more ids counted as missing. *)
Definition note_missing (m : nat) (st : enrich_state) : enrich_state :=
  EnrichState (questions st)
    (Counts (updated (tally st)) (skipped_missing (tally st) + m)
       (skipped_failed (tally st)))
    (calls st).

(** Two question objects that agree on every key but ["explanation"]. *)
Definition only_explanation_differs (q q' : value) : Prop :=
  exists d d',
    q = VDict d /\ q' = VDict d'
    /\ forall k, k <> "explanation" -> dict_get k d' = dict_get k d.

(** The questions [qs] of a run, as they relate to the loaded ones [qs0]
    after the ids [processed] have been handled. *)
Definition framed (processed : list string) (qs0 qs : list value) : Prop :=
  length qs = length qs0
  /\ forall i q0, qs0 !! i = Some q0 ->
       exists q, qs !! i = Some q
         /\ (q = q0
             \/ (only_explanation_differs q0 q
                 /\ exists w, w ∈ processed /\ field "id" q0 = VStr w)).

End Explain.

(** ** generate: the generation driver *)

Module Generate.
Import Py TextUtils RunUtils MockLlm.

(** The texts of the three prompt files named in [cfg["prompts"]]. *)
Record prompt_files : Type := PromptFiles {
  user_prompt : string;
  mcq_prompt : string;
  sata_prompt : string
}.

(** [random.randint(a, b)]. *)
Definition randint (a b : Z) (g : rng) : Z * rng :=
  let '(r, g') := randbelow (Z.to_nat (b - a + 1)) g in
  ((a + Z.of_nat r)%Z, g').

(** [[random.randint(1, choices_per_q) for _ in range(n)]]. *)
Fixpoint draw_counts (n : nat) (choices_per_q : Z) (g : rng) : list Z * rng :=
  match n with
  | O => ([], g)
  | S n' =>
      let '(x, g1) := randint 1 choices_per_q g in
      let '(xs, g2) := draw_counts n' choices_per_q g1 in
      (x :: xs, g2)
  end.

Definition correct_counts_note (qtype : string) (choices_per_q : Z)
    (questions_per_partition : Z) (g : rng) : string * rng :=
  if String.eqb qtype "SATA" then
    let '(counts, g') :=
      draw_counts (Z.to_nat questions_per_partition) choices_per_q g in
    ("SATA only: Use these exact correct-choice counts per question, in order: "
       +:+ join ", " (str_of_int <$> counts) +:+ ".", g')
  else ("", g).

Section WithRuntime.
Context `{Runtime}.

Definition render_generator_prompt (user_text fixed_text : string)
    (variables : dict) : result string :=
  let combined :=
    py_strip (py_strip user_text +:+ nl +:+ nl +:+ py_strip fixed_text) in
  py_format combined variables.

(** [call_responses_structured] as call number [n] of the run: the client
    call, then [json.loads] of its [output_text]. *)
Definition call_responses_structured (prompt : string) (n : nat) : result value :=
  match responses_create n prompt with
  | Fails => Raise OracleError
  | Replies raw_text => json_loads raw_text
  end.

(** The retry loop with [attempts] rounds to go: [data] when a round
    succeeded, and the call count afterwards. *)
Fixpoint generate_attempts (attempts : nat) (prompt : string) (n : nat)
    : option value * nat :=
  match attempts with
  | O => (None, n)
  | S attempts' =>
      match call_responses_structured prompt n with
      | Ok data => (Some data, S n)
      | Raise _ => generate_attempts attempts' prompt (S n)
      end
  end.

(** One item of [data["questions"]] wrapped as a draft question. *)
Definition wrap_question (qtype cid : string) (q : value) : result dict :=
  stem ← subscript "stem" q;
  choices ← subscript "choices" q;
  correct ← subscript "correct_choice_ids" q;
  Ok [("question_type", VStr qtype);
      ("stem", stem);
      ("choices", choices);
      ("correct_choice_ids", correct);
      ("chunk_id", VStr cid);
      ("explanation", VStr "")].

(** Everything up to the retry loop: the schema, the SATA note and the
    rendered prompt, with the random state afterwards. *)
Definition generator_prompt (cfg : generation_cfg) (files : prompt_files)
    (chunk_text : string) (g : rng) : result (string * rng) :=
  let qtype := question_type cfg in
  let choices_per_q := choices_per_question cfg in
  _ ← LlmSchemas.generation_schema choices_per_q;
  let fixed_text :=
    if String.eqb qtype "MCQ" then mcq_prompt files else sata_prompt files in
  let '(note, g') :=
    correct_counts_note qtype choices_per_q (questions_per_partition cfg) g in
  prompt ← render_generator_prompt (user_prompt files) fixed_text
             [("question_type", VStr qtype);
              ("choices_per_question", VInt choices_per_q);
              ("questions_per_partition", VInt (questions_per_partition cfg));
              ("context", VStr (escape_braces chunk_text));
              ("correct_counts_note", VStr note)];
  Ok (prompt, g').

(** The mapping of [data["questions"]] into draft questions. *)
Definition wrap_questions (qtype cid : string) (data : value) : result (list dict) :=
  listed ← subscript "questions" data;
  items ← py_iter listed;
  mapM (wrap_question qtype cid) items.

(** [llm_generate_questions_for_chunk]: the questions, the random state and
    the call count afterwards. With no round at all [data] is still [None]
    when it is subscripted. *)
Definition llm_generate_questions_for_chunk (c : chunk) (cfg : generation_cfg)
    (files : prompt_files) (chunk_text : string) (retries : Z)
    (g : rng) (n : nat) : result (list dict * rng * nat) :=
  '(prompt, g') ← generator_prompt cfg files chunk_text g;
  match generate_attempts (Z.to_nat retries) prompt n with
  | (None, n') =>
      if (retries <? 1)%Z then Raise TypeError else Ok ([], g', n')
  | (Some data, n') =>
      out ← wrap_questions (question_type cfg) (chunk_id c) data;
      Ok (out, g', n')
  end.

(** An attempt that the retry loop counts as failed. *)
Definition attempt_raises (prompt : string) (n : nat) : Prop :=
  exists e, call_responses_structured prompt n = Raise e.

(** An attempt that fails in the wider sense: the call raises, its output
    does not parse, or what it parses to does not conform to the schema. *)
Definition attempt_fails (choices_per_q : Z) (prompt : string) (n : nat) : Prop :=
  attempt_raises prompt n
  \/ exists data, call_responses_structured prompt n = Ok data
                  /\ LlmSchemas.conforms choices_per_q data = false.

(** The degradation promised for every kind of failed attempt: if each
    attempt fails, the call returns the empty list. *)
Definition degrades_when_attempts_fail (c : chunk) (cfg : generation_cfg)
    (files : prompt_files) (chunk_text : string) (retries : Z)
    (g : rng) (n : nat) : Prop :=
  (forall prompt k, attempt_fails (choices_per_question cfg) prompt k) ->
  exists g' n',
    llm_generate_questions_for_chunk c cfg files chunk_text retries g n
    = Ok ([], g', n').

End WithRuntime.

End Generate.

(** ** Sample payloads *)

Module Samples.
Import Py.

Definition choice (cid text : string) : value :=
  VDict [("id", VStr cid); ("text", VStr text)].

Definition three_choices : value :=
  VList [choice "c1" "Paris"; choice "c2" "Rome"; choice "c3" "Oslo"].

(** A draft question as the generators build it. *)
Definition draft (question_type stem : string) (correct : list string) : dict :=
  [("question_type", VStr question_type);
   ("stem", VStr stem);
   ("choices", three_choices);
   ("correct_choice_ids", VList (VStr <$> correct));
   ("chunk_id", VStr "chunk_001");
   ("explanation", VStr "")].

(** A stem with braces in it, as a document on set theory would have. *)
Definition brace_question : dict := draft "MCQ" "Let S = {1, 2}. Size?" ["c1"].

Definition mcq_a : dict := draft "MCQ" "Capital of France?" ["c1"].
Definition mcq_b : dict := draft "MCQ" "Capital of Italy?" ["c2"].
Definition mcq_c : dict := draft "MCQ" "Capital of Norway?" ["c3"].

(** An MCQ draft that names two correct choices. *)
Definition mcq_two_correct : dict := draft "MCQ" "Which are capitals?" ["c1"; "c2"].

Definition tape : rng := [3; 4; 1; 3; 4; 2; 8; 6; 0; 9].

(** The three MCQ drafts after a run with both shuffles on. *)
Definition shuffled_out : list dict :=
  Eval vm_compute in
    match Postprocess.postprocess_questions [mcq_a; mcq_b; mcq_c]
            "MCQ" 3 true true tape with
    | Ok (out, _) => out
    | Raise _ => []
    end.

Definition shuffled_rng : rng :=
  Eval vm_compute in
    match Postprocess.postprocess_questions [mcq_a; mcq_b; mcq_c]
            "MCQ" 3 true true tape with
    | Ok (_, g) => g
    | Raise _ => []
    end.

(** A run output as [output.json] holds it. *)
Definition output : value :=
  VDict [("schema_version", VInt 1);
         ("run_id", VStr "2026-01-01_00-00-00__doc");
         ("context_file", VStr "doc.pdf");
         ("settings", VDict [("question_type", VStr "MCQ");
                             ("choices_per_question", VInt 3);
                             ("randomize_questions", VBool true);
                             ("randomize_options", VBool true)]);
         ("questions", VList (VDict <$> shuffled_out))].

Definition explain_template : string :=
  "Question: {stem} Choices: {choices} Correct: {correct_choice_ids}".

(** A runtime around a given remote model: [json.loads] knows the empty
    object, nothing is stripped, containers print as an ellipsis. *)
Definition runtime (responses : nat -> string -> outcome) : Runtime :=
  {| py_repr := fun _ => "...";
     py_strip := fun s => s;
     format_full := fun _ _ => Raise (ValueError "Invalid format specifier");
     json_loads := fun text =>
       if String.eqb text "{}" then Ok (VDict [])
       else Raise (ValueError "Expecting value");
     responses_create := responses |}.

(** Remote models: one that always answers, one that never does, one that
    fails twice and then answers, one that returns an empty JSON object. *)
Definition answering : nat -> string -> outcome :=
  fun _ _ => Replies "Because it is the capital.".

Definition failing : nat -> string -> outcome := fun _ _ => Fails.

Definition third_time : nat -> string -> outcome :=
  fun n _ => if (n <? 2)%nat then Fails else Replies "Because it is the capital.".

Definition empty_object : nat -> string -> outcome := fun _ _ => Replies "{}".

(** The loaded output after enriching q_0001 and the unknown q_9999 with
    the model that always answers. *)
Definition enriched : value :=
  Eval vm_compute in
    match @Explain.add_explanations_for_wrong_questions (runtime answering)
            output ["q_0001"; "q_9999"] explain_template 3 0 with
    | Ok (out, _, _) => out
    | Raise _ => VNone
    end.

Definition files : Generate.prompt_files :=
  Generate.PromptFiles "Write {questions_per_partition} questions."
    "Type {question_type}, {choices_per_question} choices. Context: {context}"
    "Type {question_type}. {correct_counts_note} Context: {context}".

(** The SATA prompt rendered for the text "Sets are written {1, 2}." *)
Definition generator_prompt_text : string :=
  Eval vm_compute in
    match @Generate.generator_prompt (runtime failing)
            (MockLlm.GenerationCfg "SATA" 3 2) files
            "Sets are written {1, 2}." tape with
    | Ok (prompt, _) => prompt
    | Raise _ => ""
    end.

End Samples.

(** ** The data-model invariants of a question *)

Module PostprocessSpec.
Import Py Postprocess.

(** A question as the data model wants it: the four required keys, the
    run's question type, exactly [choices_per_question] choices that are
    dicts with non-empty, hashable, pairwise different ids, and a non-empty
    list of correct ids, each the id of a choice, exactly one for MCQ. *)
Definition valid_question (question_type : string) (choices_per_question : Z)
    (q : dict) : Prop :=
  (forall k, k ∈ required_keys -> dict_has k q = true)
  /\ dict_get "question_type" q = Some (VStr question_type)
  /\ exists choices correct,
       dict_get "choices" q = Some (VList choices)
       /\ Z.of_nat (length choices) = choices_per_question
       /\ Forall (fun c => is_dict c = true
                           /\ truthy (field "id" c) = true
                           /\ hashable (field "id" c) = true) choices
       /\ NoDup (key_of <$> (field "id" <$> choices))
       /\ dict_get "correct_choice_ids" q = Some (VList correct)
       /\ 1 <= length correct
       /\ Forall (fun cid => hashable cid = true
                             /\ key_of cid ∈ key_of <$> (field "id" <$> choices))
            correct
       /\ (question_type = "MCQ" -> length correct = 1).

(** The number a string of decimal digits stands for, read after [acc]. *)
Fixpoint decimal_value (acc : N) (s : string) : N :=
  match s with
  | EmptyString => acc
  | String c s' => decimal_value (acc * 10 + (Ascii.N_of_ascii c - 48)) s'
  end.

(** What postprocessing leaves of a source question [q] in [q']: every key
    but the id, the choice list and the explanation is as it was, and the
    explanation is the source's, or empty when there was none. *)
Definition carried_over (q q' : dict) : Prop :=
  (forall k, k <> "id" -> k <> "choices" -> k <> "explanation" ->
     dict_get k q' = dict_get k q)
  /\ dict_get "explanation" q'
     = Some (get_default "explanation" (VStr "") q).

(** The id of the question numbered [i], said without the code that
    builds it: the prefix q_, then decimal digits that read as [i], four
    of them, or more when [i] needs more, then without a leading zero. *)
Definition sequence_id (i : nat) (id : string) : Prop :=
  exists digits,
    id = "q_" +:+ digits
    /\ forallb is_digit (String.list_ascii_of_string digits) = true
    /\ decimal_value 0 digits = N.of_nat i
    /\ (String.length digits = 4
        \/ (4 < String.length digits
            /\ String.get 0 digits <> Some "0"%char)).

(** The ids in list order for every list that passes validation, with no
    condition on the objects the list holds. *)
Definition ids_in_list_order (refs : list nat) (s : gmap nat dict)
    (question_type : string) (choices_per_question : Z)
    (randomize_questions randomize_options : bool) (g : rng) : Prop :=
  forall validated,
    validate question_type choices_per_question (contents s refs)
      = Ok validated ->
    exists refs' s' g',
      postprocess_objects refs s question_type choices_per_question
        randomize_questions randomize_options g = Ok (refs', s', g')
      /\ forall i r, refs' !! i = Some r ->
           exists id,
             dict_get "id" (deref s' r) = Some (VStr id)
             /\ sequence_id (S i) id.

End PostprocessSpec.

(** ** More sample data *)

Module MoreSamples.
Import Py.

(** The first question of [Samples.shuffled_out]. *)
Definition first_shuffled : dict :=
  Eval vm_compute in default [] (Samples.shuffled_out !! 0).

(** The second one. *)
Definition second_shuffled : dict :=
  Eval vm_compute in default [] (Samples.shuffled_out !! 1).

(** Three distinct question objects, at the addresses 0, 1 and 2. *)
Definition three_objects : gmap nat dict :=
  map_seq 0 [Samples.mcq_a; Samples.mcq_b; Samples.mcq_c].

(** The list and the objects of the run over the three, both flags on. *)
Definition shuffled_refs : list nat :=
  Eval vm_compute in
    match Postprocess.postprocess_objects [0; 1; 2] three_objects "MCQ" 3
            true true Samples.tape with
    | Ok (refs, _, _) => refs
    | Raise _ => []
    end.

Definition shuffled_objects : gmap nat dict :=
  Eval vm_compute in
    match Postprocess.postprocess_objects [0; 1; 2] three_objects "MCQ" 3
            true true Samples.tape with
    | Ok (_, s, _) => s
    | Raise _ => ∅
    end.

(** One question object, to be listed twice. *)
Definition one_object : gmap nat dict := {[0 := Samples.mcq_a]}.

(** Two question objects, the first to be listed twice. *)
Definition two_objects : gmap nat dict :=
  map_seq 0 [Samples.mcq_a; Samples.mcq_b].

End MoreSamples.

(** ** Vocabulary for the generation driver *)

Module GenerateSpec.
Import Py.

(** What the reply schema leaves open about a draft question: its choice
    ids are pairwise different, every correct id is the id of one of its
    choices, and an MCQ has exactly one correct id. *)
Definition consistent_key (question_type : string) (q : dict) : Prop :=
  exists choices correct,
    dict_get "choices" q = Some (VList choices)
    /\ dict_get "correct_choice_ids" q = Some (VList correct)
    /\ NoDup (key_of <$> (field "id" <$> choices))
    /\ Forall (fun cid => key_of cid ∈ key_of <$> (field "id" <$> choices))
         correct
    /\ (question_type = "MCQ" -> length correct = 1).

(** What wrapping makes of one item of a conforming reply. *)
Definition wrapped (qt cid : string) (cpq : Z) (w : dict) : Prop :=
  exists stem choices correct,
    w = [("question_type", VStr qt); ("stem", stem);
         ("choices", VList choices); ("correct_choice_ids", VList correct);
         ("chunk_id", VStr cid); ("explanation", VStr "")]
    /\ Z.of_nat (length choices) = cpq
    /\ Forall (fun c => is_dict c = true /\ truthy (field "id" c) = true
                        /\ hashable (field "id" c) = true) choices
    /\ 1 <= length correct
    /\ Forall (fun cid => hashable cid = true) correct.

(** A reply with one question whose two choices share the id ["c1"]. *)
Definition repeated_id_reply : value :=
  VDict [("questions",
          VList [VDict [("stem", VStr "Pick one.");
                        ("choices",
                         VList [VDict [("id", VStr "c1"); ("text", VStr "yes")];
                                VDict [("id", VStr "c1"); ("text", VStr "no")]]);
                        ("correct_choice_ids", VList [VStr "c1"])]])].

End GenerateSpec.

(** ** Vocabulary for the prompt of an explanation *)

Module ExplainSpec.
Import Py.

(** The label of the choice at (0-based) position [i]: A, B, C, ... *)
Definition letter (i : nat) : string := byte (65 + Z.of_nat i).

(** The position of the last choice whose non-empty id equals [cid]. *)
Fixpoint last_position (cid : value) (ids : list value) : option nat :=
  match ids with
  | [] => None
  | x :: ids' =>
      match last_position cid ids' with
      | Some i => Some (S i)
      | None => if truthy x && py_eqb x cid then Some 0 else None
      end
  end.

(** The label that stands for the correct id [cid]. *)
Definition letter_of (ids : list value) (cid : value) : string :=
  match last_position cid ids with
  | Some i => letter i
  | None => "?"
  end.

(** [c.get("text", "")] for a choice dict [c]. *)
Definition text_of (c : value) : value :=
  match c with
  | VDict d => get_default "text" (VStr "") d
  | _ => VNone
  end.

(** Three choices, the first and the last with the same id. *)
Definition lettered_choices : list value :=
  [VDict [("id", VStr "c1"); ("text", VStr "Paris")];
   VDict [("id", VStr "c2"); ("text", VStr "Rome")];
   VDict [("id", VStr "c1"); ("text", VStr "Oslo")]].

End ExplainSpec.

(** ** pages.build_chunk_text *)

Module Pages.
Import Py MockLlm.

(** [pages_map: Dict[int, str]], page number to page text. *)
Definition pages_map : Type := gmap Z string.

Section WithRuntime.
Context `{Runtime}.

(** [f"[Page {p}]\n{txt}".strip()] with [txt = pages_map.get(p, "")]. *)
Definition page_part (pages : pages_map) (p : Z) : string :=
  py_strip ("[Page " +:+ str_of_int p +:+ "]" +:+ nl
            +:+ default "" (pages !! p)).

Definition build_chunk_text (pages : pages_map) (page_start page_end : Z)
    : string :=
  let parts := page_part pages <$> py_range page_start (page_end + 1) in
  py_strip (join (nl +:+ nl) parts).

End WithRuntime.

End Pages.

(** ** pipeline.run_generate_pipeline *)

Module Pipeline.
Import Py RunUtils Postprocess MockLlm Generate Pages.

(** The entries of [cfg] the run reads after the manifest is written. *)
Record config : Type := Config {
  generation : generation_cfg;
  pages_per_partition : Z;
  overlap_pages : Z;
  randomize_questions : bool;
  randomize_options : bool;
  prompts : prompt_files
}.

(** The [output] dict written to [output.json]. *)
Definition output_object (run_id context_file : string) (cfg : config)
    (processed : list dict) : value :=
  VDict [("schema_version", VInt 1);
         ("run_id", VStr run_id);
         ("context_file", VStr context_file);
         ("settings",
          VDict [("question_type", VStr (question_type (generation cfg)));
                 ("choices_per_question",
                  VInt (choices_per_question (generation cfg)));
                 ("randomize_questions", VBool (randomize_questions cfg));
                 ("randomize_options", VBool (randomize_options cfg))]);
         ("questions", VList (VDict <$> processed))].

Section WithRuntime.
Context `{Runtime}.

(** The questions one chunk contributes: the mock generator, or the real
    one with [retries] left at its default, 3. *)
Definition questions_for_chunk (cfg : config) (pages : pages_map)
    (use_mock_llm : bool) (ch : chunk) (g : rng) (n : nat)
    : result (list dict * rng * nat) :=
  let chunk_text := build_chunk_text pages (page_start ch) (page_end ch) in
  if use_mock_llm
  then Ok (mock_generate_questions_for_chunk ch (generation cfg), g, n)
  else llm_generate_questions_for_chunk ch (generation cfg) (prompts cfg)
         chunk_text 3 g n.

(** [for idx, ch in enumerate(chunks, start=1): ... all_questions.extend(qs)]. *)
Fixpoint generate_loop (cfg : config) (pages : pages_map) (use_mock_llm : bool)
    (chunks : list chunk) (all_questions : list dict) (g : rng) (n : nat)
    : result (list dict * rng * nat) :=
  match chunks with
  | [] => Ok (all_questions, g, n)
  | ch :: chunks' =>
      '(qs, g1, n1) ← questions_for_chunk cfg pages use_mock_llm ch g n;
      generate_loop cfg pages use_mock_llm chunks' (all_questions ++ qs) g1 n1
  end.

(** [run_generate_pipeline] from the extracted pages on: [total_pages] and
    [pages] are what the PDF extraction produced. The result is the
    [output] object the run writes, with the random state and the number of
    model calls afterwards; [None] when [make_chunks] does not return. The
    run directory, the manifest, the files and the log are left out. *)
Definition run_generate_pipeline (run_id context_file : string)
    (total_pages : Z) (pages : pages_map) (cfg : config) (use_mock_llm : bool)
    (g : rng) (n : nat) : option (result (value * rng * nat)) :=
  match make_chunks total_pages (pages_per_partition cfg) (overlap_pages cfg) with
  | None => None
  | Some chunks =>
      Some ('(all_questions, g1, n1) ←
              generate_loop cfg pages use_mock_llm chunks [] g n;
            '(processed, g2) ←
              postprocess_questions all_questions
                (question_type (generation cfg))
                (choices_per_question (generation cfg))
                (randomize_questions cfg) (randomize_options cfg) g1;
            Ok (output_object run_id context_file cfg processed, g2, n1))
  end.

End WithRuntime.

End Pipeline.

(** ** A sample run *)

Module RunSamples.
Import Py MockLlm Generate Pipeline.

(** Three extracted pages. *)
Definition pages : Pages.pages_map :=
  <[1%Z := "Sets."]> (<[2%Z := "Maps {k: v}."]> (<[3%Z := "Lists."]> ∅)).

(** Two-page windows without overlap, two MCQs with three choices each. *)
Definition cfg : config :=
  Config (GenerationCfg "MCQ" 3 2) 2 0 true true Samples.files.

(** The windows of the three pages. *)
Definition windows : list RunUtils.chunk :=
  Eval vm_compute in default [] (RunUtils.make_chunks 3 2 0).

End RunSamples.

(** * Properties *)

(** ** Facts about the runtime model *)

Module PyTheory.
Import Py.

(** *** The error monad *)

Lemma bind_Ok {A B} (m : result A) (k : A -> result B) b :
  m ≫= k = Ok b <-> exists a, m = Ok a /\ k a = Ok b.
Proof.
  destruct m as [a|e]; simpl; split.
  - intros H. exists a. split; [reflexivity | exact H].
  - intros (a' & [= <-] & H). exact H.
  - discriminate.
  - intros (a' & [=] & _).
Qed.

Lemma mapM_Ok {A B} (f : A -> result B) l k :
  mapM f l = Ok k <-> Forall2 (fun x y => f x = Ok y) l k.
Proof.
  revert k. induction l as [|x l IH]; intros k; simpl.
  - split.
    + intros [= <-]. constructor.
    + inversion 1. reflexivity.
  - split.
    + intros H. apply bind_Ok in H as (y & Hy & H).
      apply bind_Ok in H as (k' & Hk' & [= <-]).
      constructor; [exact Hy | apply IH; exact Hk'].
    + inversion 1 as [|x' y l' k' Hy Hk']; subst.
      apply IH in Hk'. rewrite Hy. simpl. rewrite Hk'. reflexivity.
Qed.

Lemma mapM_Raise {A B} (f : A -> result B) l x e :
  x ∈ l -> f x = Raise e -> exists e', mapM f l = Raise e'.
Proof.
  intros Hx Hf. induction l as [|y l IH]; [inversion Hx|].
  simpl. destruct (f y) as [b|e0] eqn:Hy; simpl; [|eauto].
  apply elem_of_cons in Hx as [->|Hx]; [congruence|].
  destruct (IH Hx) as (e' & ->). simpl. eauto.
Qed.

(** *** Dicts *)

Lemma dict_get_set_eq k v d : dict_get k (dict_set k v d) = Some v.
Proof.
  induction d as [|[k' v'] d IH]; simpl.
  - rewrite decide_True; reflexivity.
  - destruct (decide (k' = k)) as [->|Hne]; simpl.
    + rewrite decide_True; reflexivity.
    + rewrite decide_False; assumption.
Qed.

Lemma dict_get_set_ne k k' v d :
  k <> k' -> dict_get k' (dict_set k v d) = dict_get k' d.
Proof.
  intros Hne. induction d as [|[k0 v0] d IH]; simpl.
  - rewrite decide_False; [reflexivity | assumption].
  - destruct (decide (k0 = k)) as [->|Hk]; simpl.
    + rewrite !decide_False by assumption. reflexivity.
    + destruct (decide (k0 = k')); [reflexivity | exact IH].
Qed.

Lemma dict_set_id k v d : dict_get k d = Some v -> dict_set k v d = d.
Proof.
  induction d as [|[k0 v0] d IH]; simpl; [discriminate|].
  destruct (decide (k0 = k)) as [->|Hk].
  - intros [= ->]. reflexivity.
  - intros H. rewrite IH; [reflexivity | exact H].
Qed.

Lemma dict_has_set_ne k k' v d :
  k <> k' -> dict_has k' (dict_set k v d) = dict_has k' d.
Proof. intros H. unfold dict_has. rewrite dict_get_set_ne; auto. Qed.

Lemma dict_setdefault_get_ne k k' v d :
  k <> k' -> dict_get k' (dict_setdefault k v d) = dict_get k' d.
Proof.
  intros H. unfold dict_setdefault. destruct (dict_has k d); [reflexivity|].
  apply dict_get_set_ne. exact H.
Qed.

Lemma dict_setdefault_has k v d : dict_has k (dict_setdefault k v d) = true.
Proof.
  unfold dict_setdefault. destruct (dict_has k d) eqn:E; [exact E|].
  unfold dict_has. rewrite dict_get_set_eq. reflexivity.
Qed.

Lemma dict_setdefault_id k v d : dict_has k d = true -> dict_setdefault k v d = d.
Proof. intros H. unfold dict_setdefault. rewrite H. reflexivity. Qed.

(** *** Sets of hashable values *)

Lemma py_eqb_key a b :
  hashable a = true -> hashable b = true ->
  py_eqb a b = true <-> key_of a = key_of b.
Proof.
  intros Ha Hb.
  destruct a as [|x|x|x|x|x], b as [|y|y|y|y|y]; simpl in *;
    try discriminate; try (split; [discriminate | congruence]);
    try (split; reflexivity).
  - destruct x, y; simpl; split; congruence.
  - rewrite Z.eqb_eq. split; congruence.
  - rewrite Z.eqb_eq. split; congruence.
  - rewrite Z.eqb_eq. split; congruence.
  - rewrite String.eqb_eq. split; congruence.
Qed.

Lemma py_mem_key v s :
  hashable v = true -> Forall (fun x => hashable x = true) s ->
  py_mem v s = true <-> key_of v ∈ key_of <$> s.
Proof.
  intros Hv Hs. unfold py_mem. induction Hs as [|x s Hx Hs IH]; simpl.
  - split; [discriminate | inversion 1].
  - rewrite orb_true_iff, IH, py_eqb_key, elem_of_cons by assumption.
    reflexivity.
Qed.

Lemma py_set_from_spec l : forall acc,
  Forall (fun x => hashable x = true) acc ->
  Forall (fun x => hashable x = true) l ->
  exists s, py_set_from acc l = Ok s
    /\ length s <= length acc + length l
    /\ (NoDup (key_of <$> acc) ->
        length s = length acc + length l <-> NoDup (key_of <$> (acc ++ l))).
Proof.
  induction l as [|v l IH]; intros acc Hacc Hl; simpl.
  - exists acc. rewrite app_nil_r. split; [reflexivity|]. split; [lia|].
    intros Hnd. split; [intros _; exact Hnd | intros _; lia].
  - inversion Hl as [|? ? Hv Hl']; subst. rewrite Hv.
    destruct (py_mem v acc) eqn:Hmem.
    + destruct (IH acc Hacc Hl') as (s & Hs & Hlen & _).
      exists s. split; [exact Hs|]. split; [lia|].
      intros _. split; [lia|].
      rewrite fmap_app, fmap_cons, NoDup_app. intros (_ & Hdisj & _).
      exfalso. apply (Hdisj (key_of v)).
      * apply py_mem_key; assumption.
      * apply list_elem_of_here.
    + destruct (IH (acc ++ [v])) as (s & Hs & Hlen & Hiff).
      { apply Forall_app. split; [exact Hacc | repeat constructor; exact Hv]. }
      { exact Hl'. }
      rewrite length_app in Hlen, Hiff. simpl in Hlen, Hiff.
      exists s. split; [exact Hs|]. split; [lia|].
      intros Hnd. rewrite <- app_assoc in Hiff. simpl in Hiff.
      replace (length acc + S (length l)) with (length acc + 1 + length l) by lia.
      apply Hiff. rewrite fmap_app. simpl. apply NoDup_app.
      split; [exact Hnd|]. split; [|apply NoDup_singleton].
      intros k Hk Hk'. apply list_elem_of_singleton in Hk'. subst k.
      apply py_mem_key in Hk; [congruence | assumption | assumption].
Qed.

Lemma py_set_unhashable l : forall acc,
  Exists (fun x => hashable x = false) l -> py_set_from acc l = Raise TypeError.
Proof.
  induction l as [|v l IH]; intros acc H; simpl; [inversion H|].
  destruct (hashable v) eqn:Hv; [|reflexivity].
  apply IH. inversion H; subst; [congruence | assumption].
Qed.

(** [len(set(l)) == len(l)] says that the elements are pairwise unequal. *)
Lemma py_set_distinct l s :
  py_set l = Ok s ->
  Forall (fun x => hashable x = true) l
  /\ (length s = length l <-> NoDup (key_of <$> l)).
Proof.
  intros Hs.
  assert (Hh : Forall (fun x => hashable x = true) l).
  { apply Forall_forall. intros x Hx.
    destruct (hashable x) eqn:E; [reflexivity|]. exfalso.
    unfold py_set in Hs. rewrite py_set_unhashable in Hs; [discriminate|].
    apply Exists_exists. eauto. }
  split; [exact Hh|].
  destruct (py_set_from_spec l [] (Forall_nil_2 _) Hh) as (s' & Hs' & _ & Hiff).
  unfold py_set in Hs. rewrite Hs in Hs'. injection Hs' as <-.
  apply Hiff. constructor.
Qed.

Lemma py_set_Ok l :
  Forall (fun x => hashable x = true) l -> NoDup (key_of <$> l) ->
  exists s, py_set l = Ok s /\ length s = length l.
Proof.
  intros Hh Hnd.
  destruct (py_set_from_spec l [] (Forall_nil_2 _) Hh) as (s & Hs & _ & Hiff).
  exists s. split; [exact Hs|]. apply Hiff; [constructor | exact Hnd].
Qed.

Lemma mapM_method_get k dflt l ids :
  mapM (method_get k dflt) l = Ok ids ->
  Forall (fun c => is_dict c = true) l.
Proof.
  intros H. apply mapM_Ok in H.
  induction H as [|c y l ids Hc _ IH]; constructor; [|exact IH].
  destruct c; simpl in Hc; try discriminate. reflexivity.
Qed.

Lemma mapM_method_get_Ok k l :
  Forall (fun c => is_dict c = true) l ->
  mapM (method_get k VNone) l = Ok (field k <$> l).
Proof.
  intros H. apply mapM_Ok.
  induction H as [|c l Hc _ IH]; simpl; constructor; [|exact IH].
  destruct c; simpl in *; try discriminate. reflexivity.
Qed.

(** *** Shuffling permutes *)

Lemma insert_Permutation {A} (x : list A) i a b :
  x !! i = Some a -> <[i:=b]> x ≡ₚ b :: delete i x.
Proof.
  revert i. induction x as [|c x IH]; intros [|i] H; simpl in *; try discriminate.
  - reflexivity.
  - rewrite (IH i H). apply Permutation_swap.
Qed.

Lemma swap_Permutation {A} (x : list A) i j : swap x i j ≡ₚ x.
Proof.
  unfold swap.
  destruct (x !! i) as [a|] eqn:Hi; [|reflexivity].
  destruct (x !! j) as [b|] eqn:Hj; [|reflexivity].
  destruct (decide (i = j)) as [->|Hne].
  - rewrite list_insert_insert_eq.
    assert (a = b) as -> by congruence.
    rewrite list_insert_id; [reflexivity | exact Hj].
  - assert (Hj' : <[i:=b]> x !! j = Some b)
      by (rewrite list_lookup_insert_ne; assumption).
    rewrite (insert_Permutation _ _ _ a Hj').
    assert (H1 : <[i:=b]> x ≡ₚ b :: delete j (<[i:=b]> x))
      by (apply delete_Permutation; exact Hj').
    rewrite (insert_Permutation _ _ _ b Hi) in H1 at 1.
    apply Permutation_cons_inv in H1. rewrite <- H1.
    symmetry. apply delete_Permutation. exact Hi.
Qed.

Lemma shuffle_from_Permutation {A} i (x : list A) g :
  (shuffle_from i x g).1 ≡ₚ x.
Proof.
  revert x g. induction i as [|i IH]; intros x g; simpl; [reflexivity|].
  destruct (randbelow (S (S i)) g) as [j g'].
  rewrite IH. apply swap_Permutation.
Qed.

Lemma shuffle_Permutation {A} (x : list A) g : (shuffle x g).1 ≡ₚ x.
Proof. apply shuffle_from_Permutation. Qed.

Lemma existsb_Permutation {A} (f : A -> bool) l l' :
  l ≡ₚ l' -> existsb f l = existsb f l'.
Proof.
  induction 1 as [|x l l' _ IH|x y l|l l' l'' _ IH1 _ IH2]; simpl.
  - reflexivity.
  - rewrite IH. reflexivity.
  - destruct (f x), (f y); reflexivity.
  - congruence.
Qed.

End PyTheory.

(** ** The partitioner tiles the page range *)

Module RunUtilsTheory.
Import RunUtils.

Section Tiling.
Variables total_pages pages_per_partition stride : Z.
Abbreviation tiling := (tiling total_pages pages_per_partition stride).
Abbreviation neighbours := (neighbours pages_per_partition stride).

Hypothesis stride_pos : (1 <= stride)%Z.
Hypothesis stride_le : (stride <= pages_per_partition)%Z.

Lemma loop_tiling fuel st :
  (Z.to_nat (total_pages - start st + 1) < fuel)%nat ->
  exists ws,
    make_chunks_loop fuel total_pages pages_per_partition stride st
      = Some (chunks st ++ ws)
    /\ tiling (start st) ws.
Proof.
  revert st. induction fuel as [|fuel IH]; intros [cs s i] Hfuel; simpl in *.
  - lia.
  - destruct (Z.leb_spec s total_pages) as [Hle|Hgt].
    + destruct (Z.eqb_spec (Z.min (s + pages_per_partition - 1) total_pages)
                  total_pages) as [Heq|Hne].
      * eexists. split; [reflexivity|].
        rewrite Heq. apply tiling_last. lia.
      * destruct (IH (LoopState
            (cs ++ [Chunk ("chunk_" +:+ Py.format_0d 3 i) s
                      (Z.min (s + pages_per_partition - 1) total_pages)])
            (s + stride) (i + 1))%Z) as (ws & Hrun & Hws).
        { simpl. lia. }
        simpl in Hrun, Hws. eexists. split.
        { rewrite Hrun, <- app_assoc. reflexivity. }
        replace (Z.min (s + pages_per_partition - 1) total_pages)
          with (s + pages_per_partition - 1)%Z by lia.
        apply tiling_more; [lia | exact Hws].
    + exists []. rewrite app_nil_r. split; [reflexivity|].
      apply tiling_none. lia.
Qed.

Lemma tiling_bounds s ws :
  tiling s ws ->
  Forall (fun w => (s <= page_start w <= page_end w)%Z
                   /\ (page_end w <= total_pages)%Z) ws.
Proof.
  induction 1 as [s Hs | s id Hs | s id ws Hs Hws IH].
  - constructor.
  - constructor; [simpl; lia | constructor].
  - constructor; [simpl; lia|].
    eapply Forall_impl; [exact IH|]. simpl. intros w Hw. lia.
Qed.

Lemma tiling_covers s ws p :
  tiling s ws -> (s <= p <= total_pages)%Z ->
  exists w, w ∈ ws /\ covers w p.
Proof.
  induction 1 as [s Hs | s id Hs | s id ws Hs Hws IH]; intros Hp.
  - lia.
  - eexists. split; [apply list_elem_of_here|]. unfold covers. simpl. lia.
  - destruct (Z_le_gt_dec p (s + pages_per_partition - 1)) as [Hin|Hout].
    + eexists. split; [apply list_elem_of_here|]. unfold covers. simpl. lia.
    + destruct IH as (w & Hw & Hc); [lia|].
      exists w. split; [apply list_elem_of_further; exact Hw | exact Hc].
Qed.

Lemma tiling_head s w ws :
  tiling s (w :: ws) ->
  page_start w = s /\ (s <= page_end w)%Z
  /\ (page_end w <= s + pages_per_partition - 1)%Z.
Proof. inversion 1; subst; simpl; lia. Qed.

Lemma tiling_adjacent s ws :
  tiling s ws -> adjacent neighbours ws.
Proof.
  induction 1 as [s Hs | s id Hs | s id ws Hs Hws IH]; simpl; try exact I.
  destruct ws as [|b ws']; [exact I|]. split; [|exact IH].
  destruct (tiling_head _ _ _ Hws) as (Hb1 & Hb2 & Hb3).
  assert (Hb4 : (s + pages_per_partition - 1 < page_end b)%Z).
  { inversion Hws; subst; simpl; lia. }
  unfold neighbours, overlap_count. simpl. lia.
Qed.

Lemma tiling_last_page s ws :
  tiling s ws -> (s <= total_pages)%Z ->
  exists w, last ws = Some w /\ page_end w = total_pages.
Proof.
  induction 1 as [s Hs | s id Hs | s id ws Hs Hws IH]; intros Hle.
  - lia.
  - eexists. split; reflexivity.
  - destruct IH as (w & Hw & He); [lia|].
    exists w. split; [|exact He].
    destruct ws; [discriminate|]. exact Hw.
Qed.

End Tiling.

Lemma loop_fuel_mono total_pages pages_per_partition stride f1 st r :
  make_chunks_loop f1 total_pages pages_per_partition stride st = Some r ->
  forall f2, (f1 <= f2)%nat ->
  make_chunks_loop f2 total_pages pages_per_partition stride st = Some r.
Proof.
  revert st r. induction f1 as [|f1 IH]; intros st r Hr f2 Hle; [discriminate|].
  destruct f2 as [|f2]; [lia|]. simpl in *.
  destruct (start st <=? total_pages)%Z; [|exact Hr].
  destruct (Z.min (start st + pages_per_partition - 1) total_pages
            =? total_pages)%Z; [exact Hr|].
  apply IH with (f2 := f2) in Hr; [exact Hr | lia].
Qed.

Lemma adjacent_impl {A} (P Q : A -> A -> Prop) l :
  (forall a b, P a b -> Q a b) -> adjacent P l -> adjacent Q l.
Proof.
  intros HPQ. induction l as [|a [|b l] IH]; simpl; auto.
  intros [Hab Hl]. split; [apply HPQ; exact Hab | apply IH; exact Hl].
Qed.

(** C1. For [total_pages >= 0], [pages_per_partition >= 1] and
    [0 <= overlap_pages < pages_per_partition], [make_chunks] returns (the
    loop ends, with any fuel above the page count) a list of windows such
    that: no windows when [total_pages = 0]; a page is in some window
    exactly when it is in [1, total_pages]; every window satisfies
    [1 <= page_start <= page_end <= total_pages]; the first window starts at
    page 1 and the last one ends at [total_pages]; each window starts no
    later than one page after its predecessor ends (no gap) and strictly
    after its predecessor starts; and two consecutive windows share exactly
    [overlap_pages] pages. *)
Theorem make_chunks_tiles (total_pages pages_per_partition overlap_pages : Z) :
  (0 <= total_pages)%Z ->
  (1 <= pages_per_partition)%Z ->
  (0 <= overlap_pages < pages_per_partition)%Z ->
  exists ws,
    make_chunks total_pages pages_per_partition overlap_pages = Some ws
    /\ (forall fuel, (Z.to_nat total_pages < fuel)%nat ->
          make_chunks_fuel fuel total_pages pages_per_partition overlap_pages
            = Some ws)
    /\ (total_pages = 0%Z -> ws = [])
    /\ (forall p, (exists w, w ∈ ws /\ covers w p) <-> (1 <= p <= total_pages)%Z)
    /\ Forall (fun w => (1 <= page_start w)%Z
                        /\ (page_start w <= page_end w)%Z
                        /\ (page_end w <= total_pages)%Z) ws
    /\ (forall w, head ws = Some w -> page_start w = 1%Z)
    /\ (forall w, last ws = Some w -> page_end w = total_pages)
    /\ adjacent (fun a b =>
          (page_start a < page_start b)%Z
          /\ (page_start b <= page_end a + 1)%Z
          /\ (page_end a < page_end b)%Z
          /\ overlap_count a b = overlap_pages) ws.
Proof.
  intros Htot Hppp Hov.
  set (stride := (pages_per_partition - overlap_pages)%Z).
  assert (Hrun : forall fuel, (Z.to_nat total_pages < fuel)%nat ->
            exists ws,
              make_chunks_fuel fuel total_pages pages_per_partition overlap_pages
                = Some ws
              /\ tiling total_pages pages_per_partition stride 1 ws).
  { intros fuel Hfuel. unfold make_chunks_fuel.
    destruct (loop_tiling total_pages pages_per_partition stride
                ltac:(subst stride; lia) fuel
                (LoopState [] 1 1)) as (ws & Hws & Ht).
    - simpl. lia.
    - exists ws. split; [exact Hws | exact Ht]. }
  destruct (Hrun (S (Z.to_nat total_pages))) as (ws & Hws & Ht); [lia|].
  assert (Hs1 : (1 <= stride)%Z) by (subst stride; lia).
  assert (Hs2 : (stride <= pages_per_partition)%Z) by (subst stride; lia).
  exists ws. split; [exact Hws|].
  assert (Hb : Forall (fun w => (1 <= page_start w <= page_end w)%Z
                       /\ (page_end w <= total_pages)%Z) ws)
    by (eapply tiling_bounds; eassumption).
  split; [|split; [|split; [|split; [|split; [|split]]]]].
  - intros fuel Hfuel. destruct (Hrun fuel Hfuel) as (ws' & Hws' & Ht').
    rewrite Hws'. f_equal.
    unfold make_chunks in Hws.
    unfold make_chunks_fuel in Hws, Hws'.
    apply loop_fuel_mono with (f2 := fuel) in Hws; [|lia]. congruence.
  - intros ->. inversion Ht; subst; [reflexivity | lia | lia].
  - intros p. split.
    + intros (w & Hw & Hc). rewrite Forall_forall in Hb.
      specialize (Hb w Hw). unfold covers in Hc. lia.
    + intros Hp. eapply tiling_covers; try eassumption; lia.
  - eapply Forall_impl; [exact Hb|]. simpl. intros w Hw. lia.
  - intros w Hw. destruct ws as [|w' ws']; [discriminate|].
    simpl in Hw. injection Hw as ->.
    eapply tiling_head in Ht; try eassumption. tauto.
  - intros w Hw. destruct ws as [|w' ws']; [discriminate|].
    assert (Hl : exists w2, last (w' :: ws') = Some w2 /\ page_end w2 = total_pages).
    { eapply tiling_last_page; try eassumption. inversion Ht; subst; lia. }
    destruct Hl as (w2 & Hw2 & He). congruence.
  - eapply adjacent_impl; [|eapply tiling_adjacent; eassumption].
    unfold neighbours. intros a0 b0. subst stride. lia.
Qed.

Lemma make_chunks_tiles_witness :
  exists ws,
    make_chunks 10 4 1 = Some ws
    /\ (forall p, (exists w, w ∈ ws /\ covers w p) <-> (1 <= p <= 10)%Z).
Proof.
  destruct (make_chunks_tiles 10 4 1) as (ws & H1 & _ & _ & H2 & _);
    [lia | lia | lia |].
  exists ws. split; [exact H1 | exact H2].
Defined.

End RunUtilsTheory.

Module RunUtilsExamples.
Import RunUtils.

Example make_chunks_10_4_1 :
  make_chunks 10 4 1 =
    Some [Chunk "chunk_001" 1 4; Chunk "chunk_002" 4 7; Chunk "chunk_003" 7 10].
Proof. vm_compute. reflexivity. Qed.

Example make_chunks_5_10_0 :
  make_chunks 5 10 0 = Some [Chunk "chunk_001" 1 5].
Proof. vm_compute. reflexivity. Qed.

Example make_chunks_0 : make_chunks 0 4 1 = Some [].
Proof. reflexivity. Qed.

Example make_chunks_no_stride : make_chunks 10 4 4 = None.
Proof. vm_compute. reflexivity. Qed.

End RunUtilsExamples.

(** ** The validator and normaliser *)

Module PostprocessTheory.
Import Py PyTheory Postprocess PostprocessSpec.

(** Membership in a literal list. *)
Ltac in_list :=
  unfold checked_keys, required_keys;
  repeat first [apply list_elem_of_here | apply list_elem_of_further].

(** *** The validation pass *)

Lemma validate_question_Ok qt cpq q r :
  validate_question qt cpq q = Ok r <->
  passes qt cpq q /\ r = dict_setdefault "explanation" (VStr "") q.
Proof.
  unfold validate_question, passes. split.
  - intros H. apply bind_Ok in H as ([] & Hreq & H).
    destruct (eq_str _ qt) eqn:Ht; simpl in H; [|discriminate].
    apply bind_Ok in H as (ids & Hids & H).
    apply bind_Ok in H as ([] & Hcor & [= <-]).
    repeat split; eauto.
  - intros ((Hreq & Ht & ids & Hids & Hcor) & ->).
    rewrite Hreq. simpl. rewrite Ht. simpl. rewrite Hids. simpl.
    rewrite Hcor. reflexivity.
Qed.

Lemma check_required_agree keys q q' :
  (forall k, k ∈ keys -> dict_get k q' = dict_get k q) ->
  check_required keys q' = check_required keys q.
Proof.
  induction keys as [|k keys IH]; intros H; simpl; [reflexivity|].
  unfold dict_has. rewrite (H k) by apply list_elem_of_here.
  destruct (dict_get k q); [|reflexivity].
  apply IH. intros k' Hk'. apply H. apply list_elem_of_further. exact Hk'.
Qed.

Lemma passes_agree qt cpq q q' : agree q q' -> passes qt cpq q -> passes qt cpq q'.
Proof.
  intros Hag (Hreq & Ht & ids & Hids & Hcor).
  assert (Hty : dict_get "question_type" q' = dict_get "question_type" q)
    by (apply Hag; in_list).
  assert (Hch : dict_get "choices" q' = dict_get "choices" q)
    by (apply Hag; in_list).
  assert (Hco : dict_get "correct_choice_ids" q' = dict_get "correct_choice_ids" q)
    by (apply Hag; in_list).
  split; [|split].
  - rewrite <- Hreq. apply check_required_agree. intros k Hk. apply Hag.
    unfold checked_keys. apply list_elem_of_further. exact Hk.
  - unfold get_default. rewrite Hty. exact Ht.
  - exists ids. unfold check_choices, check_correct. rewrite Hch, Hco.
    split; [exact Hids | exact Hcor].
Qed.

Lemma agree_set k v q : k ∉ checked_keys -> agree q (dict_set k v q).
Proof.
  intros Hk k' Hk'. apply dict_get_set_ne. intros ->. contradiction.
Qed.

Lemma agree_setdefault k v q : k ∉ checked_keys -> agree q (dict_setdefault k v q).
Proof.
  intros Hk k' Hk'. apply dict_setdefault_get_ne. intros ->. contradiction.
Qed.

Lemma not_checked k :
  k = "id" \/ k = "explanation" -> k ∉ checked_keys.
Proof.
  unfold checked_keys, required_keys. intros [->| ->] H;
    repeat (apply elem_of_cons in H as [H|H]; [discriminate|]);
    inversion H.
Qed.

Lemma Forall_bool_true {A} (f : A -> bool) l :
  existsb (fun x => negb (f x)) l = false <-> Forall (fun x => f x = true) l.
Proof.
  induction l as [|x l IH]; simpl.
  - split; [constructor | reflexivity].
  - rewrite orb_false_iff, IH, Forall_cons, negb_false_iff. reflexivity.
Qed.

Lemma check_choices_Ok cpq q ids :
  check_choices cpq q = Ok ids <->
  exists cs,
    dict_get "choices" q = Some (VList cs)
    /\ Z.of_nat (length cs) = cpq
    /\ Forall (fun c => is_dict c = true) cs
    /\ ids = field "id" <$> cs
    /\ Forall (fun cid => truthy cid = true) ids
    /\ Forall (fun cid => hashable cid = true) ids
    /\ NoDup (key_of <$> ids).
Proof.
  unfold check_choices. split.
  - destruct (dict_get "choices" q) as [[| | | |cs|]|]; try discriminate.
    destruct (Z.eqb_spec (Z.of_nat (length cs)) cpq) as [Hlen|]; simpl;
      [|discriminate].
    intros H. apply bind_Ok in H as (ids' & Hids & H).
    pose proof (mapM_method_get _ _ _ _ Hids) as Hd.
    rewrite (mapM_method_get_Ok _ _ Hd) in Hids. injection Hids as <-.
    destruct (existsb _ _) eqn:Hex; [discriminate|].
    apply bind_Ok in H as (s & Hs & H).
    destruct (Nat.eqb_spec (length s) (length (field "id" <$> cs))) as [Hl|];
      simpl in H; [|discriminate].
    injection H as <-. apply py_set_distinct in Hs as (Hh & Hnd).
    exists cs. repeat split; try assumption.
    + apply Forall_bool_true. exact Hex.
    + apply Hnd. exact Hl.
  - intros (cs & -> & Hlen & Hd & -> & Ht & Hh & Hnd).
    rewrite Hlen, Z.eqb_refl. simpl.
    rewrite (mapM_method_get_Ok _ _ Hd). simpl.
    apply Forall_bool_true in Ht. rewrite Ht.
    destruct (py_set_Ok _ Hh Hnd) as (s & -> & Hl). simpl.
    rewrite Hl, Nat.eqb_refl. reflexivity.
Qed.

Lemma check_correct_refer_mem ids ids' correct :
  (forall v, py_mem v ids' = py_mem v ids) ->
  check_correct_refer ids' correct = check_correct_refer ids correct.
Proof.
  intros H. induction correct as [|c correct IH]; simpl; [reflexivity|].
  rewrite H, IH. reflexivity.
Qed.

Lemma passes_reshuffled qt cpq q q' :
  reshuffled q q' -> passes qt cpq q -> passes qt cpq q'.
Proof.
  intros (cs & cs' & Hcs & Hperm & ->) (Hreq & Ht & ids & Hids & Hcor).
  apply check_choices_Ok in Hids
    as (cs0 & Hcs0 & Hlen & Hd & -> & Htr & Hh & Hnd).
  rewrite Hcs in Hcs0. injection Hcs0 as <-.
  split; [|split].
  - clear -Hreq Hcs. unfold required_keys in *. simpl in *.
    unfold dict_has in *.
    destruct (dict_get "stem" q) eqn:E1; [|discriminate].
    rewrite dict_get_set_ne, E1 by discriminate.
    rewrite dict_get_set_eq.
    destruct (dict_get "correct_choice_ids" q) eqn:E2;
      [|rewrite Hcs in Hreq; discriminate].
    rewrite dict_get_set_ne, E2 by discriminate.
    rewrite Hcs in Hreq.
    destruct (dict_get "chunk_id" q) eqn:E3; [|discriminate].
    rewrite dict_get_set_ne, E3 by discriminate. reflexivity.
  - unfold get_default. rewrite dict_get_set_ne by discriminate. exact Ht.
  - exists (field "id" <$> cs'). split.
    + apply check_choices_Ok. exists cs'.
      rewrite dict_get_set_eq. repeat split.
      * rewrite Hperm. exact Hlen.
      * rewrite Hperm. exact Hd.
      * rewrite Hperm. exact Htr.
      * rewrite Hperm. exact Hh.
      * rewrite Hperm. exact Hnd.
    + unfold check_correct in *. rewrite dict_get_set_ne by discriminate.
      destruct (dict_get "correct_choice_ids" q) as [[| | | |correct|]|];
        try exact Hcor.
      destruct (length correct <? 1)%nat; [exact Hcor|].
      destruct (_ && _); [exact Hcor|].
      rewrite <- Hcor. apply check_correct_refer_mem.
      intros v. apply existsb_Permutation. rewrite Hperm. reflexivity.
Qed.

Lemma validate_Ok qt cpq qs v :
  validate qt cpq qs = Ok v <->
  Forall (passes qt cpq) qs /\ v = dict_setdefault "explanation" (VStr "") <$> qs.
Proof.
  unfold validate. rewrite mapM_Ok. split.
  - induction 1 as [|q r qs v Hq _ [IH1 IH2]]; [split; [constructor | reflexivity]|].
    apply validate_question_Ok in Hq as [Hp ->]. subst v.
    split; [constructor; assumption | reflexivity].
  - intros [Hp ->]. induction Hp as [|q qs Hq _ IH]; simpl; constructor.
    + apply validate_question_Ok. split; [exact Hq | reflexivity].
    + exact IH.
Qed.

Lemma passes_choices qt cpq q :
  passes qt cpq q -> exists cs, dict_get "choices" q = Some (VList cs).
Proof.
  intros (_ & _ & ids & Hids & _).
  apply check_choices_Ok in Hids as (cs & Hcs & _). eauto.
Qed.

Lemma passes_setdefault qt cpq q :
  passes qt cpq q -> passes qt cpq (dict_setdefault "explanation" (VStr "") q).
Proof. apply passes_agree, agree_setdefault, not_checked. auto. Qed.

Lemma passes_set_id qt cpq q v :
  passes qt cpq q -> passes qt cpq (dict_set "id" v q).
Proof. apply passes_agree, agree_set, not_checked. auto. Qed.

(** *** The shuffles *)

Lemma swap_fmap {A B} (f : A -> B) x i j :
  swap (f <$> x) i j = f <$> swap x i j.
Proof.
  unfold swap. rewrite !list_lookup_fmap.
  destruct (x !! i) as [a|]; simpl; [|reflexivity].
  destruct (x !! j) as [b|]; simpl; [|reflexivity].
  rewrite !list_fmap_insert. reflexivity.
Qed.

Lemma shuffle_from_fmap {A B} (f : A -> B) i x g :
  shuffle_from i (f <$> x) g = ((f <$> (shuffle_from i x g).1), (shuffle_from i x g).2).
Proof.
  revert x g. induction i as [|i IH]; intros x g; simpl; [reflexivity|].
  destruct (randbelow (S (S i)) g) as [j g'].
  rewrite swap_fmap. apply IH.
Qed.

Lemma shuffle_fmap {A B} (f : A -> B) x g :
  shuffle (f <$> x) g = ((f <$> (shuffle x g).1), (shuffle x g).2).
Proof. unfold shuffle. rewrite length_fmap. apply shuffle_from_fmap. Qed.

Lemma shuffle_choices_inv q g q' g' :
  shuffle_choices q g = Ok (q', g') -> reshuffled q q'.
Proof.
  unfold shuffle_choices.
  destruct (dict_get "choices" q) as [[| | | |cs|]|] eqn:Hcs; try discriminate.
  pose proof (shuffle_Permutation cs g) as Hperm.
  destruct (shuffle cs g) as [cs' g1]. intros [= <- <-].
  exists cs, cs'. auto.
Qed.

Lemma shuffle_choices_Ok q g cs :
  dict_get "choices" q = Some (VList cs) ->
  exists q' g', shuffle_choices q g = Ok (q', g').
Proof.
  intros Hcs. unfold shuffle_choices. rewrite Hcs.
  destruct (shuffle cs g) as [cs' g1]. eauto.
Qed.

Lemma shuffle_options_inv qs : forall g out g',
  shuffle_options qs g = Ok (out, g') -> Forall2 reshuffled qs out.
Proof.
  induction qs as [|q qs IH]; intros g out g'; simpl.
  - intros [= <- <-]. constructor.
  - intros H. apply bind_Ok in H as ([q' g1] & Hq & H).
    apply bind_Ok in H as ([rest g2] & Hrest & [= <- <-]).
    constructor; [eapply shuffle_choices_inv; exact Hq | eapply IH; exact Hrest].
Qed.

Lemma shuffle_options_Ok qs : forall g,
  Forall (fun q => exists cs, dict_get "choices" q = Some (VList cs)) qs ->
  exists out g', shuffle_options qs g = Ok (out, g').
Proof.
  induction qs as [|q qs IH]; intros g Hqs; simpl; [eauto|].
  inversion Hqs as [|? ? (cs & Hcs) Hqs']; subst.
  destruct (shuffle_choices_Ok q g cs Hcs) as (q' & g1 & ->). simpl.
  destruct (IH g1 Hqs') as (out & g2 & ->). simpl. eauto.
Qed.

Lemma randomize_inv (qs0 : list dict) (f : dict -> dict) rq ro g pre g' :
  randomize (f <$> qs0) rq ro g = Ok (pre, g') ->
  exists qs1,
    qs1 ≡ₚ qs0
    /\ (rq = false -> qs1 = qs0)
    /\ (rq = true -> qs1 = (shuffle qs0 g).1)
    /\ Forall2 settled (f <$> qs1) pre
    /\ (ro = false -> pre = f <$> qs1).
Proof.
  unfold randomize. intros H.
  set (qs1 := if rq then (shuffle qs0 g).1 else qs0).
  set (g1 := if rq then (shuffle qs0 g).2 else g).
  assert (Hord : (if rq then shuffle (f <$> qs0) g else (f <$> qs0, g))
                 = (f <$> qs1, g1)).
  { subst qs1 g1. destruct rq; [apply shuffle_fmap | reflexivity]. }
  rewrite Hord in H. exists qs1. split; [|split; [|split]].
  - subst qs1. destruct rq; [apply shuffle_Permutation | reflexivity].
  - intros ->. reflexivity.
  - intros ->. reflexivity.
  - destruct ro.
    + split; [|discriminate].
      apply shuffle_options_inv in H.
      eapply Forall2_impl; [exact H|]. intros q q' Hq. right. exact Hq.
    + injection H as <- <-. split; [|reflexivity].
      apply Forall_Forall2_diag, Forall_forall. intros q _. left. reflexivity.
Qed.

Lemma randomize_Ok qs rq ro g :
  Forall (fun q => exists cs, dict_get "choices" q = Some (VList cs)) qs ->
  exists pre g', randomize qs rq ro g = Ok (pre, g').
Proof.
  intros Hqs. unfold randomize.
  destruct (if rq then shuffle qs g else (qs, g)) as [ordered g1] eqn:Hord.
  destruct ro; [|eauto].
  apply shuffle_options_Ok.
  assert (Hp : ordered ≡ₚ qs).
  { destruct rq; [|injection Hord as <- <-; reflexivity].
    pose proof (shuffle_Permutation qs g) as Hp. rewrite Hord in Hp. exact Hp. }
  rewrite Hp. exact Hqs.
Qed.

(** *** Objects *)

Lemma deref_insert_eq s r d : deref (<[r := d]> s) r = d.
Proof. unfold deref. rewrite lookup_insert_eq. reflexivity. Qed.

Lemma deref_insert_ne s r r' d : r <> r' -> deref (<[r := d]> s) r' = deref s r'.
Proof. intros Hne. unfold deref. rewrite lookup_insert_ne by exact Hne. reflexivity. Qed.

Lemma contents_insert_notin s refs r d :
  r ∉ refs -> contents (<[r := d]> s) refs = contents s refs.
Proof.
  intros Hr. unfold contents. apply list_fmap_ext. intros i r' Hr'.
  apply deref_insert_ne. intros ->. apply Hr.
  eapply list_elem_of_lookup_2. exact Hr'.
Qed.

Lemma contents_fresh qs : contents (map_seq 0 qs) (seq 0 (length qs)) = qs.
Proof.
  apply list_eq. intros i. unfold contents. rewrite list_lookup_fmap.
  destruct (decide (i < length qs)) as [Hi|Hi].
  - rewrite lookup_seq_lt by exact Hi. simpl. unfold deref.
    rewrite lookup_map_seq_0.
    destruct (lookup_lt_is_Some_2 qs i Hi) as (q & Hq).
    transitivity (Some q); [|symmetry; exact Hq].
    f_equal. exact (f_equal (default []) Hq).
  - rewrite lookup_seq_ge by lia. rewrite lookup_ge_None_2 by lia. reflexivity.
Qed.

(** *** The loops on distinct objects *)

Lemma validate_objects_by_value qt cpq refs : forall s,
  NoDup refs ->
  match validate qt cpq (contents s refs) with
  | Ok vs =>
      exists s', validate_objects qt cpq refs s = Ok s'
                 /\ contents s' refs = vs
                 /\ forall r, r ∉ refs -> deref s' r = deref s r
  | Raise e => validate_objects qt cpq refs s = Raise e
  end.
Proof.
  unfold validate.
  induction refs as [|r refs IH]; intros s Hnd.
  - exists s. auto.
  - apply NoDup_cons in Hnd as [Hr Hnd].
    change (contents s (r :: refs)) with (deref s r :: contents s refs).
    change (mapM (validate_question qt cpq) (deref s r :: contents s refs))
      with (q ← validate_question qt cpq (deref s r);
            k ← mapM (validate_question qt cpq) (contents s refs);
            Ok (q :: k)).
    change (validate_objects qt cpq (r :: refs) s)
      with (q ← validate_question qt cpq (deref s r);
            validate_objects qt cpq refs (<[r := q]> s)).
    destruct (validate_question qt cpq (deref s r)) as [q|e];
      cbn [mbind result_bind bind]; [|reflexivity].
    specialize (IH (<[r := q]> s) Hnd).
    rewrite contents_insert_notin in IH by exact Hr.
    destruct (mapM (validate_question qt cpq) (contents s refs)) as [vs|e];
      cbn [mbind result_bind bind]; [|exact IH].
    destruct IH as (s' & Hrun & Hvs & Hframe).
    exists s'. split; [exact Hrun|]. split.
    + change (contents s' (r :: refs)) with (deref s' r :: contents s' refs).
      rewrite Hvs, (Hframe r Hr), deref_insert_eq. reflexivity.
    + intros r' Hr'. apply not_elem_of_cons in Hr' as [Hne Hr'].
      rewrite (Hframe r' Hr'). apply deref_insert_ne. congruence.
Qed.

Lemma shuffle_objects_by_value refs : forall s g,
  NoDup refs ->
  match shuffle_options (contents s refs) g with
  | Ok (out, g') =>
      exists s', shuffle_objects refs s g = Ok (s', g')
                 /\ contents s' refs = out
                 /\ forall r, r ∉ refs -> deref s' r = deref s r
  | Raise e => shuffle_objects refs s g = Raise e
  end.
Proof.
  induction refs as [|r refs IH]; intros s g Hnd.
  - exists s. auto.
  - apply NoDup_cons in Hnd as [Hr Hnd].
    change (contents s (r :: refs)) with (deref s r :: contents s refs).
    change (shuffle_options (deref s r :: contents s refs) g)
      with ('(q', g1) ← shuffle_choices (deref s r) g;
            '(rest, g2) ← shuffle_options (contents s refs) g1;
            Ok (q' :: rest, g2)).
    change (shuffle_objects (r :: refs) s g)
      with ('(q, g1) ← shuffle_choices (deref s r) g;
            shuffle_objects refs (<[r := q]> s) g1).
    destruct (shuffle_choices (deref s r) g) as [[q g1]|e];
      cbn [mbind result_bind bind]; [|reflexivity].
    specialize (IH (<[r := q]> s) g1 Hnd).
    rewrite contents_insert_notin in IH by exact Hr.
    destruct (shuffle_options (contents s refs) g1) as [[out g2]|e];
      cbn [mbind result_bind bind]; [|exact IH].
    destruct IH as (s' & Hrun & Hvs & Hframe).
    exists s'. split; [exact Hrun|]. split.
    + change (contents s' (r :: refs)) with (deref s' r :: contents s' refs).
      rewrite Hvs, (Hframe r Hr), deref_insert_eq. reflexivity.
    + intros r' Hr'. apply not_elem_of_cons in Hr' as [Hne Hr'].
      rewrite (Hframe r' Hr'). apply deref_insert_ne. congruence.
Qed.

(** An object that is not listed keeps its content. *)
Lemma assign_ids_frame refs : forall i s r,
  r ∉ refs -> deref (assign_ids i refs s) r = deref s r.
Proof.
  induction refs as [|r0 refs IH]; intros i s r Hr; [reflexivity|].
  apply not_elem_of_cons in Hr as [Hne Hr]. simpl.
  rewrite (IH _ _ _ Hr). apply deref_insert_ne. congruence.
Qed.

Lemma assign_ids_by_value refs : forall i s,
  NoDup refs ->
  contents (assign_ids i refs s) refs
  = imap (fun k q => dict_set "id" (VStr (question_id (i + k))) q)
      (contents s refs).
Proof.
  induction refs as [|r refs IH]; intros i s Hnd; [reflexivity|].
  apply NoDup_cons in Hnd as [Hr Hnd].
  change (contents s (r :: refs)) with (deref s r :: contents s refs).
  rewrite imap_cons.
  change (assign_ids i (r :: refs) s)
    with (assign_ids (S i) refs
            (<[r := dict_set "id" (VStr (question_id i)) (deref s r)]> s)).
  set (s1 := <[r := dict_set "id" (VStr (question_id i)) (deref s r)]> s).
  change (contents (assign_ids (S i) refs s1) (r :: refs))
    with (deref (assign_ids (S i) refs s1) r
          :: contents (assign_ids (S i) refs s1) refs).
  rewrite assign_ids_frame by exact Hr. subst s1.
  rewrite deref_insert_eq, Nat.add_0_r. f_equal.
  rewrite (IH (S i) _ Hnd), contents_insert_notin by exact Hr.
  apply imap_ext. intros k q _. simpl. do 3 f_equal. lia.
Qed.

(** The object of a list without repetitions at a position. *)
Lemma shuffle_refs (refs : list nat) g s :
  contents s (shuffle refs g).1 = (shuffle (contents s refs) g).1
  /\ (shuffle (contents s refs) g).2 = (shuffle refs g).2.
Proof. unfold contents. rewrite shuffle_fmap. auto. Qed.

(** On a list of pairwise distinct objects the run is the run by value. *)
Lemma postprocess_objects_by_value refs s qt cpq rq ro g :
  NoDup refs ->
  match postprocess_by_value (contents s refs) qt cpq rq ro g with
  | Ok (out, g') =>
      exists refs' s2,
        prepare refs s qt cpq rq ro g = Ok (refs', s2, g')
        /\ postprocess_objects refs s qt cpq rq ro g
           = Ok (refs', assign_ids 1 refs' s2, g')
        /\ contents (assign_ids 1 refs' s2) refs' = out
        /\ refs' ≡ₚ refs
        /\ (rq = false -> refs' = refs)
  | Raise e => postprocess_objects refs s qt cpq rq ro g = Raise e
  end.
Proof.
  intros Hnd. unfold postprocess_by_value, postprocess_objects, prepare.
  pose proof (validate_objects_by_value qt cpq refs s Hnd) as Hval.
  destruct (validate qt cpq (contents s refs)) as [vs|e]; simpl;
    [|rewrite Hval; reflexivity].
  destruct Hval as (s1 & -> & <- & _). simpl. unfold randomize.
  set (refs1 := if rq then (shuffle refs g).1 else refs).
  set (g1 := if rq then (shuffle refs g).2 else g).
  assert (Hrefs : (if rq then shuffle refs g else (refs, g)) = (refs1, g1))
    by (subst refs1 g1; destruct rq; [destruct (shuffle refs g)|]; reflexivity).
  assert (Hvals : (if rq then shuffle (contents s1 refs) g
                   else (contents s1 refs, g))
                  = (contents s1 refs1, g1)).
  { subst refs1 g1. destruct rq; [|reflexivity].
    unfold contents. apply shuffle_fmap. }
  rewrite Hrefs, Hvals.
  assert (Hperm : refs1 ≡ₚ refs)
    by (subst refs1; destruct rq; [apply shuffle_Permutation | reflexivity]).
  assert (Hnd1 : NoDup refs1) by (rewrite Hperm; exact Hnd).
  assert (Hsame : rq = false -> refs1 = refs) by (intros ->; reflexivity).
  destruct ro.
  - pose proof (shuffle_objects_by_value refs1 s1 g1 Hnd1) as Hsh.
    destruct (shuffle_options (contents s1 refs1) g1) as [[out g2]|e]; simpl;
      [|rewrite Hsh; reflexivity].
    destruct Hsh as (s2 & -> & <- & _). simpl.
    exists refs1, s2. split; [reflexivity|]. split; [reflexivity|].
    split; [apply assign_ids_by_value; exact Hnd1|]. auto.
  - simpl. exists refs1, s1. split; [reflexivity|]. split; [reflexivity|].
    split; [apply assign_ids_by_value; exact Hnd1|]. auto.
Qed.

Lemma postprocess_questions_by_value qs qt cpq rq ro g :
  postprocess_questions qs qt cpq rq ro g
  = postprocess_by_value qs qt cpq rq ro g.
Proof.
  unfold postprocess_questions.
  pose proof (postprocess_objects_by_value (seq 0 (length qs)) (map_seq 0 qs)
                qt cpq rq ro g (NoDup_seq _ _)) as H.
  rewrite contents_fresh in H.
  destruct (postprocess_by_value qs qt cpq rq ro g) as [[out g']|e].
  - destruct H as (refs' & s2 & _ & -> & <- & _). reflexivity.
  - rewrite H. reflexivity.
Qed.

(** What a run on distinct objects returns, read by value. *)
Lemma postprocess_objects_values refs s qt cpq rq ro g refs' s' g' :
  NoDup refs ->
  postprocess_objects refs s qt cpq rq ro g = Ok (refs', s', g') ->
  postprocess_questions (contents s refs) qt cpq rq ro g
  = Ok (contents s' refs', g').
Proof.
  intros Hnd Hrun. rewrite postprocess_questions_by_value.
  pose proof (postprocess_objects_by_value refs s qt cpq rq ro g Hnd) as H.
  destruct (postprocess_by_value (contents s refs) qt cpq rq ro g)
    as [[out g1]|e].
  - destruct H as (refs1 & s2 & _ & Hrun' & <- & _).
    rewrite Hrun in Hrun'. injection Hrun' as -> -> ->. reflexivity.
  - congruence.
Qed.

Lemma postprocess_Ok qs qt cpq rq ro g out g' :
  postprocess_questions qs qt cpq rq ro g = Ok (out, g') <->
  Forall (passes qt cpq) qs
  /\ exists pre,
       randomize (dict_setdefault "explanation" (VStr "") <$> qs) rq ro g
         = Ok (pre, g')
       /\ out = numbered pre.
Proof.
  rewrite postprocess_questions_by_value. unfold postprocess_by_value. split.
  - intros H. apply bind_Ok in H as (v & Hv & H).
    apply validate_Ok in Hv as [Hp ->].
    apply bind_Ok in H as ([pre g1] & Hpre & [= <- <-]). eauto.
  - intros (Hp & pre & Hpre & ->).
    assert (Hv : validate qt cpq qs
                 = Ok (dict_setdefault "explanation" (VStr "") <$> qs))
      by (apply validate_Ok; auto).
    rewrite Hv. simpl. rewrite Hpre. reflexivity.
Qed.

Lemma numbered_lookup pre i q :
  numbered pre !! i = Some q ->
  exists p, pre !! i = Some p /\ q = dict_set "id" (VStr (question_id (S i))) p.
Proof.
  unfold numbered. rewrite list_lookup_imap.
  destruct (pre !! i) as [p|]; simpl; [|discriminate].
  intros [= <-]. eauto.
Qed.

(** *** After a successful run *)

Lemma postprocess_normalized qs qt cpq rq ro g out g' :
  postprocess_questions qs qt cpq rq ro g = Ok (out, g') ->
  forall i q, out !! i = Some q -> normalized qt cpq i q.
Proof.
  intros H i q Hq.
  apply postprocess_Ok in H as (Hp & pre & Hpre & ->).
  apply randomize_inv in Hpre as (qs1 & Hperm & _ & _ & Hset & _).
  apply numbered_lookup in Hq as (p & Hp_i & ->).
  destruct (Forall2_lookup_r _ _ _ _ _ Hset Hp_i) as (x & Hx & Hxp).
  rewrite list_lookup_fmap in Hx.
  destruct (qs1 !! i) as [q0|] eqn:Hq0; [|discriminate].
  simpl in Hx. injection Hx as <-.
  assert (Hq0p : passes qt cpq q0).
  { rewrite Forall_forall in Hp. apply Hp. rewrite <- Hperm.
    eapply list_elem_of_lookup_2. exact Hq0. }
  assert (Hpp : passes qt cpq p /\ dict_has "explanation" p = true).
  { destruct Hxp as [->|Hre].
    - split; [apply passes_setdefault; exact Hq0p | apply dict_setdefault_has].
    - split.
      + eapply passes_reshuffled; [exact Hre|]. apply passes_setdefault. exact Hq0p.
      + destruct Hre as (cs & cs' & _ & _ & ->).
        rewrite dict_has_set_ne by discriminate. apply dict_setdefault_has. }
  destruct Hpp as [Hpass Hexp]. split; [|split].
  - apply passes_set_id. exact Hpass.
  - rewrite dict_has_set_ne by discriminate. exact Hexp.
  - apply dict_get_set_eq.
Qed.

Lemma fmap_fixed {A} (f : A -> A) l :
  Forall (fun x => f x = x) l -> f <$> l = l.
Proof.
  induction 1 as [|x l Hx _ IH]; [reflexivity|].
  rewrite fmap_cons, Hx, IH. reflexivity.
Qed.

Lemma normalized_fixed out qt cpq g :
  (forall i q, out !! i = Some q -> normalized qt cpq i q) ->
  postprocess_questions out qt cpq false false g = Ok (out, g).
Proof.
  intros Hn. apply postprocess_Ok. split.
  - apply Forall_lookup. intros i q Hq. apply (Hn i q Hq).
  - exists out. split.
    + unfold randomize. rewrite fmap_fixed; [reflexivity|].
      apply Forall_lookup. intros i q Hq.
      apply dict_setdefault_id. apply (Hn i q Hq).
    + apply list_eq. intros i. unfold numbered. rewrite list_lookup_imap.
      destruct (out !! i) as [q|] eqn:Hq; simpl; [|reflexivity].
      rewrite dict_set_id; [reflexivity|]. apply (Hn i q Hq).
Qed.

(** *** Only validation errors on well-shaped payloads *)

Lemma check_required_ValueError keys q e :
  check_required keys q = Raise e -> is_ValueError e.
Proof.
  induction keys as [|k keys IH]; simpl; [discriminate|].
  destruct (dict_has k q); [exact IH|]. intros [= <-]. exact I.
Qed.

Lemma check_required_has keys q k :
  check_required keys q = Ok tt -> k ∈ keys -> dict_has k q = true.
Proof.
  induction keys as [|k' keys IH]; simpl; intros H Hk; [inversion Hk|].
  destruct (dict_has k' q) eqn:E; [|discriminate].
  apply elem_of_cons in Hk as [->|Hk]; [exact E | auto].
Qed.

Lemma check_correct_refer_ValueError ids correct e :
  Forall (fun cid => hashable cid = true) correct ->
  check_correct_refer ids correct = Raise e -> is_ValueError e.
Proof.
  induction 1 as [|c correct Hc _ IH]; simpl; [discriminate|].
  rewrite Hc. simpl. destruct (py_mem c ids); simpl; [exact IH|].
  intros [= <-]. exact I.
Qed.

Lemma validate_question_ValueError qt cpq q e :
  well_shaped q -> validate_question qt cpq q = Raise e -> is_ValueError e.
Proof.
  intros [Hcs Hco]. unfold validate_question.
  destruct (check_required required_keys q) as [[]|e0] eqn:Hreq; simpl;
    [|intros [= <-]; eapply check_required_ValueError; exact Hreq].
  destruct (eq_str _ qt); simpl; [|intros [= <-]; exact I].
  pose proof (check_required_has _ _ "choices" Hreq ltac:(in_list)) as Hhc.
  pose proof (check_required_has _ _ "correct_choice_ids" Hreq ltac:(in_list))
    as Hhco.
  unfold dict_has in Hhc, Hhco.
  destruct (check_choices cpq q) as [ids|e1] eqn:Hids; simpl.
  - unfold check_correct.
    destruct (dict_get "correct_choice_ids" q) as [[| | | |correct|]|] eqn:E;
      try discriminate; simpl; try (intros [= <-]; exact I).
    destruct (length correct <? 1)%nat; simpl; [intros [= <-]; exact I|].
    destruct (_ && _); simpl; [intros [= <-]; exact I|].
    destruct (check_correct_refer ids correct) as [[]|e2] eqn:Hr; simpl;
      [discriminate|].
    intros [= <-]. eapply check_correct_refer_ValueError; [|exact Hr].
    apply Hco. reflexivity.
  - intros [= <-]. revert Hids. unfold check_choices.
    destruct (dict_get "choices" q) as [[| | | |cs|]|] eqn:E;
      try discriminate; try (intros [= <-]; exact I).
    destruct (negb _); [intros [= <-]; exact I|].
    specialize (Hcs cs eq_refl).
    rewrite mapM_method_get_Ok
      by (eapply Forall_impl; [exact Hcs | simpl; tauto]).
    simpl. destruct (existsb _ _); [intros [= <-]; exact I|].
    destruct (py_set (field "id" <$> cs)) as [s|e3] eqn:Hs; simpl.
    + destruct (negb _); [intros [= <-]; exact I | discriminate].
    + exfalso. unfold py_set in Hs.
      destruct (py_set_from_spec (field "id" <$> cs) [] (Forall_nil_2 _))
        as (s & Hs' & _).
      * apply Forall_fmap. eapply Forall_impl; [exact Hcs | simpl; tauto].
      * congruence.
Qed.

Lemma mapM_Raise_inv {A B} (f : A -> result B) l e :
  mapM f l = Raise e -> exists x, x ∈ l /\ f x = Raise e.
Proof.
  induction l as [|x l IH]; simpl; [discriminate|].
  destruct (f x) as [y|e0] eqn:Hx; simpl.
  - destruct (mapM f l) as [k|e1]; simpl; [discriminate|].
    intros [= <-]. destruct (IH eq_refl) as (x' & Hx' & Hf).
    exists x'. split; [apply list_elem_of_further; exact Hx' | exact Hf].
  - intros [= <-]. exists x. split; [apply list_elem_of_here | exact Hx].
Qed.

Lemma bad_cardinality_raises qt cpq q correct :
  dict_get "question_type" q = Some (VStr "MCQ") ->
  dict_get "correct_choice_ids" q = Some (VList correct) ->
  length correct <> 1 ->
  exists e, validate_question qt cpq q = Raise e.
Proof.
  intros Hty Hco Hlen.
  destruct (validate_question qt cpq q) as [r|e] eqn:Hv; [|eauto].
  exfalso. apply validate_question_Ok in Hv as [(_ & Ht & ids & _ & Hcor) _].
  unfold get_default in Ht. rewrite Hty in Ht.
  change (String.eqb "MCQ" qt = true) in Ht.
  apply String.eqb_eq in Ht. subst qt.
  unfold check_correct in Hcor. rewrite Hco in Hcor.
  destruct (length correct <? 1)%nat; [discriminate|].
  rewrite String.eqb_refl in Hcor.
  destruct (Nat.eqb_spec (length correct) 1); [contradiction|].
  discriminate.
Qed.

(** A list that passes validation always comes back. *)
Lemma postprocess_returns qs qt cpq rq ro g :
  Forall (passes qt cpq) qs ->
  exists pre g',
    randomize (dict_setdefault "explanation" (VStr "") <$> qs) rq ro g
      = Ok (pre, g')
    /\ postprocess_questions qs qt cpq rq ro g = Ok (numbered pre, g').
Proof.
  intros Hp.
  destruct (randomize_Ok (dict_setdefault "explanation" (VStr "") <$> qs) rq ro g)
    as (pre & g' & Hpre).
  { apply Forall_fmap. eapply Forall_impl; [exact Hp|]. simpl. intros q Hq.
    eapply passes_choices, passes_setdefault, Hq. }
  exists pre, g'. split; [exact Hpre|]. apply postprocess_Ok. eauto.
Qed.

(** *** Decimal ids *)

Lemma pretty_N_char_value d :
  (d < 10)%N -> (Ascii.N_of_ascii (pretty_N_char d) - 48 = d)%N.
Proof.
  intros Hd.
  assert (Hc : d = 0%N \/ d = 1%N \/ d = 2%N \/ d = 3%N \/ d = 4%N \/ d = 5%N
               \/ d = 6%N \/ d = 7%N \/ d = 8%N \/ d = 9%N) by lia.
  repeat (destruct Hc as [->|Hc]; [reflexivity|]). subst d. reflexivity.
Qed.

Lemma decimal_value_go x : forall s,
  decimal_value 0 (pretty_N_go x s) = decimal_value x s.
Proof.
  induction (N.lt_wf_0 x) as [x _ IH]. intros s.
  destruct (decide (0 < x)%N) as [Hx|Hx].
  - rewrite pretty_N_go_step by exact Hx.
    rewrite IH by (apply N.div_lt; lia). simpl.
    rewrite pretty_N_char_value by (apply N.mod_lt; lia).
    f_equal. pose proof (N.div_mod x 10 ltac:(lia)). lia.
  - assert (x = 0%N) as -> by lia. rewrite pretty_N_go_0. reflexivity.
Qed.

Lemma decimal_value_pretty_N (n : N) : decimal_value 0 (pretty n) = n.
Proof.
  unfold pretty, pretty_N. destruct (decide (n = 0%N)) as [->|Hn];
    [reflexivity|]. apply decimal_value_go.
Qed.

Lemma decimal_value_pretty_Z (z : Z) :
  (0 <= z)%Z -> decimal_value 0 (pretty z) = Z.to_N z.
Proof.
  intros Hz. destruct z as [|p|p]; [reflexivity| |lia].
  change (pretty (Z.pos p)) with (pretty (N.pos p)).
  apply decimal_value_pretty_N.
Qed.

Lemma zeros_cons k :
  String.concat "" (replicate (S k) "0")
  = String "0" (String.concat "" (replicate k "0")).
Proof. destruct k; reflexivity. Qed.

Lemma decimal_value_zero_pad width s :
  decimal_value 0 (zero_pad width s) = decimal_value 0 s.
Proof.
  unfold zero_pad. induction (width - String.length s) as [|k IH];
    [reflexivity|].
  rewrite zeros_cons. exact IH.
Qed.

Lemma question_id_inj i j : question_id i = question_id j -> i = j.
Proof.
  unfold question_id. intros H. apply (inj (String.append "q_")) in H.
  unfold format_0d in H.
  destruct (Z.ltb_spec (Z.of_nat i) 0); [lia|].
  destruct (Z.ltb_spec (Z.of_nat j) 0); [lia|].
  apply (f_equal (decimal_value 0)) in H.
  rewrite !decimal_value_zero_pad, !decimal_value_pretty_Z in H by lia.
  lia.
Qed.

Lemma pretty_N_char_digit d : (d < 10)%N -> is_digit (pretty_N_char d) = true.
Proof.
  intros Hd.
  assert (Hc : d = 0%N \/ d = 1%N \/ d = 2%N \/ d = 3%N \/ d = 4%N \/ d = 5%N
               \/ d = 6%N \/ d = 7%N \/ d = 8%N \/ d = 9%N) by lia.
  repeat (destruct Hc as [->|Hc]; [reflexivity|]). subst d. reflexivity.
Qed.

Lemma pretty_N_char_nonzero d :
  (0 < d < 10)%N -> pretty_N_char d <> "0"%char.
Proof.
  intros Hd.
  assert (Hc : d = 1%N \/ d = 2%N \/ d = 3%N \/ d = 4%N \/ d = 5%N
               \/ d = 6%N \/ d = 7%N \/ d = 8%N \/ d = 9%N) by lia.
  repeat (destruct Hc as [->|Hc]; [discriminate|]). subst d. discriminate.
Qed.

Lemma pretty_N_go_digits x : forall s,
  forallb is_digit (String.list_ascii_of_string s) = true ->
  forallb is_digit (String.list_ascii_of_string (pretty_N_go x s)) = true.
Proof.
  induction (N.lt_wf_0 x) as [x _ IH]. intros s Hs.
  destruct (decide (0 < x)%N) as [Hx|Hx].
  - rewrite pretty_N_go_step by exact Hx.
    apply IH; [apply N.div_lt; lia|]. simpl.
    rewrite pretty_N_char_digit by (apply N.mod_lt; lia). exact Hs.
  - assert (x = 0%N) as -> by lia. rewrite pretty_N_go_0. exact Hs.
Qed.

Lemma pretty_N_go_head x : forall s,
  (0 < x)%N -> String.get 0 (pretty_N_go x s) <> Some "0"%char.
Proof.
  induction (N.lt_wf_0 x) as [x _ IH]. intros s Hx.
  rewrite pretty_N_go_step by exact Hx.
  destruct (N.eq_0_gt_0_cases (x / 10)) as [E|Hq].
  - rewrite E, pretty_N_go_0. simpl.
    apply N.div_small_iff in E; [|lia].
    rewrite N.mod_small by exact E.
    intros [= Hc]. revert Hc. apply pretty_N_char_nonzero. lia.
  - apply IH; [apply N.div_lt; lia | exact Hq].
Qed.

Lemma pretty_nat_digits (i : nat) :
  forallb is_digit (String.list_ascii_of_string (pretty (Z.of_nat i))) = true.
Proof.
  destruct (Z.of_nat i) as [|p|p] eqn:E; [reflexivity| |lia].
  change (pretty (Z.pos p)) with (pretty (N.pos p)).
  unfold pretty, pretty_N. destruct (decide (N.pos p = 0%N)); [reflexivity|].
  apply pretty_N_go_digits. reflexivity.
Qed.

Lemma pretty_nat_head (i : nat) :
  1 < String.length (pretty (Z.of_nat i)) ->
  String.get 0 (pretty (Z.of_nat i)) <> Some "0"%char.
Proof.
  destruct (Z.of_nat i) as [|p|p] eqn:E; [simpl; lia| |lia].
  intros _. change (pretty (Z.pos p)) with (pretty (N.pos p)).
  unfold pretty, pretty_N. destruct (decide (N.pos p = 0%N)); [lia|].
  apply pretty_N_go_head. lia.
Qed.

Lemma zeros_append_digits k s :
  forallb is_digit (String.list_ascii_of_string s) = true ->
  forallb is_digit
    (String.list_ascii_of_string (String.concat "" (replicate k "0") +:+ s))
  = true.
Proof.
  intros Hs. induction k as [|k IH]; [exact Hs|].
  rewrite zeros_cons. exact IH.
Qed.

Lemma zeros_append_length k s :
  String.length (String.concat "" (replicate k "0") +:+ s)
  = k + String.length s.
Proof.
  induction k as [|k IH]; [reflexivity|].
  rewrite zeros_cons.
  change (S (String.length (String.concat "" (replicate k "0") +:+ s))
          = S (k + String.length s)).
  rewrite IH. reflexivity.
Qed.

(** The id the code builds is the id of that number. *)
Lemma question_id_sequence i : sequence_id i (question_id i).
Proof.
  unfold question_id, format_0d.
  destruct (Z.ltb_spec (Z.of_nat i) 0); [lia|].
  exists (zero_pad 4 (pretty (Z.of_nat i))). split; [reflexivity|].
  split; [apply zeros_append_digits, pretty_nat_digits|].
  split.
  { rewrite decimal_value_zero_pad, decimal_value_pretty_Z by lia. lia. }
  unfold zero_pad. rewrite zeros_append_length.
  destruct (le_lt_dec (String.length (pretty (Z.of_nat i))) 4) as [Hle|Hgt].
  - left. lia.
  - right. split; [lia|].
    replace (4 - String.length (pretty (Z.of_nat i))) with 0 by lia.
    apply pretty_nat_head. lia.
Qed.

(** *** The id an object is left with *)

(** Every listed object ends with the number of the last position at which
    it is listed. *)
Lemma assign_ids_last refs : forall i s r,
  r ∈ refs ->
  exists k,
    refs !! k = Some r
    /\ (forall k', k < k' -> refs !! k' <> Some r)
    /\ dict_get "id" (deref (assign_ids i refs s) r)
       = Some (VStr (question_id (i + k))).
Proof.
  induction refs as [|r0 refs IH]; intros i s r Hr; [inversion Hr|].
  destruct (decide (r ∈ refs)) as [Hin|Hnin].
  - destruct (IH (S i)
                (<[r0 := dict_set "id" (VStr (question_id i)) (deref s r0)]> s)
                r Hin) as (k & Hk & Hlast & Hid).
    exists (S k). split; [exact Hk|]. split.
    + intros [|k'] Hlt; [lia|]. simpl. apply Hlast. lia.
    + replace (i + S k) with (S i + k) by lia. exact Hid.
  - apply elem_of_cons in Hr as [->|Hr]; [|contradiction].
    exists 0. split; [reflexivity|]. split.
    + intros [|k'] Hlt; [lia|]. simpl. intros Hk'. apply Hnin.
      eapply list_elem_of_lookup_2. exact Hk'.
    + simpl. rewrite assign_ids_frame by exact Hnin.
      rewrite deref_insert_eq, dict_get_set_eq, Nat.add_0_r. reflexivity.
Qed.

(** *** The claims about postprocessing *)

(** C2, with the condition it needs. For every list of pairwise distinct
    question objects that passes validation, whatever the two flags and
    the random draws, [postprocess_questions] returns; the returned list
    is the argument, reordered when [randomize_questions] is on; and the
    object at (0-based) position [i] carries the id numbered [i + 1]: q_,
    then the four decimal digits of [i + 1] (more, without leading zero,
    from 10000 on), that is q_0001, q_0002, ... in final list order, from
    1, without gaps. The objects are those that the steps A) to C) leave,
    with the id assignment applied last. *)
Theorem postprocess_ids_sequential refs s qt cpq rq ro g validated :
  NoDup refs ->
  validate qt cpq (contents s refs) = Ok validated ->
  exists refs' s2 g',
    prepare refs s qt cpq rq ro g = Ok (refs', s2, g')
    /\ postprocess_objects refs s qt cpq rq ro g
       = Ok (refs', assign_ids 1 refs' s2, g')
    /\ refs' ≡ₚ refs
    /\ (rq = false -> refs' = refs)
    /\ forall i r, refs' !! i = Some r ->
         exists id,
           dict_get "id" (deref (assign_ids 1 refs' s2) r) = Some (VStr id)
           /\ sequence_id (S i) id.
Proof.
  intros Hnd Hv. apply validate_Ok in Hv as [Hp ->].
  destruct (postprocess_returns (contents s refs) qt cpq rq ro g Hp)
    as (pre & g' & _ & Hrun).
  rewrite postprocess_questions_by_value in Hrun.
  pose proof (postprocess_objects_by_value refs s qt cpq rq ro g Hnd) as H.
  rewrite Hrun in H. destruct H as (refs' & s2 & Hprep & Hobj & _ & Hperm & Hsame).
  exists refs', s2, g'. split; [exact Hprep|]. split; [exact Hobj|].
  split; [exact Hperm|]. split; [exact Hsame|].
  intros i r Hi.
  assert (Hnd' : NoDup refs') by (rewrite Hperm; exact Hnd).
  destruct (assign_ids_last refs' 1 s2 r (list_elem_of_lookup_2 _ _ _ Hi))
    as (k & Hk & _ & Hid).
  assert (k = i) as -> by (eapply NoDup_lookup; eassumption).
  exists (question_id (S i)). split; [exact Hid|]. apply question_id_sequence.
Qed.

Lemma postprocess_ids_sequential_witness :
  exists refs' s2 g',
    prepare [0; 1; 2] MoreSamples.three_objects "MCQ" 3 true true Samples.tape
    = Ok (refs', s2, g')
    /\ postprocess_objects [0; 1; 2] MoreSamples.three_objects "MCQ" 3 true true
         Samples.tape
       = Ok (refs', assign_ids 1 refs' s2, g')
    /\ refs' ≡ₚ [0; 1; 2]
    /\ (forall i r, refs' !! i = Some r ->
          exists id,
            dict_get "id" (deref (assign_ids 1 refs' s2) r) = Some (VStr id)
            /\ sequence_id (S i) id)
    /\ dict_get "id" <$> contents (assign_ids 1 refs' s2) refs'
       = [Some (VStr "q_0001"); Some (VStr "q_0002"); Some (VStr "q_0003")].
Proof.
  destruct (postprocess_ids_sequential [0; 1; 2] MoreSamples.three_objects
              "MCQ" 3 true true Samples.tape
              [Samples.mcq_a; Samples.mcq_b; Samples.mcq_c])
    as (refs' & s2 & g' & Hprep & Hrun & Hperm & _ & Hids).
  - apply (NoDup_seq 0 3).
  - vm_compute. reflexivity.
  - exists refs', s2, g'. split; [exact Hprep|]. split; [exact Hrun|].
    split; [exact Hperm|]. split; [exact Hids|].
    vm_compute in Hprep. injection Hprep as <- <- <-.
    vm_compute. reflexivity.
Defined.

(** C2 as it is worded fails. A list may hold one dict object at two
    positions; it passes validation, the id loop writes into that object
    twice, and both positions of the returned list read q_0002: the id
    q_0001 is carried by no question. *)
Lemma shared_object_keeps_last_id :
  ~ ids_in_list_order [0; 0] MoreSamples.one_object "MCQ" 3 false false [].
Proof.
  intros Hclaim.
  destruct (Hclaim [Samples.mcq_a; Samples.mcq_a] ltac:(vm_compute; reflexivity))
    as (refs' & s' & g' & Hrun & Hids).
  vm_compute in Hrun. injection Hrun as <- <- <-.
  destruct (Hids 0 0 eq_refl) as (id & Hid & digits & Hd & _ & Hval & _).
  vm_compute in Hid. injection Hid as <-.
  change "q_0002" with ("q_" +:+ "0002") in Hd.
  apply (inj (String.append "q_")) in Hd. subst digits.
  vm_compute in Hval. discriminate.
Qed.

(** C3. Whenever some input question has [question_type] "MCQ" and a
    [correct_choice_ids] list whose length is not 1, [postprocess_questions]
    raises and returns no list, for every configuration, flag and draw;
    the question is neither repaired nor dropped. On payloads of the shape
    the generators produce (choices are dicts, ids are hashable) the
    exception is a [ValueError], the validation error. *)
Theorem postprocess_rejects_bad_mcq qs qt cpq rq ro g q correct :
  q ∈ qs ->
  dict_get "question_type" q = Some (VStr "MCQ") ->
  dict_get "correct_choice_ids" q = Some (VList correct) ->
  length correct <> 1 ->
  exists e,
    postprocess_questions qs qt cpq rq ro g = Raise e
    /\ (Forall well_shaped qs -> is_ValueError e).
Proof.
  intros Hq Hty Hco Hlen.
  destruct (bad_cardinality_raises qt cpq q correct Hty Hco Hlen) as (e0 & He0).
  destruct (mapM_Raise (validate_question qt cpq) qs q e0 Hq He0) as (e & He).
  exists e. rewrite postprocess_questions_by_value.
  unfold postprocess_by_value, validate. rewrite He. simpl.
  split; [reflexivity|]. intros Hws.
  apply mapM_Raise_inv in He as (x & Hx & Hfx).
  eapply validate_question_ValueError; [|exact Hfx].
  rewrite Forall_forall in Hws. apply Hws. exact Hx.
Qed.

Lemma postprocess_rejects_bad_mcq_witness :
  exists e,
    postprocess_questions [Samples.mcq_a; Samples.mcq_two_correct]
      "MCQ" 3 false false [] = Raise e
    /\ (Forall well_shaped [Samples.mcq_a; Samples.mcq_two_correct] ->
        is_ValueError e).
Proof.
  apply (postprocess_rejects_bad_mcq
           [Samples.mcq_a; Samples.mcq_two_correct] "MCQ" 3 false false []
           Samples.mcq_two_correct [VStr "c1"; VStr "c2"]).
  - apply list_elem_of_further, list_elem_of_here.
  - reflexivity.
  - reflexivity.
  - simpl. lia.
Defined.

(** C4. After a successful run the result lines up, question by question,
    with a reordering [qs1] of the input ([qs1] is the input itself when
    [randomize_questions] is off): each returned question has the very
    same [correct_choice_ids] value as its source, hence the same set of
    correct ids, while its [choices] are a permutation of the source's
    (the same list when [randomize_options] is off). This holds for all
    values of the flags and all draws. *)
Theorem postprocess_keeps_correct_ids qs qt cpq rq ro g out g' :
  postprocess_questions qs qt cpq rq ro g = Ok (out, g') ->
  exists qs1,
    qs1 ≡ₚ qs
    /\ (rq = false -> qs1 = qs)
    /\ Forall2 (fun q q' =>
         dict_get "correct_choice_ids" q' = dict_get "correct_choice_ids" q
         /\ exists cs cs',
              dict_get "choices" q = Some (VList cs)
              /\ dict_get "choices" q' = Some (VList cs')
              /\ cs' ≡ₚ cs
              /\ (ro = false -> cs' = cs)) qs1 out.
Proof.
  intros H. apply postprocess_Ok in H as (Hp & pre & Hpre & ->).
  apply randomize_inv in Hpre as (qs1 & Hperm & Hrq & _ & Hset & Hro).
  exists qs1. split; [exact Hperm|]. split; [exact Hrq|].
  apply Forall2_same_length_lookup. split.
  - unfold numbered. rewrite length_imap.
    apply Forall2_length in Hset. rewrite <- Hset, length_fmap. reflexivity.
  - intros i q q' Hq Hq'.
    apply numbered_lookup in Hq' as (p & Hp_i & ->).
    assert (Hx : (dict_setdefault "explanation" (VStr "") <$> qs1) !! i
                 = Some (dict_setdefault "explanation" (VStr "") q))
      by (rewrite list_lookup_fmap, Hq; reflexivity).
    pose proof (Forall2_lookup_lr _ _ _ _ _ _ Hset Hx Hp_i) as Hxp.
    assert (Hqp : passes qt cpq q).
    { rewrite Forall_forall in Hp. apply Hp. rewrite <- Hperm.
      eapply list_elem_of_lookup_2. exact Hq. }
    destruct (passes_choices _ _ _ Hqp) as (cs & Hcs).
    rewrite !dict_get_set_ne by discriminate.
    assert (Hpi : ro = false -> p = dict_setdefault "explanation" (VStr "") q).
    { intros Hf. specialize (Hro Hf). rewrite Hro in Hp_i. congruence. }
    destruct Hxp as [->|(cs0 & cs' & Hcs0 & Hperm' & ->)].
    + rewrite !dict_setdefault_get_ne by discriminate.
      split; [reflexivity|]. exists cs, cs. auto.
    + rewrite dict_setdefault_get_ne in Hcs0 by discriminate.
      rewrite Hcs in Hcs0. injection Hcs0 as <-.
      rewrite dict_get_set_ne, dict_setdefault_get_ne by discriminate.
      split; [reflexivity|]. exists cs, cs'.
      rewrite dict_get_set_eq. repeat split; try assumption.
      intros Hf. specialize (Hpi Hf).
      assert (Hg : dict_get "choices"
                     (dict_set "choices" (VList cs')
                        (dict_setdefault "explanation" (VStr "") q))
                   = Some (VList cs))
        by (rewrite Hpi, dict_setdefault_get_ne by discriminate; exact Hcs).
      rewrite dict_get_set_eq in Hg. congruence.
Qed.

Lemma postprocess_keeps_correct_ids_witness :
  exists qs1,
    qs1 ≡ₚ [Samples.mcq_a; Samples.mcq_b; Samples.mcq_c]
    /\ (true = false -> qs1 = [Samples.mcq_a; Samples.mcq_b; Samples.mcq_c])
    /\ Forall2 (fun q q' =>
         dict_get "correct_choice_ids" q' = dict_get "correct_choice_ids" q
         /\ exists cs cs',
              dict_get "choices" q = Some (VList cs)
              /\ dict_get "choices" q' = Some (VList cs')
              /\ cs' ≡ₚ cs
              /\ (true = false -> cs' = cs)) qs1 Samples.shuffled_out.
Proof.
  apply (postprocess_keeps_correct_ids
           [Samples.mcq_a; Samples.mcq_b; Samples.mcq_c] "MCQ" 3 true true
           Samples.tape Samples.shuffled_out Samples.shuffled_rng).
  vm_compute. reflexivity.
Defined.

(** C9. A list returned by a successful run (with any flags) is a fixed
    point of [postprocess_questions] run with both randomization flags off
    and the same [question_type] and [choices_per_question]: the second
    run raises nothing and returns the very same list (same order, same
    fields, same ids) and leaves the random state alone. *)
Theorem postprocess_idempotent qs qt cpq rq ro g out g' :
  postprocess_questions qs qt cpq rq ro g = Ok (out, g') ->
  forall g2, postprocess_questions out qt cpq false false g2 = Ok (out, g2).
Proof.
  intros H g2. apply normalized_fixed.
  eapply postprocess_normalized. exact H.
Qed.

Lemma postprocess_idempotent_witness :
  postprocess_questions Samples.shuffled_out "MCQ" 3 false false [4; 2]
  = Ok (Samples.shuffled_out, [4; 2]).
Proof.
  apply (postprocess_idempotent
           [Samples.mcq_a; Samples.mcq_b; Samples.mcq_c] "MCQ" 3 true true
           Samples.tape Samples.shuffled_out Samples.shuffled_rng).
  vm_compute. reflexivity.
Defined.

Example question_id_examples :
  question_id 1 = "q_0001" /\ question_id 12 = "q_0012"
  /\ question_id 120 = "q_0120".
Proof. vm_compute. auto. Qed.

(** The validation error of the specification's example. *)
Example two_correct_ids_rejected :
  postprocess_questions [Samples.mcq_a; Samples.mcq_two_correct]
    "MCQ" 3 true true Samples.tape
  = Raise (ValueError "MCQ must have exactly 1 correct choice").
Proof. vm_compute. reflexivity. Qed.

End PostprocessTheory.

(** ** The mock generator feeds the validator *)

Module MockLlmTheory.
Import Py PyTheory Postprocess PostprocessTheory RunUtils MockLlm.

#[local] Instance mock_id_inj : Inj (=) (=) mock_id.
Proof.
  intros j k H. unfold mock_id, str_of_int in H. simpl in H.
  injection H as H. exact (inj (pretty : Z -> string) j k H).
Qed.

#[local] Instance mock_key_inj : Inj (=) (=) (fun k => key_of (mock_id k)).
Proof.
  intros j k H. unfold mock_id, str_of_int in H. simpl in H.
  injection H as H. exact (inj (pretty : Z -> string) j k H).
Qed.

Lemma mock_choice_ids cid n :
  field "id" <$> (mock_choice cid <$> py_range 1 (n + 1)) = mock_id <$> seqZ 1 n.
Proof.
  unfold py_range. replace (n + 1 - 1)%Z with n by lia.
  rewrite <- list_fmap_compose. apply list_fmap_ext. intros i k _. reflexivity.
Qed.

Lemma mock_id_mem k n :
  (1 <= k <= n)%Z -> py_mem (mock_id k) (mock_id <$> seqZ 1 n) = true.
Proof.
  intros Hk. apply py_mem_key.
  - reflexivity.
  - apply Forall_fmap, Forall_forall. intros j _. reflexivity.
  - rewrite <- list_fmap_compose.
    apply (list_elem_of_fmap_2 (fun j => key_of (mock_id j))).
    apply elem_of_seqZ. lia.
Qed.

Lemma mock_correct_refer qtype n :
  (2 <= n)%Z ->
  check_correct_refer (mock_id <$> seqZ 1 n) (mock_correct qtype n) = Ok tt.
Proof.
  intros Hn. unfold mock_correct.
  destruct (String.eqb qtype "MCQ").
  - destruct (Z.leb_spec 2 n); [|lia].
    simpl. change (VStr "c2") with (mock_id 2).
    rewrite mock_id_mem by lia. reflexivity.
  - destruct (Z.leb_spec 4 n).
    + simpl. change (VStr "c2") with (mock_id 2).
      change (VStr "c4") with (mock_id 4).
      rewrite !mock_id_mem by lia. reflexivity.
    + destruct (Z.leb_spec 2 n); [|lia].
      simpl. change (VStr "c1") with (mock_id 1).
      change (VStr "c2") with (mock_id 2).
      rewrite !mock_id_mem by lia. reflexivity.
Qed.

Lemma mock_correct_length qtype n :
  (2 <= n)%Z ->
  (1 <= length (mock_correct qtype n))%nat
  /\ (qtype = "MCQ" -> length (mock_correct qtype n) = 1%nat).
Proof.
  intros Hn. unfold mock_correct.
  destruct (String.eqb_spec qtype "MCQ") as [->|Hne].
  - destruct (2 <=? n)%Z; simpl; split; auto.
  - destruct (4 <=? n)%Z; [|destruct (2 <=? n)%Z]; simpl;
      (split; [lia | intros ->; contradiction]).
Qed.

Lemma mock_question_passes c cfg i :
  (2 <= choices_per_question cfg)%Z ->
  passes (question_type cfg) (choices_per_question cfg) (mock_question c cfg i).
Proof.
  intros Hn. split; [reflexivity|]. split.
  - unfold get_default, eq_str. simpl. apply String.eqb_refl.
  - exists (mock_id <$> seqZ 1 (choices_per_question cfg)). split.
    + apply check_choices_Ok.
      exists (mock_choice (chunk_id c) <$> py_range 1 (choices_per_question cfg + 1)).
      split; [reflexivity|]. split; [|split; [|split; [|split; [|split]]]].
      * rewrite length_fmap. unfold py_range. rewrite length_seqZ. lia.
      * apply Forall_fmap, Forall_forall. intros k _. reflexivity.
      * symmetry. apply mock_choice_ids.
      * apply Forall_fmap, Forall_forall. intros k _. reflexivity.
      * apply Forall_fmap, Forall_forall. intros k _. reflexivity.
      * rewrite <- list_fmap_compose.
        apply (NoDup_fmap_2 (fun k => key_of (mock_id k))), NoDup_seqZ.
    + unfold check_correct.
      change (dict_get "correct_choice_ids" (mock_question c cfg i))
        with (Some (VList (mock_correct (question_type cfg)
                             (choices_per_question cfg)))).
      destruct (mock_correct_length (question_type cfg) _ Hn) as [H1 HM].
      destruct (Nat.ltb_spec (length (mock_correct (question_type cfg)
                                        (choices_per_question cfg))) 1); [lia|].
      destruct (String.eqb_spec (question_type cfg) "MCQ") as [E|_]; simpl.
      * rewrite (HM E). simpl. apply mock_correct_refer. exact Hn.
      * apply mock_correct_refer. exact Hn.
Qed.

(** C10. For every chunk record and every configuration with
    [question_type] MCQ or SATA, [choices_per_question >= 2] and
    [questions_per_partition >= 1], the list built by
    [mock_generate_questions_for_chunk] has [questions_per_partition]
    questions, goes through the validation pass unchanged, and
    [postprocess_questions] returns a result on it for all flags and draws.
    Each mock question has exactly [choices_per_question] choices whose ids
    are c1..cN (non-empty, pairwise distinct), a non-empty
    [correct_choice_ids] list drawn from those ids, one correct id when the
    type is MCQ, and carries [stem], [chunk_id] and an empty [explanation]. *)
Theorem mock_questions_validate c cfg rq ro g :
  question_type cfg = "MCQ" \/ question_type cfg = "SATA" ->
  (2 <= choices_per_question cfg)%Z ->
  (1 <= questions_per_partition cfg)%Z ->
  validate (question_type cfg) (choices_per_question cfg)
    (mock_generate_questions_for_chunk c cfg)
    = Ok (mock_generate_questions_for_chunk c cfg)
  /\ (exists out g',
        postprocess_questions (mock_generate_questions_for_chunk c cfg)
          (question_type cfg) (choices_per_question cfg) rq ro g = Ok (out, g'))
  /\ Z.of_nat (length (mock_generate_questions_for_chunk c cfg))
     = questions_per_partition cfg
  /\ Forall (fun q =>
       exists stem choices correct,
         dict_get "stem" q = Some (VStr stem)
         /\ dict_get "chunk_id" q = Some (VStr (chunk_id c))
         /\ dict_get "explanation" q = Some (VStr "")
         /\ dict_get "question_type" q = Some (VStr (question_type cfg))
         /\ dict_get "choices" q = Some (VList choices)
         /\ Z.of_nat (length choices) = choices_per_question cfg
         /\ field "id" <$> choices
            = (fun k => VStr ("c" +:+ str_of_int k))
                <$> seqZ 1 (choices_per_question cfg)
         /\ NoDup (field "id" <$> choices)
         /\ Forall (fun cid => truthy cid = true) (field "id" <$> choices)
         /\ dict_get "correct_choice_ids" q = Some (VList correct)
         /\ (1 <= length correct)%nat
         /\ (forall cid, cid ∈ correct -> cid ∈ field "id" <$> choices)
         /\ (question_type cfg = "MCQ" -> length correct = 1%nat))
       (mock_generate_questions_for_chunk c cfg).
Proof.
  intros Hqt Hn Hq.
  assert (Hpass : Forall (passes (question_type cfg) (choices_per_question cfg))
                    (mock_generate_questions_for_chunk c cfg)).
  { apply Forall_fmap, Forall_forall. intros i _.
    apply mock_question_passes. exact Hn. }
  assert (Hval : validate (question_type cfg) (choices_per_question cfg)
                   (mock_generate_questions_for_chunk c cfg)
                 = Ok (mock_generate_questions_for_chunk c cfg)).
  { apply validate_Ok. split; [exact Hpass|]. symmetry. apply fmap_fixed.
    apply Forall_fmap, Forall_forall. intros i _. reflexivity. }
  split; [exact Hval|]. split; [|split].
  - destruct (postprocess_returns _ _ _ rq ro g Hpass) as (pre & g' & _ & Hrun).
    eauto.
  - unfold mock_generate_questions_for_chunk, py_range.
    rewrite length_fmap, length_seqZ. lia.
  - apply Forall_fmap, Forall_forall. intros i _.
    exists (mock_stem c i),
      (mock_choice (chunk_id c) <$> py_range 1 (choices_per_question cfg + 1)),
      (mock_correct (question_type cfg) (choices_per_question cfg)).
    destruct (mock_correct_length (question_type cfg) _ Hn) as [H1 HM].
    repeat (split; [reflexivity|]).
    split; [rewrite length_fmap; unfold py_range; rewrite length_seqZ; lia|].
    rewrite mock_choice_ids.
    split; [reflexivity|].
    split; [apply (NoDup_fmap_2 mock_id), NoDup_seqZ|].
    split; [apply Forall_fmap, Forall_forall; intros k _; reflexivity|].
    split; [reflexivity|]. split; [exact H1|]. split; [|exact HM].
    intros cid Hcid.
    assert (Hk : exists k, (1 <= k <= choices_per_question cfg)%Z /\ cid = mock_id k).
    { revert Hcid. unfold mock_correct.
      destruct (String.eqb (question_type cfg) "MCQ").
      - destruct (Z.leb_spec 2 (choices_per_question cfg)); [|lia].
        intros H0. apply list_elem_of_singleton in H0. subst cid.
        exists 2%Z. split; [lia | reflexivity].
      - destruct (Z.leb_spec 4 (choices_per_question cfg)).
        + intros H0. apply elem_of_cons in H0 as [-> | H0].
          * exists 2%Z. split; [lia | reflexivity].
          * apply list_elem_of_singleton in H0. subst cid.
            exists 4%Z. split; [lia | reflexivity].
        + destruct (Z.leb_spec 2 (choices_per_question cfg)); [|lia].
          intros H2. apply elem_of_cons in H2 as [-> | H2].
          * exists 1%Z. split; [lia | reflexivity].
          * apply list_elem_of_singleton in H2. subst cid.
            exists 2%Z. split; [lia | reflexivity]. }
    destruct Hk as (k & Hk & ->).
    apply list_elem_of_fmap_2, elem_of_seqZ. lia.
Qed.

Lemma mock_questions_validate_witness :
  validate "SATA" 4
    (mock_generate_questions_for_chunk (Chunk "chunk_002" 4 7)
       (GenerationCfg "SATA" 4 2))
  = Ok (mock_generate_questions_for_chunk (Chunk "chunk_002" 4 7)
          (GenerationCfg "SATA" 4 2)).
Proof.
  apply (mock_questions_validate (Chunk "chunk_002" 4 7)
           (GenerationCfg "SATA" 4 2) true true Samples.tape).
  - right. reflexivity.
  - simpl. lia.
  - simpl. lia.
Defined.

End MockLlmTheory.

(** ** Brace escaping and prompt rendering *)

Module TextUtilsTheory.
Import Py PyTheory TextUtils.

Lemma app_empty_r (s : string) : s +:+ "" = s.
Proof.
  induction s as [|a s IH]; [reflexivity|].
  change (String a (s +:+ "") = String a s). rewrite IH. reflexivity.
Qed.

Lemma count_char_app a s1 s2 :
  count_char a (s1 +:+ s2) = count_char a s1 + count_char a s2.
Proof.
  induction s1 as [|b s1 IH]; [reflexivity|].
  change (count_char a (String b (s1 +:+ s2))
          = count_char a (String b s1) + count_char a s2).
  simpl. rewrite IH. lia.
Qed.

Lemma length_app_string s1 s2 :
  String.length (s1 +:+ s2) = String.length s1 + String.length s2.
Proof.
  induction s1 as [|b s1 IH]; [reflexivity|].
  change (S (String.length (s1 +:+ s2))
          = S (String.length s1) + String.length s2).
  rewrite IH. reflexivity.
Qed.

Lemma replace_char_length old s :
  String.length (replace_char old (String old (String old "")) s)
  = String.length s + count_char old s.
Proof.
  induction s as [|a s IH]; simpl; [reflexivity|].
  destruct (Ascii.eqb a old).
  - rewrite length_app_string, IH. simpl. lia.
  - simpl. rewrite IH. lia.
Qed.

Lemma replace_char_count_other old b s :
  Ascii.eqb old b = false ->
  count_char b (replace_char old (String old (String old "")) s) = count_char b s.
Proof.
  intros Hb. induction s as [|a s IH]; simpl; [reflexivity|].
  destruct (Ascii.eqb_spec a old) as [->|Hne].
  - rewrite count_char_app, IH. simpl. rewrite Hb. reflexivity.
  - simpl. rewrite IH. reflexivity.
Qed.

Lemma escape_braces_length text :
  String.length (escape_braces text)
  = String.length text + count_char "{" text + count_char "}" text.
Proof.
  unfold escape_braces. rewrite (replace_char_length "}").
  rewrite (replace_char_length "{"), (replace_char_count_other "{" "}");
    reflexivity.
Qed.

Lemma has_brace_count text :
  has_brace text = true -> 0 < count_char "{" text + count_char "}" text.
Proof.
  unfold has_brace. induction text as [|a s IH]; simpl; [discriminate|].
  destruct (Ascii.eqb a "{"); simpl; [lia|].
  destruct (Ascii.eqb a "}"); simpl; [lia|]. exact IH.
Qed.

(** Escaping changes every text that has a brace in it. *)
Lemma escape_braces_changes text :
  has_brace text = true -> escape_braces text <> text.
Proof.
  intros Hb Heq. apply has_brace_count in Hb.
  pose proof (escape_braces_length text) as Hl. rewrite Heq in Hl. lia.
Qed.

Section Rendering.
Context `{Runtime}.

Lemma prepend_same_outcome s1 s2 r1 r2 :
  same_outcome r1 r2 -> same_outcome (prepend s1 r1) (prepend s2 r2).
Proof.
  destruct r1 as [[x1|e1]|], r2 as [[x2|e2]|]; simpl; auto.
Qed.

Lemma format_field_same_outcome f kw1 kw2 :
  (forall k, dict_has k kw1 = dict_has k kw2) ->
  same_outcome (format_field f kw1) (format_field f kw2).
Proof.
  intros Hk. unfold format_field.
  destruct (classify_field f); simpl; auto.
  destruct (positional f); simpl; auto.
  specialize (Hk f). unfold dict_has in Hk.
  destruct (dict_get f kw1), (dict_get f kw2); simpl; try discriminate; auto.
Qed.

Lemma format_scan_same_outcome_upto kw1 kw2 n :
  (forall k, dict_has k kw1 = dict_has k kw2) ->
  forall t mode, String.length t <= n ->
    same_outcome (format_scan kw1 mode t) (format_scan kw2 mode t).
Proof.
  intros Hk. induction n as [|n IH]; intros [|a t] mode Hlen;
    simpl in Hlen; try lia; destruct mode as [|depth text]; simpl; auto.
  - destruct (Ascii.eqb a "{").
    + destruct t as [|b t']; simpl; auto.
      pose proof (IH (String b t') (InField 0 "") ltac:(lia)) as IH1.
      simpl in IH1. destruct (Ascii.eqb b "{").
      * apply prepend_same_outcome, IH. simpl in Hlen. lia.
      * exact IH1.
    + destruct (Ascii.eqb a "}").
      * destruct t as [|b t']; simpl; auto.
        destruct (Ascii.eqb b "}"); simpl; auto.
        apply prepend_same_outcome, IH. simpl in Hlen. lia.
      * apply prepend_same_outcome, IH. lia.
  - destruct (Ascii.eqb a "}").
    + destruct depth as [|d]; [|apply IH; lia].
      pose proof (format_field_same_outcome text kw1 kw2 Hk) as Hf.
      destruct (format_field text kw1) as [[v1|e1]|],
               (format_field text kw2) as [[v2|e2]|];
        simpl in Hf; try contradiction; simpl; auto.
      apply prepend_same_outcome, IH. lia.
    + destruct (Ascii.eqb a "{"); apply IH; lia.
Qed.

(** Whether the scanner succeeds, and with which exception it fails, is
    decided by the template and the names of the keyword arguments alone:
    nothing in a substituted text, braces included, can make it fail. *)
Lemma format_scan_same_outcome kw1 kw2 t :
  (forall k, dict_has k kw1 = dict_has k kw2) ->
  same_outcome (format_scan kw1 Literal t) (format_scan kw2 Literal t).
Proof.
  intros Hk. eapply format_scan_same_outcome_upto; [exact Hk | reflexivity].
Qed.

(** [str.format] never reads inside the value it substitutes: the value of
    a named field, braces and all, arrives in the output as it is. *)
Lemma py_format_verbatim text :
  py_format "{stem}" [("stem", VStr text)] = Ok text.
Proof.
  unfold py_format. simpl. rewrite app_empty_r. reflexivity.
Qed.

Lemma py_format_escaped text :
  has_brace text = true ->
  exists rendered,
    py_format "{stem}" [("stem", VStr (escape_braces text))] = Ok rendered
    /\ rendered <> text.
Proof.
  intros Hb. exists (escape_braces text).
  split; [apply py_format_verbatim | apply escape_braces_changes; exact Hb].
Qed.

End Rendering.

(** C6. The code escapes braces in the text it substitutes, and rendering
    raises nothing; but [str.format] does not read substituted values, so
    the doubled braces stay: for the stem "Let S = {1, 2}. Size?" the
    explain prompt reads "Let S = {{1, 2}}. Size?", and the chunk text
    "f(x) = {x}" reaches the generator prompt as "f(x) = {{x}}". *)
Theorem escaped_braces_stay_doubled :
  @Explain.explain_prompt (Samples.runtime Samples.answering)
     "Explain: {stem}" Samples.brace_question
  = Ok "Explain: Let S = {{1, 2}}. Size?"
  /\ @Generate.generator_prompt (Samples.runtime Samples.answering)
       (MockLlm.GenerationCfg "MCQ" 3 2)
       (Generate.PromptFiles "Write questions." "Context: {context}" "")
       "f(x) = {x}" Samples.tape
     = Ok ("Write questions." +:+ nl +:+ nl +:+ "Context: f(x) = {{x}}",
           Samples.tape).
Proof. split; vm_compute; reflexivity. Qed.

End TextUtilsTheory.

(** ** The enrichment flow *)

Module ExplainTheory.
Import Py PyTheory TextUtils Explain.

(** *** Tables keyed by hashable values *)

Lemma py_eqb_true a b :
  py_eqb a b = true ->
  hashable a = true /\ hashable b = true /\ key_of a = key_of b.
Proof.
  intros Hab.
  assert (Ha : hashable a = true) by (destruct a, b; simpl in *; congruence).
  assert (Hb : hashable b = true) by (destruct a, b; simpl in *; congruence).
  split; [exact Ha|]. split; [exact Hb|]. apply py_eqb_key; assumption.
Qed.

Lemma py_eqb_trans_l k k1 k2 :
  py_eqb k k1 = true -> py_eqb k k2 = true -> py_eqb k1 k2 = true.
Proof.
  intros H1 H2.
  apply py_eqb_true in H1 as (_ & Hh1 & E1).
  apply py_eqb_true in H2 as (_ & Hh2 & E2).
  apply py_eqb_key; congruence.
Qed.

Lemma py_eqb_str v s : py_eqb v (VStr s) = true -> v = VStr s.
Proof.
  destruct v; simpl; try discriminate.
  intros E. apply String.eqb_eq in E. congruence.
Qed.

Lemma table_get_set {V} k k0 (v j : V) t :
  table_get k (table_set k0 v t) = Some j ->
  (py_eqb k0 k = true /\ j = v) \/ table_get k t = Some j.
Proof.
  induction t as [|[k' v'] t IH]; simpl.
  - destruct (py_eqb k0 k) eqn:E; [|discriminate].
    intros [= <-]. left. auto.
  - destruct (py_eqb k' k0) eqn:E0; simpl.
    + destruct (py_eqb k' k) eqn:E1.
      * intros [= <-]. left. split; [|reflexivity].
        eapply py_eqb_trans_l; eassumption.
      * intros Hj. right. exact Hj.
    + destruct (py_eqb k' k) eqn:E1.
      * intros Hj. right. exact Hj.
      * exact IH.
Qed.

Lemma table_get_set_eq {V} k k0 (v : V) t :
  py_eqb k0 k = true -> table_get k (table_set k0 v t) = Some v.
Proof.
  intros Hk. induction t as [|[k' v'] t IH]; simpl.
  - rewrite Hk. reflexivity.
  - destruct (py_eqb k' k0) eqn:E0; simpl.
    + apply py_eqb_true in E0 as (H1 & H2 & E0).
      apply py_eqb_true in Hk as (_ & H3 & Hk).
      assert (E : py_eqb k' k = true) by (apply py_eqb_key; congruence).
      rewrite E. reflexivity.
    + destruct (py_eqb k' k) eqn:E1; [|exact IH].
      apply py_eqb_true in E1 as (H1 & H2 & E1).
      apply py_eqb_true in Hk as (H3 & _ & Hk).
      assert (E : py_eqb k' k0 = true) by (apply py_eqb_key; congruence).
      congruence.
Qed.

Lemma table_get_set_ne {V} k k0 (v : V) t :
  py_eqb k0 k = false -> table_get k (table_set k0 v t) = table_get k t.
Proof.
  intros Hk. induction t as [|[k' v'] t IH]; simpl.
  - rewrite Hk. reflexivity.
  - destruct (py_eqb k' k0) eqn:E0; simpl.
    + destruct (py_eqb k' k) eqn:E1; [|reflexivity].
      apply py_eqb_true in E0 as (H1 & H2 & E0).
      apply py_eqb_true in E1 as (_ & H3 & E1).
      assert (E : py_eqb k0 k = true) by (apply py_eqb_key; congruence).
      congruence.
    + destruct (py_eqb k' k); [reflexivity | exact IH].
Qed.

(** *** The index [by_id] *)

Lemma build_by_id_dicts qs : forall i acc t,
  build_by_id i qs acc = Ok t -> Forall (fun q => is_dict q = true) qs.
Proof.
  induction qs as [|q qs IH]; intros i acc t; simpl; [constructor|].
  destruct q as [| | | | |d]; simpl; try discriminate.
  destruct (hashable (get_default "id" VNone d)); [|discriminate].
  intros Ht. constructor; [reflexivity | eapply IH; exact Ht].
Qed.

(** An entry of the index points at a question that carries that id. *)
Lemma build_by_id_sound qs : forall i acc t k j,
  build_by_id i qs acc = Ok t ->
  table_get k t = Some j ->
  table_get k acc = Some j
  \/ (i <= j
      /\ exists d, qs !! (j - i) = Some (VDict d)
                   /\ py_eqb (get_default "id" VNone d) k = true).
Proof.
  induction qs as [|q qs IH]; intros i acc t k j; simpl.
  - intros [= <-] Hj. left. exact Hj.
  - destruct q as [| | | | |d]; simpl; try discriminate.
    destruct (hashable (get_default "id" VNone d)); [|discriminate].
    intros Ht Hj.
    destruct (IH _ _ _ _ _ Ht Hj) as [Hacc|(Hle & d' & Hd' & Heq)].
    + apply table_get_set in Hacc as [[Heq ->]|Hacc]; [|left; exact Hacc].
      right. split; [lia|]. exists d. rewrite Nat.sub_diag. auto.
    + right. split; [lia|]. exists d'.
      replace (j - i) with (S (j - S i)) by lia. auto.
Qed.

(** Every id that some question carries is a key of the index. *)
Lemma build_by_id_hit qs : forall i acc t k,
  build_by_id i qs acc = Ok t ->
  is_Some (table_get k acc)
  \/ (exists q, q ∈ qs /\ py_eqb (field "id" q) k = true) ->
  is_Some (table_get k t).
Proof.
  induction qs as [|q qs IH]; intros i acc t k; simpl.
  - intros [= <-] [Hacc|(q & Hq & _)]; [exact Hacc | inversion Hq].
  - destruct q as [| | | | |d]; simpl; try discriminate.
    destruct (hashable (get_default "id" VNone d)); [|discriminate].
    intros Ht Hk. apply (IH _ _ _ _ Ht).
    destruct (py_eqb (get_default "id" VNone d) k) eqn:E.
    + left. rewrite table_get_set_eq by exact E. eauto.
    + destruct Hk as [Hacc|(q & Hq & Heq)].
      * left. rewrite table_get_set_ne by exact E. exact Hacc.
      * apply elem_of_cons in Hq as [->|Hq].
        -- simpl in Heq. congruence.
        -- right. eauto.
Qed.

Lemma load_Ok output qs by_id :
  load output = Ok (qs, by_id) ->
  exists d,
    output = VDict d
    /\ py_iter (get_default "questions" (VList []) d) = Ok qs
    /\ build_by_id 0 qs [] = Ok by_id.
Proof.
  unfold load. intros H0.
  apply bind_Ok in H0 as (listed & Hl & H0).
  apply bind_Ok in H0 as (qs' & Hqs & H0).
  apply bind_Ok in H0 as (t & Ht & [= <- <-]).
  destruct output as [| | | | |d]; simpl in Hl; try discriminate.
  injection Hl as <-. eauto.
Qed.

Lemma find_question_Some by_id qs qid i q :
  find_question by_id qs qid = Some (i, q) ->
  table_get (VStr qid) by_id = Some i
  /\ qs !! i = Some (VDict q) /\ q <> [].
Proof.
  unfold find_question.
  destruct (table_get (VStr qid) by_id) as [j|]; [|discriminate].
  destruct (qs !! j) as [[| | | | |d]|] eqn:Hj; try discriminate.
  destruct d as [|kv d]; simpl; [discriminate|].
  intros [= <- <-]. auto.
Qed.

Lemma dict_set_nonempty k v d : dict_set k v d <> [].
Proof. destruct d as [|[k' v'] d]; simpl; [|destruct (decide (k' = k))]; discriminate. Qed.

Lemma dict_set_keys k v d :
  dict_has k d = true -> (dict_set k v d).*1 = d.*1.
Proof.
  unfold dict_has. induction d as [|[k' v'] d IH]; simpl; [discriminate|].
  destruct (decide (k' = k)); [reflexivity|].
  intros Hd. rewrite !fmap_cons, IH; [reflexivity | exact Hd].
Qed.

Section WithRuntime.
Context `{Runtime}.

(** *** The retry loop *)

Lemma explain_attempts_exhausted attempts prompt n :
  (forall k, k < attempts -> call_responses_text prompt (n + k) = None) ->
  explain_attempts attempts prompt n = (None, n + attempts).
Proof.
  revert n. induction attempts as [|a IH]; intros n Hall; simpl.
  - rewrite Nat.add_0_r. reflexivity.
  - pose proof (Hall 0 ltac:(lia)) as H0. rewrite Nat.add_0_r in H0.
    rewrite H0, IH.
    + f_equal. lia.
    + intros k Hk. replace (S n + k) with (n + S k) by lia. apply Hall. lia.
Qed.

Lemma explain_attempts_succeeds attempts prompt n j text :
  j < attempts ->
  (forall k, k < j -> call_responses_text prompt (n + k) = None) ->
  call_responses_text prompt (n + j) = Some text ->
  explain_attempts attempts prompt n = (Some text, n + j + 1).
Proof.
  revert n j. induction attempts as [|a IH]; intros n j Hj Hfail Hok; [lia|].
  simpl. destruct j as [|j].
  - rewrite Nat.add_0_r in Hok. rewrite Hok. f_equal. lia.
  - pose proof (Hfail 0 ltac:(lia)) as H0. rewrite Nat.add_0_r in H0.
    rewrite H0, (IH (S n) j).
    + f_equal. lia.
    + lia.
    + intros k Hk. replace (S n + k) with (n + S k) by lia. apply Hfail. lia.
    + replace (S n + j) with (n + S j) by lia. exact Hok.
Qed.

(** *** One id *)

Lemma explain_one_missing template retries by_id st qid :
  find_question by_id (questions st) qid = None ->
  explain_one template retries by_id st qid = Ok (note_missing 1 st).
Proof.
  intros Hf. unfold explain_one, note_missing. rewrite Hf.
  rewrite Nat.add_1_r. reflexivity.
Qed.

(** What a step that returns can have done to the questions. *)
Lemma explain_one_questions template retries by_id st qid st' :
  explain_one template retries by_id st qid = Ok st' ->
  questions st' = questions st
  \/ exists i q text,
       find_question by_id (questions st) qid = Some (i, q)
       /\ questions st'
          = <[i := VDict (dict_set "explanation" (VStr text) q)]> (questions st).
Proof.
  unfold explain_one.
  destruct (find_question by_id (questions st) qid) as [[i q]|] eqn:Hf.
  - intros H0. apply bind_Ok in H0 as (prompt & _ & H0).
    destruct (explain_attempts (Z.to_nat retries) prompt (calls st))
      as [[text|] n].
    + injection H0 as <-. right. exists i, q, text. auto.
    + injection H0 as <-. left. reflexivity.
  - intros [= <-]. left. reflexivity.
Qed.

Lemma find_question_insert by_id qs i q text qid :
  qs !! i = Some (VDict q) -> q <> [] ->
  match find_question by_id
          (<[i := VDict (dict_set "explanation" (VStr text) q)]> qs) qid with
  | Some _ => true
  | None => false
  end
  = match find_question by_id qs qid with Some _ => true | None => false end.
Proof.
  intros Hi Hq. unfold find_question.
  destruct (table_get (VStr qid) by_id) as [j|]; [|reflexivity].
  destruct (decide (i = j)) as [<-|Hne].
  - rewrite list_lookup_insert_eq by (eapply lookup_lt_Some; exact Hi).
    rewrite Hi. pose proof (dict_set_nonempty "explanation" (VStr text) q).
    destruct (dict_set "explanation" (VStr text) q); [contradiction|].
    destruct q; [contradiction|]. reflexivity.
  - rewrite list_lookup_insert_ne by exact Hne. reflexivity.
Qed.

Lemma explain_one_known template retries by_id st qid st' qid' :
  explain_one template retries by_id st qid = Ok st' ->
  match find_question by_id (questions st') qid' with Some _ => true | None => false end
  = match find_question by_id (questions st) qid' with Some _ => true | None => false end.
Proof.
  intros H0. apply explain_one_questions in H0 as [->|(i & q & text & Hf & ->)];
    [reflexivity|].
  apply find_question_Some in Hf as (_ & Hi & Hq).
  apply find_question_insert; assumption.
Qed.

(** The counters never steer the loop. *)
Lemma explain_one_note_missing template retries by_id st qid m :
  explain_one template retries by_id (note_missing m st) qid
  = match explain_one template retries by_id st qid with
    | Ok st' => Ok (note_missing m st')
    | Raise e => Raise e
    end.
Proof.
  unfold explain_one, note_missing. simpl.
  destruct (find_question by_id (questions st) qid) as [[i q]|]; [|reflexivity].
  destruct (explain_prompt template q) as [prompt|e]; simpl; [|reflexivity].
  destruct (explain_attempts (Z.to_nat retries) prompt (calls st)) as [[text|] n];
    reflexivity.
Qed.

Lemma explain_all_note_missing template retries by_id wrong : forall st m,
  explain_all template retries by_id (note_missing m st) wrong
  = match explain_all template retries by_id st wrong with
    | Ok st' => Ok (note_missing m st')
    | Raise e => Raise e
    end.
Proof.
  induction wrong as [|qid wrong IH]; intros st m; simpl; [reflexivity|].
  rewrite explain_one_note_missing.
  destruct (explain_one template retries by_id st qid) as [st'|e]; simpl;
    [apply IH | reflexivity].
Qed.

Lemma note_missing_0 st : note_missing 0 st = st.
Proof.
  destruct st as [qs [u m f] n]. unfold note_missing. simpl.
  rewrite Nat.add_0_r. reflexivity.
Qed.

Lemma note_missing_S m st : note_missing 1 (note_missing m st) = note_missing (S m) st.
Proof. unfold note_missing. simpl. do 2 f_equal. lia. Qed.

(** Unknown ids can be taken out of [wrong_ids] and counted at the end. *)
Lemma explain_all_filter template retries by_id (known : string -> bool) wrong :
  forall st,
  (forall qid, known qid
     = match find_question by_id (questions st) qid with
       | Some _ => true
       | None => false
       end) ->
  explain_all template retries by_id st wrong
  = match explain_all template retries by_id st (List.filter known wrong) with
    | Ok st' =>
        Ok (note_missing
              (length (List.filter (fun qid => negb (known qid)) wrong)) st')
    | Raise e => Raise e
    end.
Proof.
  induction wrong as [|qid wrong IH]; intros st Hk; simpl.
  - rewrite note_missing_0. reflexivity.
  - destruct (known qid) eqn:Hq; simpl.
    + destruct (explain_one template retries by_id st qid) as [st'|e] eqn:H1;
        simpl; [|reflexivity].
      apply IH. intros qid'. rewrite Hk. symmetry.
      eapply explain_one_known. exact H1.
    + rewrite Hk in Hq.
      destruct (find_question by_id (questions st) qid) eqn:Hf; [discriminate|].
      rewrite (explain_one_missing _ _ _ _ _ Hf). simpl.
      rewrite explain_all_note_missing, (IH st Hk).
      destruct (explain_all template retries by_id st (List.filter known wrong));
        [|reflexivity].
      rewrite note_missing_S. reflexivity.
Qed.

(** When the output loads, the questions it lists are the loaded ones. *)
Lemma load_listed output qs by_id :
  load output = Ok (qs, by_id) -> listed output = qs.
Proof.
  intros Hl. apply load_Ok in Hl as (d & -> & Hit & Hb).
  apply build_by_id_dicts in Hb. simpl.
  destruct (get_default "questions" (VList []) d) as [| | |str|l|dd];
    simpl in Hit; try discriminate.
  - injection Hit as <-.
    destruct (String.list_ascii_of_string str) as [|a l]; [reflexivity|].
    apply Forall_cons in Hb as [Hd _]. discriminate.
  - injection Hit as <-. reflexivity.
  - injection Hit as <-. destruct dd as [|kv dd]; [reflexivity|].
    apply Forall_cons in Hb as [Hd _]. discriminate.
Qed.

(** The lookup finds an id exactly when some listed question carries it. *)
Lemma find_question_names output qs by_id qid :
  load output = Ok (qs, by_id) ->
  names_question output qid
  = match find_question by_id qs qid with Some _ => true | None => false end.
Proof.
  intros Hl. unfold names_question. rewrite (load_listed _ _ _ Hl).
  apply load_Ok in Hl as (d & _ & _ & Hb).
  destruct (find_question by_id qs qid) as [[i q]|] eqn:Hf.
  - apply find_question_Some in Hf as (Hi & Hq & _).
    destruct (build_by_id_sound _ _ _ _ _ _ Hb Hi)
      as [Hemp|(_ & d0 & Hd0 & Heq)]; [discriminate|].
    apply existsb_exists. exists (VDict d0). split; [|exact Heq].
    apply list_elem_of_In. eapply list_elem_of_lookup_2. exact Hd0.
  - destruct (existsb _ qs) eqn:Hex; [|reflexivity]. exfalso.
    apply existsb_exists in Hex as (q & Hq & Heq).
    apply list_elem_of_In in Hq.
    destruct (build_by_id_hit _ _ _ _ (VStr qid) Hb) as (j & Hj);
      [right; exists q; auto|].
    destruct (build_by_id_sound _ _ _ _ _ _ Hb Hj)
      as [Hemp|(_ & d0 & Hd0 & Heq0)]; [discriminate|].
    rewrite Nat.sub_0_r in Hd0.
    unfold find_question in Hf. rewrite Hj, Hd0 in Hf.
    destruct d0 as [|kv d0]; [discriminate|]. discriminate.
Qed.

(** An id that the lookup finds is never counted as missing. *)
Lemma explain_one_found template retries by_id st qid st' :
  find_question by_id (questions st) qid <> None ->
  explain_one template retries by_id st qid = Ok st' ->
  skipped_missing (tally st') = skipped_missing (tally st).
Proof.
  unfold explain_one.
  destruct (find_question by_id (questions st) qid) as [[i q]|];
    [|contradiction].
  intros _ H0. apply bind_Ok in H0 as (prompt & _ & H0).
  destruct (explain_attempts (Z.to_nat retries) prompt (calls st))
    as [[text|] m]; injection H0 as <-; reflexivity.
Qed.

Lemma explain_all_found template retries by_id wrong : forall st st',
  Forall (fun qid => find_question by_id (questions st) qid <> None) wrong ->
  explain_all template retries by_id st wrong = Ok st' ->
  skipped_missing (tally st') = skipped_missing (tally st).
Proof.
  induction wrong as [|qid wrong IH]; intros st st' Hall; simpl.
  - intros [= <-]. reflexivity.
  - apply Forall_cons in Hall as [Hq Hall].
    intros H0. apply bind_Ok in H0 as (st1 & H1 & H2).
    rewrite (IH st1 st'); [eapply explain_one_found; eassumption| |exact H2].
    eapply Forall_impl; [exact Hall|]. simpl. intros qid' Hk.
    pose proof (explain_one_known _ _ _ _ _ _ qid' H1) as E.
    destruct (find_question by_id (questions st1) qid');
      destruct (find_question by_id (questions st) qid');
      try discriminate; congruence.
Qed.

(** C7. Call an id unknown when no question that the loaded output lists
    carries it. [add_explanations_for_wrong_questions] then behaves as it
    does on the other ids alone (same returned output, same updated and
    failed counts, same model calls; it raises only where that call
    raises), and its skipped-missing count is exactly the number of unknown
    ids in [wrong_ids]: each unknown id adds one, no other id adds any. *)
Theorem unknown_ids_are_counted output wrong_ids template retries n :
  add_explanations_for_wrong_questions output wrong_ids template retries n
  = match add_explanations_for_wrong_questions output
            (List.filter (names_question output) wrong_ids)
            template retries n with
    | Ok (out, c, n') =>
        Ok (out,
            Counts (updated c)
              (length (List.filter
                         (fun qid => negb (names_question output qid))
                         wrong_ids))
              (skipped_failed c),
            n')
    | Raise e => Raise e
    end.
Proof.
  unfold add_explanations_for_wrong_questions.
  destruct (load output) as [[qs by_id]|e] eqn:Hl; simpl; [|reflexivity].
  rewrite (explain_all_filter template retries by_id (names_question output))
    by (intros qid; apply (find_question_names _ _ _ _ Hl)).
  destruct (explain_all template retries by_id
              {| questions := qs; tally := Counts 0 0 0; calls := n |}
              (List.filter _ wrong_ids)) as [st'|e] eqn:Hall; [|reflexivity].
  assert (Hm : skipped_missing (tally st') = 0).
  { apply (explain_all_found _ _ _ _ _ _) in Hall; [exact Hall|].
    apply Forall_forall. intros qid Hq. simpl.
    apply list_elem_of_In, filter_In in Hq as [_ Hq].
    rewrite (find_question_names _ _ _ _ Hl) in Hq.
    destruct (find_question by_id qs qid); [discriminate | discriminate]. }
  unfold note_missing. simpl. rewrite Hm. reflexivity.
Qed.

(** *** The frame of the enrichment *)

Lemma framed_start qs0 : framed [] qs0 qs0.
Proof. split; [reflexivity|]. intros i q0 Hq0. exists q0. auto. Qed.

Lemma framed_weaken (P P' : list string) qs0 qs :
  (forall w, w ∈ P -> w ∈ P') -> framed P qs0 qs -> framed P' qs0 qs.
Proof.
  intros HP [Hlen Hall]. split; [exact Hlen|].
  intros i q0 Hq0. destruct (Hall i q0 Hq0) as (q & Hq & Hrel).
  exists q. split; [exact Hq|].
  destruct Hrel as [->|(Hd & w & Hw & Hid)]; [left; reflexivity|].
  right. split; [exact Hd|]. exists w. auto.
Qed.

Lemma explain_one_framed template retries by_id qs0 P st qid st' :
  build_by_id 0 qs0 [] = Ok by_id ->
  framed P qs0 (questions st) ->
  explain_one template retries by_id st qid = Ok st' ->
  framed (qid :: P) qs0 (questions st').
Proof.
  intros Hb Hfr H1.
  apply explain_one_questions in H1 as [->|(i & q & text & Hf & ->)].
  - eapply framed_weaken; [|exact Hfr]. intros w Hw.
    apply list_elem_of_further. exact Hw.
  - apply find_question_Some in Hf as (Hi & Hqi & _).
    destruct (build_by_id_sound _ _ _ _ _ _ Hb Hi) as [Hemp|(_ & d0 & Hd0 & Heq)];
      [discriminate|].
    rewrite Nat.sub_0_r in Hd0. apply py_eqb_str in Heq.
    destruct Hfr as [Hlen Hall]. split; [rewrite length_insert; exact Hlen|].
    intros j q0 Hq0. destruct (decide (i = j)) as [<-|Hne].
    + rewrite Hd0 in Hq0. injection Hq0 as <-.
      rewrite list_lookup_insert_eq by (eapply lookup_lt_Some; exact Hqi).
      eexists. split; [reflexivity|]. right. split.
      * exists d0, (dict_set "explanation" (VStr text) q).
        split; [reflexivity|]. split; [reflexivity|].
        intros k Hk. rewrite dict_get_set_ne by congruence.
        destruct (Hall i (VDict d0) Hd0) as (q1 & Hq1 & Hrel).
        rewrite Hqi in Hq1. injection Hq1 as <-.
        destruct Hrel as [[= ->]|((d & d' & [= <-] & [= <-] & Hsame) & _)];
          [reflexivity | apply Hsame; exact Hk].
      * exists qid. split; [apply list_elem_of_here | exact Heq].
    + rewrite list_lookup_insert_ne by exact Hne.
      destruct (Hall j q0 Hq0) as (q1 & Hq1 & Hrel).
      exists q1. split; [exact Hq1|].
      destruct Hrel as [->|(Hd & w & Hw & Hid)]; [left; reflexivity|].
      right. split; [exact Hd|]. exists w.
      split; [apply list_elem_of_further; exact Hw | exact Hid].
Qed.

Lemma explain_all_framed template retries by_id qs0 wrong : forall P st st',
  build_by_id 0 qs0 [] = Ok by_id ->
  framed P qs0 (questions st) ->
  explain_all template retries by_id st wrong = Ok st' ->
  framed (wrong ++ P) qs0 (questions st').
Proof.
  induction wrong as [|qid wrong IH]; intros P st st' Hb Hfr; simpl.
  - intros [= <-]. exact Hfr.
  - intros H1. apply bind_Ok in H1 as (st1 & H1 & H2).
    pose proof (explain_one_framed _ _ _ _ _ _ _ _ Hb Hfr H1) as Hfr1.
    pose proof (IH _ _ _ Hb Hfr1 H2) as Hfr2.
    eapply framed_weaken; [|exact Hfr2]. intros w Hw.
    apply elem_of_app in Hw as [Hw|Hw].
    + apply list_elem_of_further, elem_of_app. left. exact Hw.
    + apply elem_of_cons in Hw as [->|Hw].
      * apply list_elem_of_here.
      * apply list_elem_of_further, elem_of_app. right. exact Hw.
Qed.

(** C8. When [add_explanations_for_wrong_questions] returns, the returned
    output has the top-level keys of the loaded one, in the same order and
    with the same values except for the question list under ["questions"];
    that list has the same length, and at every position the returned
    question agrees with the loaded one on every key other than
    ["explanation"] (id, stem, question_type, choices, correct_choice_ids,
    chunk_id and any other), and is the loaded question itself unless its
    id is one of [wrong_ids]. *)
Theorem enrichment_changes_explanations_only
    output wrong_ids template retries n out c n' :
  add_explanations_for_wrong_questions output wrong_ids template retries n
    = Ok (out, c, n') ->
  exists d d' qs qs',
    output = VDict d
    /\ out = VDict d'
    /\ d'.*1 = d.*1
    /\ (forall k, k <> "questions" -> dict_get k d' = dict_get k d)
    /\ py_iter (get_default "questions" (VList []) d) = Ok qs
    /\ py_iter (get_default "questions" (VList []) d') = Ok qs'
    /\ length qs' = length qs
    /\ forall i q, qs !! i = Some q ->
         exists q',
           qs' !! i = Some q'
           /\ only_explanation_differs q q'
           /\ ((forall w, w ∈ wrong_ids -> field "id" q <> VStr w) -> q' = q).
Proof.
  unfold add_explanations_for_wrong_questions. intros H0.
  apply bind_Ok in H0 as ([qs by_id] & Hload & H0).
  apply bind_Ok in H0 as (st & Hall & [= <- <- <-]).
  apply load_Ok in Hload as (d & -> & Hiter & Hb).
  pose proof (build_by_id_dicts _ _ _ _ Hb) as Hdicts.
  pose proof (explain_all_framed template retries by_id qs wrong_ids []
                (EnrichState qs (Counts 0 0 0) n) st Hb (framed_start qs) Hall)
    as Hfr.
  rewrite app_nil_r in Hfr. simpl in Hfr.
  assert (Hpos : forall (qs' : list value),
            framed wrong_ids qs qs' ->
            length qs' = length qs
            /\ forall i q, qs !! i = Some q ->
                 exists q', qs' !! i = Some q'
                   /\ only_explanation_differs q q'
                   /\ ((forall w, w ∈ wrong_ids -> field "id" q <> VStr w)
                       -> q' = q)).
  { intros qs' [Hlen Hrel]. split; [exact Hlen|].
    intros i q Hq. destruct (Hrel i q Hq) as (q' & Hq' & Hcase).
    exists q'. split; [exact Hq'|].
    destruct Hcase as [->|(Hd & w & Hw & Hid)].
    - split; [|reflexivity].
      rewrite Forall_forall in Hdicts.
      pose proof (Hdicts q (list_elem_of_lookup_2 _ _ _ Hq)) as Hdq.
      destruct q as [| | | | |dq]; try discriminate.
      exists dq, dq. auto.
    - split; [exact Hd|]. intros Hno. exfalso. exact (Hno w Hw Hid). }
  exists d. simpl.
  destruct (dict_get "questions" d) as [listed|] eqn:Hq.
  - destruct listed as [| | | |l|dd];
      try (unfold get_default in Hiter; rewrite Hq in Hiter; discriminate).
    + (* a string: the loaded object is returned as it is *)
      exists d, qs, qs. split; [reflexivity|]. split; [reflexivity|].
      split; [reflexivity|]. split; [reflexivity|].
      split; [exact Hiter|]. split; [exact Hiter|].
      apply Hpos, framed_weaken with (P := []);
        [intros w Hw; inversion Hw | apply framed_start].
    + (* a list: it holds the question objects *)
      unfold get_default in Hiter. rewrite Hq in Hiter. simpl in Hiter.
      injection Hiter as ->.
      exists (dict_set "questions" (VList (questions st)) d), qs, (questions st).
      split; [reflexivity|]. split; [reflexivity|].
      split; [apply dict_set_keys; unfold dict_has; rewrite Hq; reflexivity|].
      split; [intros k Hk; apply dict_get_set_ne; congruence|].
      split; [unfold get_default; rewrite Hq; reflexivity|].
      split; [unfold get_default; rewrite dict_get_set_eq; reflexivity|].
      apply Hpos. exact Hfr.
    + (* a dict: the loaded object is returned as it is *)
      exists d, qs, qs. split; [reflexivity|]. split; [reflexivity|].
      split; [reflexivity|]. split; [reflexivity|].
      split; [exact Hiter|]. split; [exact Hiter|].
      apply Hpos, framed_weaken with (P := []);
        [intros w Hw; inversion Hw | apply framed_start].
  - exists d, qs, qs. split; [reflexivity|]. split; [reflexivity|].
    split; [reflexivity|]. split; [reflexivity|].
    split; [exact Hiter|]. split; [exact Hiter|].
    apply Hpos, framed_weaken with (P := []);
      [intros w Hw; inversion Hw | apply framed_start].
Qed.

End WithRuntime.

Lemma enrichment_changes_explanations_only_witness :
  exists d d' qs qs',
    Samples.output = VDict d
    /\ Samples.enriched = VDict d'
    /\ d'.*1 = d.*1
    /\ (forall k, k <> "questions" -> dict_get k d' = dict_get k d)
    /\ py_iter (get_default "questions" (VList []) d) = Ok qs
    /\ py_iter (get_default "questions" (VList []) d') = Ok qs'
    /\ length qs' = length qs
    /\ forall i q, qs !! i = Some q ->
         exists q',
           qs' !! i = Some q'
           /\ only_explanation_differs q q'
           /\ ((forall w, w ∈ ["q_0001"; "q_9999"] -> field "id" q <> VStr w)
               -> q' = q).
Proof.
  apply (@enrichment_changes_explanations_only
           (Samples.runtime Samples.answering) Samples.output
           ["q_0001"; "q_9999"] Samples.explain_template 3 0
           Samples.enriched (Counts 1 1 0) 1).
  vm_compute. reflexivity.
Defined.

Lemma unknown_ids_are_counted_witness :
  @add_explanations_for_wrong_questions (Samples.runtime Samples.answering)
    Samples.output ["q_0001"; "q_9999"] Samples.explain_template 3 0
  = Ok (Samples.enriched, Counts 1 1 0, 1).
Proof.
  rewrite (@unknown_ids_are_counted (Samples.runtime Samples.answering)).
  vm_compute. reflexivity.
Defined.

(** The run of the specification: q_0001 exists, q_9999 does not. *)
Example enrich_known_and_unknown :
  @add_explanations_for_wrong_questions (Samples.runtime Samples.answering)
    Samples.output ["q_0001"; "q_9999"] Samples.explain_template
    default_retries 0
  = Ok (Samples.enriched, Counts 1 1 0, 1).
Proof. vm_compute. reflexivity. Qed.

(** Two failures, then an answer: updated, after three calls. *)
Example enrich_third_attempt :
  @add_explanations_for_wrong_questions (Samples.runtime Samples.third_time)
    Samples.output ["q_0001"] Samples.explain_template default_retries 0
  = Ok (Samples.enriched, Counts 1 0 0, 3).
Proof. vm_compute. reflexivity. Qed.

(** Three failures: the output comes back as it was loaded. *)
Example enrich_all_attempts_fail :
  @add_explanations_for_wrong_questions (Samples.runtime Samples.failing)
    Samples.output ["q_0001"; "q_9999"] Samples.explain_template
    default_retries 0
  = Ok (Samples.output, Counts 0 1 1, 3).
Proof. vm_compute. reflexivity. Qed.

End ExplainTheory.

(** ** Bounded retry and degradation *)

Module RetryTheory.
Import Py PyTheory TextUtils RunUtils MockLlm Explain ExplainTheory Generate.

Section WithRuntime.
Context `{Runtime}.

Lemma generate_attempts_exhausted attempts prompt n :
  (forall k, k < attempts -> attempt_raises prompt (n + k)) ->
  generate_attempts attempts prompt n = (None, n + attempts).
Proof.
  revert n. induction attempts as [|a IH]; intros n Hall; simpl.
  - rewrite Nat.add_0_r. reflexivity.
  - destruct (Hall 0 ltac:(lia)) as (e & He). rewrite Nat.add_0_r in He.
    rewrite He, IH.
    + f_equal. lia.
    + intros k Hk. replace (S n + k) with (n + S k) by lia. apply Hall. lia.
Qed.

Lemma generate_attempts_succeeds attempts prompt n j data :
  j < attempts ->
  (forall k, k < j -> attempt_raises prompt (n + k)) ->
  call_responses_structured prompt (n + j) = Ok data ->
  generate_attempts attempts prompt n = (Some data, n + j + 1).
Proof.
  revert n j. induction attempts as [|a IH]; intros n j Hj Hfail Hok; [lia|].
  simpl. destruct j as [|j].
  - rewrite Nat.add_0_r in Hok. rewrite Hok. f_equal. lia.
  - destruct (Hfail 0 ltac:(lia)) as (e & He). rewrite Nat.add_0_r in He.
    rewrite He, (IH (S n) j).
    + f_equal. lia.
    + lia.
    + intros k Hk. replace (S n + k) with (n + S k) by lia. apply Hfail. lia.
    + replace (S n + j) with (n + S j) by lia. exact Hok.
Qed.

(** C5, as the code has it. The budget is [retries], 3 unless the caller
    says otherwise (no caller does); the statement is proved for the
    budget of 3 attempts and for every other budget of at least one
    attempt. A generation attempt fails when
    [call_responses_structured] raises: the client call raised or its output
    did not parse as JSON. An explanation attempt fails when the client
    call raised. Failed attempts are followed by the next one, and the
    first attempt that succeeds within the budget is the one used. When all
    [retries] attempts fail, [llm_generate_questions_for_chunk] returns the
    empty list after exactly [retries] calls, and the loop body of
    [add_explanations_for_wrong_questions] adds one to skipped-failed and
    leaves every question, so also the explanation, as it was; neither
    raises. *)
Theorem exhausted_retries_degrade (retries : Z) :
  (1 <= retries)%Z ->
  (forall c cfg files chunk_text g n prompt g',
     generator_prompt cfg files chunk_text g = Ok (prompt, g') ->
     (forall k, k < Z.to_nat retries -> attempt_raises prompt (n + k)) ->
     llm_generate_questions_for_chunk c cfg files chunk_text retries g n
     = Ok ([], g', n + Z.to_nat retries))
  /\ (forall c cfg files chunk_text g n prompt g' j data,
        generator_prompt cfg files chunk_text g = Ok (prompt, g') ->
        j < Z.to_nat retries ->
        (forall k, k < j -> attempt_raises prompt (n + k)) ->
        call_responses_structured prompt (n + j) = Ok data ->
        llm_generate_questions_for_chunk c cfg files chunk_text retries g n
        = (out ← wrap_questions (question_type cfg) (chunk_id c) data;
           Ok (out, g', n + j + 1)))
  /\ (forall template by_id st qid i q prompt,
        find_question by_id (questions st) qid = Some (i, q) ->
        explain_prompt template q = Ok prompt ->
        (forall k, k < Z.to_nat retries ->
           call_responses_text prompt (calls st + k) = None) ->
        explain_one template retries by_id st qid
        = Ok (EnrichState (questions st)
                (Counts (updated (tally st)) (skipped_missing (tally st))
                   (S (skipped_failed (tally st))))
                (calls st + Z.to_nat retries)))
  /\ (forall template by_id st qid i q prompt j text,
        find_question by_id (questions st) qid = Some (i, q) ->
        explain_prompt template q = Ok prompt ->
        j < Z.to_nat retries ->
        (forall k, k < j -> call_responses_text prompt (calls st + k) = None) ->
        call_responses_text prompt (calls st + j) = Some text ->
        explain_one template retries by_id st qid
        = Ok (EnrichState
                (<[i := VDict (dict_set "explanation" (VStr text) q)]>
                   (questions st))
                (Counts (S (updated (tally st))) (skipped_missing (tally st))
                   (skipped_failed (tally st)))
                (calls st + j + 1))).
Proof.
  intros Hr. split; [|split; [|split]].
  - intros c cfg files chunk_text g n prompt g' Hp Hall.
    unfold llm_generate_questions_for_chunk. rewrite Hp. simpl.
    rewrite generate_attempts_exhausted by exact Hall.
    destruct (Z.ltb_spec retries 1); [lia | reflexivity].
  - intros c cfg files chunk_text g n prompt g' j data Hp Hj Hfail Hok.
    unfold llm_generate_questions_for_chunk. rewrite Hp. simpl.
    rewrite (generate_attempts_succeeds _ _ _ j data Hj Hfail Hok).
    reflexivity.
  - intros template by_id st qid i q prompt Hf Hp Hall.
    unfold explain_one. rewrite Hf, Hp. simpl.
    rewrite explain_attempts_exhausted by exact Hall. reflexivity.
  - intros template by_id st qid i q prompt j text Hf Hp Hj Hfail Hok.
    unfold explain_one. rewrite Hf, Hp. simpl.
    rewrite (explain_attempts_succeeds _ _ _ j text Hj Hfail Hok). reflexivity.
Qed.

End WithRuntime.

Lemma exhausted_retries_degrade_witness :
  @llm_generate_questions_for_chunk (Samples.runtime Samples.failing)
    (Chunk "chunk_001" 1 4) (GenerationCfg "SATA" 3 2) Samples.files
    "Sets are written {1, 2}." 3 Samples.tape 0
  = Ok ([], [1; 3; 4; 2; 8; 6; 0; 9], 3).
Proof.
  apply (proj1 (@exhausted_retries_degrade (Samples.runtime Samples.failing) 3
                  ltac:(lia))
           (Chunk "chunk_001" 1 4) (GenerationCfg "SATA" 3 2) Samples.files
           "Sets are written {1, 2}." Samples.tape 0
           (Samples.generator_prompt_text)).
  - vm_compute. reflexivity.
  - intros k _. exists OracleError. reflexivity.
Defined.

(** C5 as stated fails. An oracle whose output parses but is not what the
    schema asks for is not retried: the very first reply is taken and the
    mapping raises. Each attempt fails in the wider sense (the output does
    not conform), yet no empty list comes back. *)
Lemma nonconforming_reply_not_retried :
  ~ @degrades_when_attempts_fail (Samples.runtime Samples.empty_object)
      (Chunk "chunk_001" 1 4) (GenerationCfg "MCQ" 3 2) Samples.files
      "Some text." 3 Samples.tape 0.
Proof.
  unfold degrades_when_attempts_fail. intros Hclaim.
  destruct Hclaim as (g' & n' & Hrun).
  - intros prompt k. right. exists (VDict []). split; reflexivity.
  - vm_compute in Hrun. discriminate.
Qed.

End RetryTheory.

(** ** More on the partitioner *)

Module RunUtilsMore.
Import RunUtils RunUtilsTheory.

(** Whatever the loop returns: the windows it appended sit one stride
    apart from where it started, are numbered from its [idx] on, and end
    at the window size or at the last page. *)
Lemma loop_closed_form total_pages pages_per_partition stride fuel : forall st r,
  make_chunks_loop fuel total_pages pages_per_partition stride st = Some r ->
  exists ws,
    r = chunks st ++ ws
    /\ forall k w, ws !! k = Some w ->
         page_start w = (start st + Z.of_nat k * stride)%Z
         /\ page_end w = Z.min (page_start w + pages_per_partition - 1) total_pages
         /\ chunk_id w = "chunk_" +:+ Py.format_0d 3 (idx st + Z.of_nat k).
Proof.
  induction fuel as [|fuel IH]; intros [cs s i] r; simpl; [discriminate|].
  destruct (s <=? total_pages)%Z.
  - destruct (Z.min (s + pages_per_partition - 1) total_pages =? total_pages)%Z.
    + intros [= <-]. eexists. split; [reflexivity|].
      intros [|k] w Hw; [|discriminate].
      injection Hw as <-. simpl.
      rewrite Z.mul_0_l, !Z.add_0_r. auto.
    + intros Hr. apply IH in Hr as (ws & -> & Hws). simpl in *.
      eexists. split; [rewrite <- app_assoc; reflexivity|].
      intros [|k] w Hw.
      * injection Hw as <-. simpl. rewrite Z.mul_0_l, !Z.add_0_r. auto.
      * destruct (Hws k w Hw) as (H1 & H2 & H3).
        split; [lia|]. split; [exact H2|].
        rewrite H3. do 2 f_equal. lia.
  - intros [= <-]. exists []. rewrite app_nil_r.
    split; [reflexivity|]. intros k w Hw. destruct k; discriminate.
Qed.

(** X1. Whenever [make_chunks] returns, the [k]-th window (from 0) starts
    at page [1 + k * (pages_per_partition - overlap_pages)], ends at
    [min(page_start + pages_per_partition - 1, total_pages)], and is named
    ["chunk_" + format(k + 1, "03d")]. *)
Theorem make_chunks_closed_form total_pages pages_per_partition overlap_pages ws :
  make_chunks total_pages pages_per_partition overlap_pages = Some ws ->
  forall k w, ws !! k = Some w ->
    page_start w
      = (1 + Z.of_nat k * (pages_per_partition - overlap_pages))%Z
    /\ page_end w = Z.min (page_start w + pages_per_partition - 1) total_pages
    /\ chunk_id w = "chunk_" +:+ Py.format_0d 3 (Z.of_nat k + 1).
Proof.
  unfold make_chunks, make_chunks_fuel. intros Hr.
  apply loop_closed_form in Hr as (ws' & -> & Hws). simpl in *.
  intros k w Hw. destruct (Hws k w Hw) as (H1 & H2 & H3).
  split; [exact H1|]. split; [exact H2|].
  rewrite H3. do 2 f_equal. lia.
Qed.

Lemma make_chunks_closed_form_witness :
  page_start (Chunk "chunk_002" 4 7) = (1 + Z.of_nat 1 * (4 - 1))%Z
  /\ page_end (Chunk "chunk_002" 4 7)
     = Z.min (page_start (Chunk "chunk_002" 4 7) + 4 - 1) 10
  /\ chunk_id (Chunk "chunk_002" 4 7)
     = "chunk_" +:+ Py.format_0d 3 (Z.of_nat 1 + 1).
Proof.
  apply (make_chunks_closed_form 10 4 1
           [Chunk "chunk_001" 1 4; Chunk "chunk_002" 4 7; Chunk "chunk_003" 7 10]).
  - vm_compute. reflexivity.
  - reflexivity.
Defined.

(** With a stride that is not positive the start page never moves
    forward, so a document longer than one window is never finished. *)
Lemma loop_stuck total_pages pages_per_partition stride fuel : forall st,
  (stride <= 0)%Z ->
  (pages_per_partition < total_pages)%Z ->
  (1 <= total_pages)%Z ->
  (start st <= 1)%Z ->
  make_chunks_loop fuel total_pages pages_per_partition stride st = None.
Proof.
  induction fuel as [|fuel IH]; intros [cs s i] Hs Hp Ht Hst; simpl in *;
    [reflexivity|].
  destruct (Z.leb_spec s total_pages); [|lia].
  destruct (Z.eqb_spec (Z.min (s + pages_per_partition - 1) total_pages)
              total_pages); [lia|].
  apply IH; simpl; lia.
Qed.

(** X2. When [overlap_pages >= pages_per_partition] (the stride is zero or
    negative) and the document has more pages than one window holds, the
    [while] loop of [make_chunks] never ends: no amount of fuel yields a
    result. *)
Theorem make_chunks_diverges total_pages pages_per_partition overlap_pages fuel :
  (pages_per_partition <= overlap_pages)%Z ->
  (pages_per_partition < total_pages)%Z ->
  (1 <= total_pages)%Z ->
  make_chunks_fuel fuel total_pages pages_per_partition overlap_pages = None.
Proof.
  intros Ho Hp Ht. unfold make_chunks_fuel.
  apply loop_stuck; simpl; lia.
Qed.

Lemma make_chunks_diverges_witness :
  make_chunks_fuel 1000 10 4 4 = None.
Proof. apply (make_chunks_diverges 10 4 4 1000); lia. Defined.

(** The number of windows in a tiling that starts at page [s]. *)
Lemma tiling_length total_pages pages_per_partition stride s ws :
  (1 <= stride)%Z -> (stride <= pages_per_partition)%Z ->
  tiling total_pages pages_per_partition stride s ws ->
  (s <= total_pages)%Z ->
  Z.of_nat (length ws)
  = if (total_pages <=? s + pages_per_partition - 1)%Z then 1%Z
    else (1 + (total_pages - (s + pages_per_partition - 1) + stride - 1)
              / stride)%Z.
Proof.
  intros Hs1 Hs2.
  induction 1 as [s Hs | s id Hs | s id ws Hs Hws IH]; intros Hle.
  - lia.
  - destruct (Z.leb_spec total_pages (s + pages_per_partition - 1));
      [reflexivity | lia].
  - destruct (Z.leb_spec total_pages (s + pages_per_partition - 1)); [lia|].
    rewrite length_cons, Nat2Z.inj_succ, IH by lia.
    set (D := (total_pages - (s + pages_per_partition - 1))%Z) in *.
    destruct (Z.leb_spec total_pages (s + stride + pages_per_partition - 1)).
    + assert (HD : ((D + stride - 1) / stride = 1)%Z).
      { symmetry. apply (Z.div_unique _ _ 1 (D - 1)); lia. }
      rewrite HD. lia.
    + replace (total_pages - (s + stride + pages_per_partition - 1) + stride - 1)%Z
        with (D - 1)%Z by lia.
      replace (D + stride - 1)%Z with (D - 1 + 1 * stride)%Z by lia.
      rewrite Z.div_add by lia. lia.
Qed.

(** X3. Under the preconditions of the partitioner, a document of at
    least one page gives one window when it fits in a single window, and
    otherwise [1 + ceil((total_pages - pages_per_partition) / stride)]
    windows, with [stride = pages_per_partition - overlap_pages]. *)
Theorem make_chunks_count total_pages pages_per_partition overlap_pages :
  (1 <= total_pages)%Z ->
  (1 <= pages_per_partition)%Z ->
  (0 <= overlap_pages < pages_per_partition)%Z ->
  exists ws,
    make_chunks total_pages pages_per_partition overlap_pages = Some ws
    /\ Z.of_nat (length ws)
       = if (total_pages <=? pages_per_partition)%Z then 1%Z
         else (1 + (total_pages - pages_per_partition
                    + (pages_per_partition - overlap_pages) - 1)
                   / (pages_per_partition - overlap_pages))%Z.
Proof.
  intros Ht Hp Ho. unfold make_chunks, make_chunks_fuel.
  destruct (loop_tiling total_pages pages_per_partition
              (pages_per_partition - overlap_pages) ltac:(lia)
              (S (Z.to_nat total_pages)) (LoopState [] 1 1))
    as (ws & Hws & Htl); [simpl; lia|].
  simpl in Hws, Htl. exists ws. split; [exact Hws|].
  rewrite (tiling_length total_pages pages_per_partition
             (pages_per_partition - overlap_pages) 1 ws
             ltac:(lia) ltac:(lia) Htl) by lia.
  replace (1 + pages_per_partition - 1)%Z with pages_per_partition by lia.
  reflexivity.
Qed.

Lemma make_chunks_count_witness :
  exists ws,
    make_chunks 10 4 1 = Some ws
    /\ Z.of_nat (length ws)
       = if (10 <=? 4)%Z then 1%Z else (1 + (10 - 4 + (4 - 1) - 1) / (4 - 1))%Z.
Proof. apply (make_chunks_count 10 4 1); lia. Defined.

End RunUtilsMore.

(** ** More on the validator and normaliser *)

Module PostprocessMore.
Import Py PyTheory Postprocess PostprocessTheory PostprocessSpec ExplainTheory.

Lemma check_required_Ok keys q :
  check_required keys q = Ok tt <-> forall k, k ∈ keys -> dict_has k q = true.
Proof.
  induction keys as [|k keys IH]; simpl.
  - split; [intros _ k Hk; inversion Hk | reflexivity].
  - destruct (dict_has k q) eqn:Hk.
    + rewrite IH. split.
      * intros Hall k' Hk'. apply elem_of_cons in Hk' as [->|Hk']; auto.
      * intros Hall k' Hk'. apply Hall, list_elem_of_further, Hk'.
    + split; [discriminate|]. intros Hall.
      rewrite (Hall k (list_elem_of_here _ _)) in Hk. discriminate.
Qed.

Lemma check_correct_refer_Ok ids correct :
  Forall (fun cid => hashable cid = true) ids ->
  check_correct_refer ids correct = Ok tt <->
  Forall (fun cid => hashable cid = true /\ key_of cid ∈ key_of <$> ids) correct.
Proof.
  intros Hids. induction correct as [|c correct IH]; simpl.
  - split; [constructor | reflexivity].
  - destruct (hashable c) eqn:Hc; simpl.
    + destruct (py_mem c ids) eqn:Hm; simpl.
      * rewrite IH, Forall_cons. apply py_mem_key in Hm; [|exact Hc|exact Hids].
        tauto.
      * split; [discriminate|]. intros Hall. apply Forall_cons in Hall as [[_ Hin] _].
        apply py_mem_key in Hin; [congruence | exact Hc | exact Hids].
    + split; [discriminate|]. intros Hall.
      apply Forall_cons in Hall as [[Hh _] _]. congruence.
Qed.

(** The checks of the validation loop say what the data model says. *)
Lemma passes_valid qt cpq q : passes qt cpq q <-> valid_question qt cpq q.
Proof.
  unfold passes, valid_question. rewrite check_required_Ok. split.
  - intros (Hreq & Ht & ids & Hids & Hcor). split; [exact Hreq|].
    unfold get_default in Ht.
    destruct (dict_get "question_type" q) as [v|]; simpl in Ht; [|discriminate].
    apply py_eqb_str in Ht. subst v. split; [reflexivity|].
    apply check_choices_Ok in Hids as (cs & Hcs & Hlen & Hd & -> & Htr & Hh & Hnd).
    unfold check_correct in Hcor.
    destruct (dict_get "correct_choice_ids" q) as [[| | | |correct|]|];
      try discriminate.
    destruct (Nat.ltb_spec (length correct) 1); [discriminate|].
    exists cs, correct. split; [exact Hcs|]. split; [exact Hlen|].
    split.
    { rewrite Forall_fmap in Htr, Hh. rewrite Forall_forall in Hd, Htr, Hh.
      apply Forall_forall. intros c Hc.
      split; [exact (Hd c Hc)|]. split; [exact (Htr c Hc) | exact (Hh c Hc)]. }
    split; [exact Hnd|]. split; [reflexivity|]. split; [lia|].
    destruct (String.eqb_spec qt "MCQ") as [->|Hne]; simpl in Hcor.
    + destruct (Nat.eqb_spec (length correct) 1); simpl in Hcor; [|discriminate].
      split; [|auto]. apply check_correct_refer_Ok; assumption.
    + split; [|intros E; contradiction].
      apply check_correct_refer_Ok; assumption.
  - intros (Hreq & Hty & cs & correct & Hcs & Hlen & Hch & Hnd & Hco & Hc1 & Hmem & Hm).
    split; [exact Hreq|]. split.
    { unfold get_default, eq_str. rewrite Hty. simpl. apply String.eqb_refl. }
    exists (field "id" <$> cs). split.
    + apply check_choices_Ok. exists cs. split; [exact Hcs|]. split; [exact Hlen|].
      split; [eapply Forall_impl; [exact Hch|]; simpl; tauto|].
      split; [reflexivity|].
      split; [apply Forall_fmap; eapply Forall_impl; [exact Hch|]; simpl; tauto|].
      split; [apply Forall_fmap; eapply Forall_impl; [exact Hch|]; simpl; tauto|].
      exact Hnd.
    + unfold check_correct. rewrite Hco.
      destruct (Nat.ltb_spec (length correct) 1); [lia|].
      assert (Hids : Forall (fun cid => hashable cid = true) (field "id" <$> cs))
        by (apply Forall_fmap; eapply Forall_impl; [exact Hch|]; simpl; tauto).
      destruct (String.eqb_spec qt "MCQ") as [E|_]; simpl.
      * rewrite (Hm E). simpl. apply check_correct_refer_Ok; assumption.
      * apply check_correct_refer_Ok; assumption.
Qed.

(** X4. [postprocess_questions] returns a list, for any flags and draws,
    exactly when every input question satisfies the data-model invariants
    ([valid_question]); otherwise it raises. *)
Theorem postprocess_returns_iff_valid qs qt cpq rq ro g :
  (exists out g', postprocess_questions qs qt cpq rq ro g = Ok (out, g'))
  <-> Forall (valid_question qt cpq) qs.
Proof.
  split.
  - intros (out & g' & Hrun). apply postprocess_Ok in Hrun as (Hp & _).
    eapply Forall_impl; [exact Hp|]. intros q. apply passes_valid.
  - intros Hv.
    destruct (postprocess_returns qs qt cpq rq ro g) as (pre & g' & _ & Hrun).
    + eapply Forall_impl; [exact Hv|]. intros q. apply passes_valid.
    + eauto.
Qed.



Lemma dict_setdefault_get k v d :
  dict_get k (dict_setdefault k v d) = Some (get_default k v d).
Proof.
  unfold dict_setdefault, dict_has, get_default.
  destruct (dict_get k d) as [x|] eqn:E; simpl; [exact E|].
  apply dict_get_set_eq.
Qed.

Lemma carried_over_setdefault q :
  carried_over q (dict_setdefault "explanation" (VStr "") q).
Proof.
  split; [|apply dict_setdefault_get].
  intros k _ _ Hk. apply dict_setdefault_get_ne. congruence.
Qed.

Lemma carried_over_set q q' k v :
  k = "id" \/ k = "choices" ->
  carried_over q q' -> carried_over q (dict_set k v q').
Proof.
  intros Hk [Hsame Hexp]. split.
  - intros k' H1 H2 H3. rewrite dict_get_set_ne; [apply Hsame; assumption|].
    destruct Hk as [->| ->]; congruence.
  - rewrite dict_get_set_ne; [exact Hexp|].
    destruct Hk as [->| ->]; discriminate.
Qed.

(** X6. A returned list lines up with a reordering of the input (the input
    itself when [randomize_questions] is off) so that each returned
    question agrees with its source on every key other than ["id"],
    ["choices"] and ["explanation"], and its explanation is the source's,
    or the empty string when the source had none. With both flags off no
    random draw is taken. *)
Theorem postprocess_carries_over qs qt cpq rq ro g out g' :
  postprocess_questions qs qt cpq rq ro g = Ok (out, g') ->
  (exists qs1,
     qs1 ≡ₚ qs
     /\ (rq = false -> qs1 = qs)
     /\ Forall2 carried_over qs1 out)
  /\ (rq = false -> ro = false -> g' = g).
Proof.
  intros H. apply postprocess_Ok in H as (Hp & pre & Hpre & ->). split.
  - apply randomize_inv in Hpre as (qs1 & Hperm & Hrq & _ & Hset & _).
    exists qs1. split; [exact Hperm|]. split; [exact Hrq|].
    apply Forall2_same_length_lookup. split.
    + unfold numbered. rewrite length_imap.
      apply Forall2_length in Hset. rewrite <- Hset, length_fmap. reflexivity.
    + intros i q q' Hq Hq'.
      apply numbered_lookup in Hq' as (p & Hp_i & ->).
      assert (Hx : (dict_setdefault "explanation" (VStr "") <$> qs1) !! i
                   = Some (dict_setdefault "explanation" (VStr "") q))
        by (rewrite list_lookup_fmap, Hq; reflexivity).
      pose proof (Forall2_lookup_lr _ _ _ _ _ _ Hset Hx Hp_i) as Hxp.
      apply carried_over_set; [left; reflexivity|].
      destruct Hxp as [->|(cs & cs' & _ & _ & ->)].
      * apply carried_over_setdefault.
      * apply carried_over_set; [right; reflexivity|].
        apply carried_over_setdefault.
  - intros -> ->. unfold randomize in Hpre. congruence.
Qed.

Lemma postprocess_carries_over_witness :
  (exists qs1,
     qs1 ≡ₚ [Samples.mcq_a; Samples.mcq_b; Samples.mcq_c]
     /\ (true = false -> qs1 = [Samples.mcq_a; Samples.mcq_b; Samples.mcq_c])
     /\ Forall2 carried_over qs1 Samples.shuffled_out)
  /\ (true = false -> true = false -> Samples.shuffled_rng = Samples.tape).
Proof.
  apply (postprocess_carries_over
           [Samples.mcq_a; Samples.mcq_b; Samples.mcq_c] "MCQ" 3 true true
           Samples.tape Samples.shuffled_out Samples.shuffled_rng).
  vm_compute. reflexivity.
Defined.

(** X7. Whatever the list holds, every listed object ends with the id
    numbered by the last position at which it is listed, and two different
    objects of the returned list never carry the same id. *)
Theorem postprocess_ids_distinct refs s qt cpq rq ro g refs' s' g' :
  postprocess_objects refs s qt cpq rq ro g = Ok (refs', s', g') ->
  (forall r, r ∈ refs' ->
     exists k id,
       refs' !! k = Some r
       /\ (forall k', k < k' -> refs' !! k' <> Some r)
       /\ dict_get "id" (deref s' r) = Some (VStr id)
       /\ sequence_id (S k) id)
  /\ (forall r1 r2, r1 ∈ refs' -> r2 ∈ refs' -> r1 <> r2 ->
        dict_get "id" (deref s' r1) <> dict_get "id" (deref s' r2)).
Proof.
  unfold postprocess_objects. intros Hrun.
  apply bind_Ok in Hrun as ([[refs1 s2] g2] & _ & [= <- <- <-]).
  split.
  - intros r Hr.
    destruct (assign_ids_last refs1 1 s2 r Hr) as (k & Hk & Hlast & Hid).
    exists k, (question_id (S k)). split; [exact Hk|]. split; [exact Hlast|].
    split; [exact Hid | apply question_id_sequence].
  - intros r1 r2 H1 H2 Hne Heq.
    destruct (assign_ids_last refs1 1 s2 r1 H1) as (k1 & Hk1 & _ & Hid1).
    destruct (assign_ids_last refs1 1 s2 r2 H2) as (k2 & Hk2 & _ & Hid2).
    rewrite Hid1, Hid2 in Heq.
    assert (Hq : question_id (1 + k1) = question_id (1 + k2)) by congruence.
    apply question_id_inj in Hq.
    assert (k1 = k2) by lia. subst k2. congruence.
Qed.

Lemma postprocess_ids_distinct_witness :
  exists refs' s' g',
    postprocess_objects [0; 1; 0] MoreSamples.two_objects "MCQ" 3 false false []
    = Ok (refs', s', g')
    /\ (forall r, r ∈ refs' ->
          exists k id,
            refs' !! k = Some r
            /\ (forall k', k < k' -> refs' !! k' <> Some r)
            /\ dict_get "id" (deref s' r) = Some (VStr id)
            /\ sequence_id (S k) id)
    /\ (forall r1 r2, r1 ∈ refs' -> r2 ∈ refs' -> r1 <> r2 ->
          dict_get "id" (deref s' r1) <> dict_get "id" (deref s' r2))
    /\ dict_get "id" <$> contents s' refs'
       = [Some (VStr "q_0003"); Some (VStr "q_0002"); Some (VStr "q_0003")].
Proof.
  eexists _, _, _. split; [vm_compute; reflexivity|].
  split; [|split; [|vm_compute; reflexivity]].
  - apply (proj1 (postprocess_ids_distinct [0; 1; 0] MoreSamples.two_objects
                    "MCQ" 3 false false [] _ _ _
                    ltac:(vm_compute; reflexivity))).
  - apply (proj2 (postprocess_ids_distinct [0; 1; 0] MoreSamples.two_objects
                    "MCQ" 3 false false [] _ _ _
                    ltac:(vm_compute; reflexivity))).
Defined.

End PostprocessMore.

(** ** More on brace escaping *)

Module TextUtilsMore.
Import Py PyTheory TextUtils TextUtilsTheory.

Lemma escape_braces_cons a t :
  escape_braces (String a t)
  = if Ascii.eqb a "{" then String "{" (String "{" (escape_braces t))
    else if Ascii.eqb a "}" then String "}" (String "}" (escape_braces t))
    else String a (escape_braces t).
Proof.
  unfold escape_braces. simpl.
  destruct (Ascii.eqb_spec a "{") as [->|H1].
  - change ("{{" +:+ replace_char "{" "{{" t)
      with (String "{" (String "{" (replace_char "{" "{{" t))).
    reflexivity.
  - simpl. destruct (Ascii.eqb a "}"); reflexivity.
Qed.

Lemma escape_braces_fixed text :
  has_brace text = false -> escape_braces text = text.
Proof.
  unfold has_brace. induction text as [|a t IH]; [reflexivity|].
  simpl. rewrite escape_braces_cons.
  destruct (Ascii.eqb a "{"); [discriminate|].
  destruct (Ascii.eqb a "}"); [discriminate|]. simpl.
  intros Ht. rewrite IH; [reflexivity | exact Ht].
Qed.

(** X8. [escape_braces] leaves a text unchanged exactly when the text has
    no curly brace; in general it adds one character for every brace. *)
Theorem escape_braces_effect text :
  (escape_braces text = text <-> has_brace text = false)
  /\ String.length (escape_braces text)
     = String.length text + count_char "{" text + count_char "}" text.
Proof.
  split; [|apply escape_braces_length]. split.
  - intros Heq. destruct (has_brace text) eqn:Hb; [|reflexivity].
    exfalso. exact (escape_braces_changes text Hb Heq).
  - apply escape_braces_fixed.
Qed.

Section Rendering.
Context `{Runtime}.

Lemma format_scan_escaped kwargs text :
  format_scan kwargs Literal (escape_braces text) = Some (Ok text).
Proof.
  induction text as [|a t IH]; [reflexivity|].
  rewrite escape_braces_cons.
  destruct (Ascii.eqb_spec a "{") as [->|H1].
  - simpl. rewrite IH. reflexivity.
  - destruct (Ascii.eqb_spec a "}") as [->|H2].
    + simpl. rewrite IH. reflexivity.
    + simpl.
      destruct (Ascii.eqb_spec a "{"); [contradiction|].
      destruct (Ascii.eqb_spec a "}"); [contradiction|].
      rewrite IH. reflexivity.
Qed.

(** X9. An escaped text is a template that renders to the text itself:
    [escape_braces(text).format(...)] is [text], whatever the keyword
    arguments, and never raises. *)
Theorem escaped_text_renders_to_itself text kwargs :
  py_format (escape_braces text) kwargs = Ok text.
Proof. unfold py_format. rewrite format_scan_escaped. reflexivity. Qed.

End Rendering.

End TextUtilsMore.

(** ** More on the generation driver *)

Module GenerateMore.
Import Py PyTheory TextUtils RunUtils MockLlm LlmSchemas Generate GenerateSpec.
Import Postprocess PostprocessTheory PostprocessSpec PostprocessMore.

(** X10. The correct-choice counts drawn for a SATA prompt: one for each
    question of the partition, each between 1 and [choices_per_q], using
    up one draw apiece. *)
Theorem sata_counts_in_range n choices_per_q g xs g' :
  (1 <= choices_per_q)%Z ->
  draw_counts n choices_per_q g = (xs, g') ->
  length xs = n
  /\ Forall (fun x => (1 <= x <= choices_per_q)%Z) xs
  /\ g' = drop n g.
Proof.
  intros Hc. revert g xs g'.
  induction n as [|n IH]; intros g xs g'; simpl.
  - intros [= <- <-]. split; [reflexivity|]. split; [constructor|].
    rewrite drop_0. reflexivity.
  - unfold randint.
    destruct (randbelow (Z.to_nat (choices_per_q - 1 + 1)) g) as [r g1] eqn:Hr.
    destruct (draw_counts n choices_per_q g1) as [ys g2] eqn:Hd.
    intros [= <- <-].
    destruct (IH g1 ys g2 Hd) as (Hlen & Hall & Hg).
    assert (Hb : r < Z.to_nat (choices_per_q - 1 + 1) /\ g1 = drop 1 g).
    { unfold randbelow in Hr. destruct g as [|x g]; injection Hr as <- <-.
      - split; [lia | reflexivity].
      - split; [apply Nat.mod_upper_bound; lia | reflexivity]. }
    destruct Hb as [Hb ->].
    split; [simpl; lia|]. split.
    + constructor; [lia | exact Hall].
    + rewrite Hg, drop_drop. f_equal.
Qed.

Lemma sata_counts_in_range_witness :
  length [1; 2]%Z = 2
  /\ Forall (fun x => (1 <= x <= 3)%Z) [1; 2]%Z
  /\ [1; 3; 4; 2; 8; 6; 0; 9] = drop 2 Samples.tape.
Proof.
  apply (sata_counts_in_range 2 3 Samples.tape [1; 2]%Z
           [1; 3; 4; 2; 8; 6; 0; 9]).
  - lia.
  - vm_compute. reflexivity.
Defined.

Section WithRuntime.
Context `{Runtime}.

Lemma generate_attempts_bound attempts prompt : forall n r n',
  generate_attempts attempts prompt n = (r, n') ->
  n <= n' <= n + attempts
  /\ (r = None -> n' = n + attempts)
  /\ (r <> None -> n < n').
Proof.
  induction attempts as [|a IH]; intros n r n'; simpl.
  - intros [= <- <-]. split; [lia|]. split; [lia | congruence].
  - destruct (call_responses_structured prompt n) as [data|e].
    + intros [= <- <-]. split; [lia|]. split; [discriminate | lia].
    + intros Hr. destruct (IH _ _ _ Hr) as (Hb & Hn & Hs).
      split; [lia|]. split.
      * intros E. specialize (Hn E). lia.
      * intros E. specialize (Hs E). lia.
Qed.

(** X11. A chunk with fewer than two choices per question is refused with
    the schema's [ValueError], whatever the prompts, the attempt budget
    and the model are. *)
Theorem generation_refuses_small_choice_count c cfg files chunk_text retries g n :
  (choices_per_question cfg < 2)%Z ->
  llm_generate_questions_for_chunk c cfg files chunk_text retries g n
  = Raise (ValueError "choices_per_question must be >= 2").
Proof.
  intros Hc. unfold llm_generate_questions_for_chunk, generator_prompt,
    generation_schema.
  destruct (Z.ltb_spec (choices_per_question cfg) 2); [reflexivity | lia].
Qed.

(** X12. With an attempt budget below 1 the retry loop never runs: once
    the prompt has rendered, the function raises [TypeError] (it subscripts
    [data], still [None]) without calling the model; it does not return
    the empty list. *)
Theorem generation_without_attempts_raises c cfg files chunk_text retries g n
    prompt g' :
  (retries < 1)%Z ->
  generator_prompt cfg files chunk_text g = Ok (prompt, g') ->
  llm_generate_questions_for_chunk c cfg files chunk_text retries g n
  = Raise TypeError.
Proof.
  intros Hr Hp. unfold llm_generate_questions_for_chunk. rewrite Hp. simpl.
  replace (Z.to_nat retries) with 0 by lia. simpl.
  destruct (Z.ltb_spec retries 1); [reflexivity | lia].
Qed.

(** X13. When the function returns, it has called the model at least once
    and at most [retries] times, and the random state it leaves is the one
    after the SATA counts were drawn: the replies have no part in it, and
    for any other question type it is the state the call started from. *)
Theorem generation_call_budget c cfg files chunk_text retries g n out g' n' :
  llm_generate_questions_for_chunk c cfg files chunk_text retries g n
  = Ok (out, g', n') ->
  n + 1 <= n' <= n + Z.to_nat retries
  /\ g' = (correct_counts_note (question_type cfg) (choices_per_question cfg)
             (questions_per_partition cfg) g).2
  /\ (question_type cfg <> "SATA" -> g' = g).
Proof.
  unfold llm_generate_questions_for_chunk. intros Hrun.
  apply bind_Ok in Hrun as ([prompt g1] & Hp & Hrun).
  assert (Hg : g1 = (correct_counts_note (question_type cfg)
                       (choices_per_question cfg)
                       (questions_per_partition cfg) g).2).
  { unfold generator_prompt in Hp.
    apply bind_Ok in Hp as (name & _ & Hp).
    destruct (correct_counts_note _ _ _ g) as [note g2].
    apply bind_Ok in Hp as (p & _ & [= _ <-]). reflexivity. }
  destruct (generate_attempts (Z.to_nat retries) prompt n) as [[data|] m] eqn:Ha.
  - apply bind_Ok in Hrun as (o & _ & [= <- <- <-]).
    destruct (generate_attempts_bound _ _ _ _ _ Ha) as (Hb & _ & Hs).
    specialize (Hs ltac:(discriminate)).
    split; [lia|]. split; [exact Hg|].
    intros Hne. rewrite Hg. unfold correct_counts_note.
    destruct (String.eqb_spec (question_type cfg) "SATA"); [contradiction|].
    reflexivity.
  - destruct (Z.ltb_spec retries 1); [discriminate|].
    injection Hrun as <- <- <-.
    destruct (generate_attempts_bound _ _ _ _ _ Ha) as (Hb & Hn & _).
    specialize (Hn eq_refl).
    split; [lia|]. split; [exact Hg|].
    intros Hne. rewrite Hg. unfold correct_counts_note.
    destruct (String.eqb_spec (question_type cfg) "SATA"); [contradiction|].
    reflexivity.
Qed.

End WithRuntime.

Lemma generation_refuses_small_choice_count_witness :
  @llm_generate_questions_for_chunk (Samples.runtime Samples.answering)
    (Chunk "chunk_001" 1 4) (GenerationCfg "MCQ" 1 2) Samples.files
    "Some text." 3 Samples.tape 0
  = Raise (ValueError "choices_per_question must be >= 2").
Proof.
  apply (@generation_refuses_small_choice_count
           (Samples.runtime Samples.answering)).
  simpl. lia.
Defined.

Lemma generation_without_attempts_raises_witness :
  @llm_generate_questions_for_chunk (Samples.runtime Samples.answering)
    (Chunk "chunk_001" 1 4) (GenerationCfg "SATA" 3 2) Samples.files
    "Sets are written {1, 2}." 0 Samples.tape 0
  = Raise TypeError.
Proof.
  apply (@generation_without_attempts_raises
           (Samples.runtime Samples.answering)
           (Chunk "chunk_001" 1 4) (GenerationCfg "SATA" 3 2) Samples.files
           "Sets are written {1, 2}." 0 Samples.tape 0
           Samples.generator_prompt_text [1; 3; 4; 2; 8; 6; 0; 9]).
  - lia.
  - vm_compute. reflexivity.
Defined.

Lemma generation_call_budget_witness :
  0 + 1 <= 3 <= 0 + Z.to_nat 3
  /\ [1; 3; 4; 2; 8; 6; 0; 9]
     = (correct_counts_note "SATA" 3 2 Samples.tape).2
  /\ ("SATA" <> "SATA" -> [1; 3; 4; 2; 8; 6; 0; 9] = Samples.tape).
Proof.
  apply (@generation_call_budget (Samples.runtime Samples.failing)
           (Chunk "chunk_001" 1 4) (GenerationCfg "SATA" 3 2) Samples.files
           "Sets are written {1, 2}." 3 Samples.tape 0 []).
  vm_compute. reflexivity.
Defined.

End GenerateMore.

(** ** Replies that conform to the schema *)

Module SchemaTheory.
Import Py PyTheory TextUtils RunUtils MockLlm LlmSchemas Generate GenerateSpec.
Import Postprocess PostprocessTheory PostprocessSpec PostprocessMore.

Lemma closed_object_inv props v :
  closed_object props v = true ->
  exists d, v = VDict d
    /\ forall k p, (k, p) ∈ props ->
         exists x, dict_get k d = Some x /\ p x = true.
Proof.
  destruct v as [| | | | |d]; try discriminate. simpl.
  intros Hc. apply andb_true_iff in Hc as [_ Hc].
  exists d. split; [reflexivity|]. intros k p Hin.
  rewrite forallb_forall in Hc.
  specialize (Hc (k, p)). simpl in Hc.
  destruct (dict_get k d) as [x|].
  - exists x. split; [reflexivity|]. apply Hc.
    apply list_elem_of_In. exact Hin.
  - assert (false = true) by (apply Hc, list_elem_of_In; exact Hin).
    discriminate.
Qed.

Lemma array_of_inv min_items max_items item v :
  array_of min_items max_items item v = true ->
  exists l, v = VList l
    /\ (min_items <= Z.of_nat (length l))%Z
    /\ (forall m, max_items = Some m -> (Z.of_nat (length l) <= m)%Z)
    /\ Forall (fun x => item x = true) l.
Proof.
  destruct v as [| | | |l|]; try discriminate. simpl.
  intros Ha. apply andb_true_iff in Ha as [Ha Hitems].
  apply andb_true_iff in Ha as [Hmin Hmax].
  exists l. split; [reflexivity|]. split; [lia|]. split.
  - intros m ->. lia.
  - apply Forall_forall. intros x Hx. rewrite forallb_forall in Hitems.
    apply Hitems, list_elem_of_In, Hx.
Qed.

Lemma nonempty_string_inv v :
  nonempty_string v = true -> exists s, v = VStr s /\ s <> "".
Proof.
  destruct v as [| | |s| |]; try discriminate. simpl.
  intros Hs. exists s. split; [reflexivity|].
  intros ->. discriminate.
Qed.

Lemma choice_schema_inv c :
  choice_schema c = true ->
  is_dict c = true /\ truthy (field "id" c) = true
  /\ hashable (field "id" c) = true.
Proof.
  intros Hc. apply closed_object_inv in Hc as (d & -> & Hp).
  destruct (Hp "id" nonempty_string ltac:(repeat constructor)) as (x & Hx & Hs).
  apply nonempty_string_inv in Hs as (s & -> & Hne).
  split; [reflexivity|]. unfold field, get_default. rewrite Hx. simpl.
  split; [|reflexivity].
  destruct (String.eqb_spec s ""); [contradiction | reflexivity].
Qed.

Lemma wrap_question_conforming qt cid cpq q :
  question_schema cpq q = true ->
  exists w, wrap_question qt cid q = Ok w /\ wrapped qt cid cpq w.
Proof.
  intros Hq. apply closed_object_inv in Hq as (d & -> & Hp).
  destruct (Hp "stem" _ ltac:(repeat constructor)) as (stem & Hstem & _).
  destruct (Hp "choices" _ ltac:(repeat constructor)) as (x & Hx & Hcs).
  destruct (Hp "correct_choice_ids" _ ltac:(repeat constructor))
    as (y & Hy & Hco).
  apply array_of_inv in Hcs as (choices & -> & Hmin & Hmax & Hcs).
  apply array_of_inv in Hco as (correct & -> & Hmin' & _ & Hco).
  specialize (Hmax _ eq_refl).
  eexists. split.
  - unfold wrap_question, subscript. rewrite Hstem, Hx, Hy. reflexivity.
  - exists stem, choices, correct. split; [reflexivity|].
    split; [lia|]. split.
    + eapply Forall_impl; [exact Hcs|]. intros c. apply choice_schema_inv.
    + split; [lia|]. eapply Forall_impl; [exact Hco|]. simpl.
      intros v Hv. apply nonempty_string_inv in Hv as (s & -> & _).
      reflexivity.
Qed.

Lemma wrapped_well_shaped qt cid cpq w :
  wrapped qt cid cpq w -> well_shaped w.
Proof.
  intros (stem & choices & correct & -> & _ & Hcs & _ & Hco). split.
  - intros cs [= <-]. eapply Forall_impl; [exact Hcs|]. simpl. tauto.
  - intros co [= <-]. exact Hco.
Qed.

Lemma wrapped_valid qt cid cpq w :
  wrapped qt cid cpq w ->
  valid_question qt cpq w <-> consistent_key qt w.
Proof.
  intros (stem & choices & correct & -> & Hlen & Hcs & H1 & Hco).
  unfold valid_question, consistent_key. split.
  - intros (_ & _ & cs & co & [= <-] & _ & _ & Hnd & [= <-] & _ & Hmem & Hm).
    exists choices, correct. split; [reflexivity|]. split; [reflexivity|].
    split; [exact Hnd|]. split; [|exact Hm].
    eapply Forall_impl; [exact Hmem|]. simpl. tauto.
  - intros (cs & co & [= <-] & [= <-] & Hnd & Hmem & Hm). split.
    { intros k Hk. unfold required_keys in Hk.
      repeat (apply elem_of_cons in Hk as [->|Hk]; [reflexivity|]).
      inversion Hk. }
    split; [reflexivity|].
    exists choices, correct. split; [reflexivity|]. split; [exact Hlen|].
    split; [exact Hcs|]. split; [exact Hnd|]. split; [reflexivity|].
    split; [exact H1|]. split; [|exact Hm].
    rewrite Forall_forall in Hco, Hmem. apply Forall_forall.
    intros v Hv. split; [exact (Hco v Hv) | exact (Hmem v Hv)].
Qed.

Lemma wrap_all_conforming qt cid cpq items :
  Forall (fun q => question_schema cpq q = true) items ->
  exists out,
    mapM (wrap_question qt cid) items = Ok out
    /\ length out = length items
    /\ Forall (wrapped qt cid cpq) out.
Proof.
  induction 1 as [|q items Hq _ (out & Hout & Hlen & Hall)].
  - exists []. split; [reflexivity|]. split; [reflexivity | constructor].
  - destruct (wrap_question_conforming qt cid cpq q Hq) as (w & Hw & Hwr).
    exists (w :: out). simpl. rewrite Hw. simpl. rewrite Hout. simpl.
    split; [reflexivity|]. split; [simpl; lia|]. constructor; assumption.
Qed.

(** X14. A reply that conforms to the generation schema is wrapped without
    error into at least one draft question, and postprocessing the drafts
    never fails for their shape: it returns exactly when every draft has
    pairwise different choice ids, correct ids among them, and a single
    correct id for MCQ; when one has not, it raises [ValueError]. *)
Theorem conforming_reply_postprocess qt cid cpq data :
  conforms cpq data = true ->
  exists out,
    wrap_questions qt cid data = Ok out
    /\ 1 <= length out
    /\ forall rq ro g,
         match postprocess_questions out qt cpq rq ro g with
         | Ok _ => Forall (consistent_key qt) out
         | Raise e => is_ValueError e /\ ~ Forall (consistent_key qt) out
         end.
Proof.
  intros Hc. apply closed_object_inv in Hc as (d & -> & Hp).
  destruct (Hp "questions" _ ltac:(repeat constructor)) as (x & Hx & Harr).
  apply array_of_inv in Harr as (items & -> & Hmin & _ & Hitems).
  destruct (wrap_all_conforming qt cid cpq items Hitems)
    as (out & Hout & Hlen & Hall).
  exists out. split.
  { unfold wrap_questions, subscript. rewrite Hx. simpl. exact Hout. }
  split; [lia|]. intros rq ro g.
  assert (Hiff : Forall (passes qt cpq) out <-> Forall (consistent_key qt) out).
  { rewrite !Forall_forall. split; intros Hq w Hw.
    - rewrite Forall_forall in Hall.
      apply (wrapped_valid _ _ _ _ (Hall w Hw)), passes_valid, Hq, Hw.
    - rewrite Forall_forall in Hall.
      apply passes_valid, (wrapped_valid _ _ _ _ (Hall w Hw)), Hq, Hw. }
  destruct (postprocess_questions out qt cpq rq ro g) as [[res g']|e] eqn:Hrun.
  - apply postprocess_Ok in Hrun as [Hpass _]. apply Hiff, Hpass.
  - assert (Hno : ~ Forall (consistent_key qt) out).
    { intros Hcons. apply Hiff in Hcons.
      destruct (postprocess_returns out qt cpq rq ro g Hcons)
        as (pre & g' & _ & Hok).
      congruence. }
    split; [|exact Hno].
    rewrite postprocess_questions_by_value in Hrun.
    unfold postprocess_by_value in Hrun.
    destruct (validate qt cpq out) as [v|e0] eqn:Hv.
    + exfalso. apply Hno, Hiff. apply validate_Ok in Hv as [Hpass _].
      exact Hpass.
    + simpl in Hrun. injection Hrun as <-.
      apply mapM_Raise_inv in Hv as (w & Hw & Hraise).
      rewrite Forall_forall in Hall.
      eapply validate_question_ValueError; [|exact Hraise].
      eapply wrapped_well_shaped, Hall, Hw.
Qed.

Lemma conforming_reply_postprocess_witness :
  exists out,
    wrap_questions "MCQ" "chunk_001" repeated_id_reply = Ok out
    /\ 1 <= length out
    /\ forall rq ro g,
         match postprocess_questions out "MCQ" 2 rq ro g with
         | Ok _ => Forall (consistent_key "MCQ") out
         | Raise e => is_ValueError e /\ ~ Forall (consistent_key "MCQ") out
         end.
Proof.
  apply (conforming_reply_postprocess "MCQ" "chunk_001" 2 repeated_id_reply).
  reflexivity.
Defined.

End SchemaTheory.

(** ** More on the enrichment flow *)

Module ExplainMore.
Import Py PyTheory TextUtils Explain ExplainTheory ExplainSpec.

(** *** The lettering *)

Lemma py_chr_letter (i : nat) : i < 26 -> py_chr (65 + Z.of_nat i) = Ok (letter i).
Proof.
  intros Hi. unfold py_chr, letter.
  destruct (Z.ltb_spec (65 + Z.of_nat i) 0); [lia|].
  destruct (Z.ltb_spec 1114111 (65 + Z.of_nat i)); [lia|]. simpl.
  destruct (Z.ltb_spec (65 + Z.of_nat i) 128); [reflexivity | lia].
Qed.

(** [c.get("id", "")] and [c.get("id")] are both empty or the same. *)
Lemma id_or_empty d :
  truthy (get_default "id" (VStr "") d) = truthy (get_default "id" VNone d)
  /\ (truthy (get_default "id" VNone d) = true ->
      get_default "id" (VStr "") d = get_default "id" VNone d).
Proof.
  unfold get_default. destruct (dict_get "id" d); simpl; auto.
  split; [reflexivity | discriminate].
Qed.

Lemma letters_by_id_spec cs : forall (j : nat) acc,
  j + length cs <= 26 ->
  Forall (fun c => is_dict c = true /\ hashable (field "id" c) = true) cs ->
  exists t,
    letters_by_id (Z.of_nat j) cs acc = Ok t
    /\ forall k,
         table_get k t
         = match last_position k (field "id" <$> cs) with
           | Some i => Some (letter (j + i))
           | None => table_get k acc
           end.
Proof.
  induction cs as [|c cs IH]; intros j acc Hlen Hall.
  - exists acc. split; [reflexivity|]. intros k. reflexivity.
  - apply Forall_cons in Hall as [[Hd Hh] Hall].
    destruct c as [| | | | |d]; try discriminate. simpl in Hh, Hlen.
    destruct (id_or_empty d) as [Ht Heq].
    destruct (IH (S j) (if truthy (get_default "id" VNone d)
                        then table_set (get_default "id" VNone d) (letter j) acc
                        else acc) ltac:(lia) Hall) as (t & Hrun & Hget).
    exists t. split.
    + simpl. rewrite Ht.
      destruct (truthy (get_default "id" VNone d)) eqn:Htr.
      * rewrite (Heq eq_refl), py_chr_letter by lia. simpl. rewrite Hh.
        replace (Z.of_nat j + 1)%Z with (Z.of_nat (S j)) by lia. exact Hrun.
      * replace (Z.of_nat j + 1)%Z with (Z.of_nat (S j)) by lia. exact Hrun.
    + intros k. rewrite Hget. rewrite fmap_cons. simpl.
      destruct (last_position k (field "id" <$> cs)) as [i|].
      * do 2 f_equal. lia.
      * destruct (truthy (get_default "id" VNone d)); simpl; [|reflexivity].
        destruct (py_eqb (get_default "id" VNone d) k) eqn:E.
        -- rewrite table_get_set_eq by exact E. do 2 f_equal. lia.
        -- apply table_get_set_ne. exact E.
Qed.

Section WithRuntime.
Context `{Runtime}.

Lemma letter_lines_spec cs : forall (j : nat),
  j + length cs <= 26 ->
  Forall (fun c => is_dict c = true) cs ->
  letter_lines (Z.of_nat j) cs
  = Ok (imap (fun i c => letter (j + i) +:+ ". " +:+ py_str (text_of c)) cs).
Proof.
  induction cs as [|c cs IH]; intros j Hlen Hall; [reflexivity|].
  apply Forall_cons in Hall as [Hd Hall].
  destruct c as [| | | | |d]; try discriminate. simpl in Hlen.
  simpl. rewrite py_chr_letter by lia. simpl.
  replace (Z.of_nat j + 1)%Z with (Z.of_nat (S j)) by lia.
  rewrite IH by (assumption || lia). simpl.
  rewrite Nat.add_0_r. do 2 f_equal.
  apply imap_ext. intros i x _. simpl. do 2 f_equal. lia.
Qed.

(** X15. Both parts of the prompt use one lettering. For up to 26 choice
    dicts with hashable ids, [format_choices_with_letters] labels the
    choices A, B, C, ... in their current order, and
    [format_correct_letters] writes, for each correct id, the label of the
    last choice that carries this id, or a question mark when no choice
    with a non-empty id does. *)
Theorem letters_follow_choice_order cs correct :
  length cs <= 26 ->
  Forall (fun c => is_dict c = true /\ hashable (field "id" c) = true) cs ->
  Forall (fun cid => hashable cid = true) correct ->
  format_choices_with_letters (VList cs)
  = Ok (join nl (imap (fun i c => letter i +:+ ". " +:+ py_str (text_of c)) cs))
  /\ format_correct_letters (VList cs) (VList correct)
     = Ok (join ", " (letter_of (field "id" <$> cs) <$> correct)).
Proof.
  intros Hlen Hcs Hco. split.
  - unfold format_choices_with_letters. simpl.
    change (letter_lines 0 cs) with (letter_lines (Z.of_nat 0) cs).
    rewrite (letter_lines_spec cs 0) by
      first [simpl; lia | eapply Forall_impl; [exact Hcs | simpl; tauto]].
    reflexivity.
  - unfold format_correct_letters. simpl.
    destruct (letters_by_id_spec cs 0 [] ltac:(simpl; lia) Hcs)
      as (t & Hrun & Hget).
    change (letters_by_id 0 cs []) with (letters_by_id (Z.of_nat 0) cs []).
    rewrite Hrun. simpl.
    assert (Hmap : mapM (fun cid => if hashable cid
                                    then Ok (default "?" (table_get cid t))
                                    else Raise TypeError) correct
                   = Ok (letter_of (field "id" <$> cs) <$> correct)).
    { apply mapM_Ok. induction Hco as [|cid correct Hh _ IH]; [constructor|].
      rewrite fmap_cons. constructor; [|exact IH].
      rewrite Hh, Hget. unfold letter_of.
      destruct (last_position cid (field "id" <$> cs)); reflexivity. }
    rewrite Hmap. reflexivity.
Qed.

Lemma explain_attempts_bound attempts prompt : forall n r n',
  explain_attempts attempts prompt n = (r, n') ->
  (r = None -> n' = n + attempts)
  /\ (r <> None -> n < n' <= n + attempts).
Proof.
  induction attempts as [|a IH]; intros n r n'; simpl.
  - intros [= <- <-]. split; [lia | congruence].
  - destruct (call_responses_text prompt n) as [text|].
    + intros [= <- <-]. split; [discriminate | lia].
    + intros Hr. destruct (IH _ _ _ Hr) as (Hn & Hs). split.
      * intros E. specialize (Hn E). lia.
      * intros E. specialize (Hs E). lia.
Qed.

(** What one id adds to the counters and to the call count. *)
Lemma explain_one_counts template retries by_id st qid st' :
  explain_one template retries by_id st qid = Ok st' ->
  exists du dm df,
    tally st' = Counts (updated (tally st) + du)
                  (skipped_missing (tally st) + dm)
                  (skipped_failed (tally st) + df)
    /\ du + dm + df = 1
    /\ calls st + du + df * Z.to_nat retries <= calls st'
    /\ calls st' <= calls st + (du + df) * Z.to_nat retries.
Proof.
  unfold explain_one.
  destruct (find_question by_id (questions st) qid) as [[i q]|].
  - intros H0. apply bind_Ok in H0 as (prompt & _ & H0).
    destruct (explain_attempts (Z.to_nat retries) prompt (calls st))
      as [[text|] n] eqn:Ha;
      destruct (explain_attempts_bound _ _ _ _ _ Ha) as (Hn & Hs);
      injection H0 as <-; simpl.
    + specialize (Hs ltac:(discriminate)).
      exists 1, 0, 0. rewrite !Nat.add_0_r, Nat.add_1_r.
      split; [reflexivity|]. lia.
    + specialize (Hn eq_refl).
      exists 0, 0, 1. rewrite !Nat.add_0_r, Nat.add_1_r.
      split; [reflexivity|]. lia.
  - intros [= <-]. simpl. exists 0, 1, 0.
    rewrite !Nat.add_0_r, Nat.add_1_r. split; [reflexivity|]. lia.
Qed.

Lemma explain_all_counts template retries by_id wrong : forall st st',
  explain_all template retries by_id st wrong = Ok st' ->
  exists du dm df,
    tally st' = Counts (updated (tally st) + du)
                  (skipped_missing (tally st) + dm)
                  (skipped_failed (tally st) + df)
    /\ du + dm + df = length wrong
    /\ calls st + du + df * Z.to_nat retries <= calls st'
    /\ calls st' <= calls st + (du + df) * Z.to_nat retries.
Proof.
  induction wrong as [|qid wrong IH]; intros st st'; simpl.
  - intros [= <-]. exists 0, 0, 0. rewrite !Nat.add_0_r.
    destruct (tally st). split; [reflexivity|]. simpl. lia.
  - intros H0. apply bind_Ok in H0 as (st1 & H1 & H2).
    destruct (explain_one_counts _ _ _ _ _ _ H1) as (du & dm & df & E1 & S1 & L1 & U1).
    destruct (IH _ _ H2) as (du' & dm' & df' & E2 & S2 & L2 & U2).
    exists (du + du'), (dm + dm'), (df + df').
    rewrite E2, E1. simpl. rewrite !Nat.add_assoc.
    split; [reflexivity|]. split; [lia|]. split; nia.
Qed.

(** X16. When the enrichment returns, every id of [wrong_ids] has been
    counted exactly once, as updated, missing or failed; the model was
    called at least once for each updated id and [retries] times for each
    failed one, and never more than [retries] times for any of them. *)
Theorem enrichment_counts_add_up output wrong_ids template retries n out c n' :
  add_explanations_for_wrong_questions output wrong_ids template retries n
    = Ok (out, c, n') ->
  updated c + skipped_missing c + skipped_failed c = length wrong_ids
  /\ n + updated c + skipped_failed c * Z.to_nat retries <= n'
  /\ n' <= n + (updated c + skipped_failed c) * Z.to_nat retries.
Proof.
  unfold add_explanations_for_wrong_questions. intros H0.
  apply bind_Ok in H0 as ([qs by_id] & _ & H0).
  apply bind_Ok in H0 as (st & Hall & [= <- <- <-]).
  apply explain_all_counts in Hall as (du & dm & df & -> & Hs & Hl & Hu).
  simpl in *. lia.
Qed.

Lemma explain_all_unknown template retries by_id wrong : forall st,
  Forall (fun qid => find_question by_id (questions st) qid = None) wrong ->
  explain_all template retries by_id st wrong
  = Ok (note_missing (length wrong) st).
Proof.
  induction wrong as [|qid wrong IH]; intros st Hall; simpl.
  - rewrite note_missing_0. reflexivity.
  - apply Forall_cons in Hall as [Hq Hall].
    rewrite (explain_one_missing _ _ _ _ _ Hq). simpl.
    rewrite explain_all_note_missing, (IH st Hall).
    rewrite note_missing_S. reflexivity.
Qed.

Lemma store_questions_loaded output qs by_id :
  load output = Ok (qs, by_id) -> store_questions output qs = output.
Proof.
  intros Hl. apply load_Ok in Hl as (d & -> & Hit & _).
  unfold store_questions, get_default in *.
  destruct (dict_get "questions" d) as [[| | | |l|]|] eqn:E; try reflexivity.
  simpl in Hit. injection Hit as <-.
  rewrite (dict_set_id _ _ _ E). reflexivity.
Qed.

(** X17. With no id to explain, or only ids that name no question, the
    enrichment hands back the loaded output as it is, counts every id as
    missing and never calls the model; it raises only if loading does. *)
Theorem enrichment_without_known_ids output wrong_ids template retries n :
  (forall qid, qid ∈ wrong_ids -> is_known output qid = false) ->
  add_explanations_for_wrong_questions output wrong_ids template retries n
  = match load output with
    | Ok _ => Ok (output, Counts 0 (length wrong_ids) 0, n)
    | Raise e => Raise e
    end.
Proof.
  intros Hunk. unfold add_explanations_for_wrong_questions.
  destruct (load output) as [[qs by_id]|e] eqn:Hl; [|reflexivity]. simpl.
  rewrite explain_all_unknown.
  - simpl. rewrite (store_questions_loaded _ _ _ Hl). reflexivity.
  - apply Forall_forall. intros qid Hq. specialize (Hunk qid Hq).
    unfold is_known in Hunk. rewrite Hl in Hunk. simpl.
    destruct (find_question by_id qs qid); [discriminate | reflexivity].
Qed.

End WithRuntime.

Lemma letters_follow_choice_order_witness :
  @format_choices_with_letters (Samples.runtime Samples.answering)
    (VList lettered_choices)
  = Ok (join nl
          (imap (fun i c => letter i +:+ ". "
                            +:+ @py_str (Samples.runtime Samples.answering)
                                  (text_of c))
             lettered_choices))
  /\ format_correct_letters (VList lettered_choices)
       (VList [VStr "c1"; VStr "c9"])
     = Ok (join ", " (letter_of (field "id" <$> lettered_choices)
                        <$> [VStr "c1"; VStr "c9"])).
Proof.
  apply (@letters_follow_choice_order (Samples.runtime Samples.answering)).
  - simpl. lia.
  - repeat constructor.
  - repeat constructor.
Defined.

Lemma enrichment_counts_add_up_witness :
  1 + 1 + 0 = length ["q_0001"; "q_9999"]
  /\ 0 + 1 + 0 * Z.to_nat 3 <= 1
  /\ 1 <= 0 + (1 + 0) * Z.to_nat 3.
Proof.
  apply (@enrichment_counts_add_up (Samples.runtime Samples.answering)
           Samples.output ["q_0001"; "q_9999"] Samples.explain_template 3 0
           Samples.enriched (Counts 1 1 0) 1).
  vm_compute. reflexivity.
Defined.

Lemma enrichment_without_known_ids_witness :
  @add_explanations_for_wrong_questions (Samples.runtime Samples.answering)
    Samples.output ["q_9999"; "nope"] Samples.explain_template 3 0
  = match load Samples.output with
    | Ok _ => Ok (Samples.output, Counts 0 (length ["q_9999"; "nope"]) 0, 0)
    | Raise e => Raise e
    end.
Proof.
  apply (@enrichment_without_known_ids (Samples.runtime Samples.answering)).
  intros qid Hq.
  apply elem_of_cons in Hq as [->|Hq]; [reflexivity|].
  apply elem_of_cons in Hq as [->|Hq]; [reflexivity|].
  inversion Hq.
Defined.

End ExplainMore.

(** ** The run as a whole *)

Module PipelineTheory.
Import Py PyTheory RunUtils Postprocess PostprocessTheory MockLlm MockLlmTheory.
Import Generate RetryTheory Pages Pipeline.

Lemma Forall2_fmap_eq {A B C} (R : A -> B -> Prop) (f : A -> C) (h : B -> C) l l' :
  Forall2 R l l' -> (forall x y, R x y -> f x = h y) -> f <$> l = h <$> l'.
Proof.
  intros HR Hfh. induction HR as [|x y l l' Hxy _ IH]; [reflexivity|].
  rewrite !fmap_cons, IH, (Hfh x y Hxy). reflexivity.
Qed.

Lemma fmap_replicate {A B} (b : B) (l : list A) :
  (fun _ => b) <$> l = replicate (length l) b.
Proof. induction l as [|x l IH]; [reflexivity|]. simpl. rewrite <- IH. reflexivity. Qed.

(** Postprocessing permutes what the questions hold under a key other
    than the three it writes. *)
Lemma postprocess_key_Permutation k qs qt cpq rq ro g out g' :
  postprocess_questions qs qt cpq rq ro g = Ok (out, g') ->
  k <> "id" -> k <> "choices" -> k <> "explanation" ->
  dict_get k <$> out ≡ₚ dict_get k <$> qs.
Proof.
  intros Hrun Hid Hch Hex.
  apply postprocess_Ok in Hrun as (_ & pre & Hpre & ->).
  apply randomize_inv in Hpre as (qs1 & Hperm & _ & _ & Hset & _).
  rewrite <- Hperm.
  assert (H1 : dict_get k <$> numbered pre = dict_get k <$> pre).
  { unfold numbered. apply list_eq. intros i.
    rewrite !list_lookup_fmap, list_lookup_imap.
    destruct (pre !! i) as [q|]; simpl; [|reflexivity].
    rewrite dict_get_set_ne by congruence. reflexivity. }
  rewrite H1.
  rewrite <- (Forall2_fmap_eq settled (dict_get k) (dict_get k) _ _ Hset).
  - rewrite <- list_fmap_compose.
    erewrite list_fmap_ext; [reflexivity|].
    intros i q _. simpl. apply dict_setdefault_get_ne. congruence.
  - intros q q' [->|(cs & cs' & _ & _ & ->)]; [reflexivity|].
    symmetry. apply dict_get_set_ne. congruence.
Qed.

Lemma postprocess_nil qt cpq rq ro g :
  postprocess_questions [] qt cpq rq ro g = Ok ([], g).
Proof. destruct rq, ro; reflexivity. Qed.

Section WithRuntime.
Context `{Runtime}.

Lemma generate_loop_mock cfg pages ws : forall acc g n,
  generate_loop cfg pages true ws acc g n
  = Ok (acc ++ concat ((fun w => mock_generate_questions_for_chunk w
                                   (generation cfg)) <$> ws), g, n).
Proof.
  induction ws as [|w ws IH]; intros acc g n; simpl.
  - rewrite app_nil_r. reflexivity.
  - rewrite IH, app_assoc. reflexivity.
Qed.

Lemma chunk_skipped c gcfg files chunk_text retries g n prompt g1 :
  (1 <= retries)%Z ->
  generator_prompt gcfg files chunk_text g = Ok (prompt, g1) ->
  (forall k, attempt_raises prompt k) ->
  llm_generate_questions_for_chunk c gcfg files chunk_text retries g n
  = Ok ([], g1, n + Z.to_nat retries).
Proof.
  intros Hr Hp Hfail. unfold llm_generate_questions_for_chunk.
  rewrite Hp. simpl.
  rewrite generate_attempts_exhausted by (intros k _; apply Hfail).
  destruct (Z.ltb_spec retries 1); [lia | reflexivity].
Qed.

Lemma generate_loop_failing cfg pages ws : forall acc g n,
  (forall prompt k, attempt_raises prompt k) ->
  (forall w g0, w ∈ ws ->
     exists prompt g1,
       generator_prompt (generation cfg) (prompts cfg)
         (build_chunk_text pages (page_start w) (page_end w)) g0
       = Ok (prompt, g1)) ->
  exists g',
    generate_loop cfg pages false ws acc g n
    = Ok (acc, g', n + 3 * length ws).
Proof.
  induction ws as [|w ws IH]; intros acc g n Hfail Hrender.
  - exists g. simpl. do 2 f_equal. lia.
  - destruct (Hrender w g (list_elem_of_here _ _)) as (prompt & g1 & Hp).
    cbn [generate_loop]. unfold questions_for_chunk.
    rewrite (chunk_skipped _ _ _ _ 3 _ _ _ _ ltac:(lia) Hp)
      by (intros k; apply Hfail).
    cbn [mbind result_bind bind]. rewrite app_nil_r.
    destruct (IH acc g1 (n + 3) Hfail) as (g' & Hloop).
    { intros w' g0 Hw'. apply Hrender, list_elem_of_further, Hw'. }
    exists g'. change (Z.to_nat 3) with 3. rewrite Hloop.
    do 2 f_equal. simpl. lia.
Qed.

(** X18. A mock run over a configuration with at least two choices per
    question returns whenever the partitioner does: it makes no model
    call, and its output holds [questions_per_partition] questions for
    every window, whatever the shuffles do. *)
Theorem mock_run_covers_every_chunk run_id context_file total_pages pages cfg
    g n ws :
  make_chunks total_pages (pages_per_partition cfg) (overlap_pages cfg)
    = Some ws ->
  (2 <= choices_per_question (generation cfg))%Z ->
  exists qs g',
    run_generate_pipeline run_id context_file total_pages pages cfg true g n
    = Some (Ok (output_object run_id context_file cfg qs, g', n))
    /\ length qs
       = length ws * Z.to_nat (questions_per_partition (generation cfg))
    /\ dict_get "chunk_id" <$> qs
       ≡ₚ concat ((fun w =>
                     replicate
                       (Z.to_nat (questions_per_partition (generation cfg)))
                       (Some (VStr (chunk_id w)))) <$> ws).
Proof.
  intros Hws Hc. unfold run_generate_pipeline. rewrite Hws.
  rewrite generate_loop_mock. simpl.
  set (all := concat ((fun w => mock_generate_questions_for_chunk w
                                  (generation cfg)) <$> ws)).
  assert (Hpass : Forall (passes (question_type (generation cfg))
                            (choices_per_question (generation cfg))) all).
  { subst all. apply Forall_concat, Forall_fmap, Forall_forall. intros w _.
    apply Forall_fmap, Forall_forall. intros i _.
    apply mock_question_passes. exact Hc. }
  destruct (postprocess_returns all _ _ (randomize_questions cfg)
              (randomize_options cfg) g Hpass) as (pre & g' & _ & Hrun).
  exists (numbered pre), g'. rewrite Hrun. simpl.
  split; [reflexivity|].
  assert (Hkeys : dict_get "chunk_id" <$> numbered pre
                  ≡ₚ concat ((fun w =>
                       replicate
                         (Z.to_nat (questions_per_partition (generation cfg)))
                         (Some (VStr (chunk_id w)))) <$> ws)).
  { rewrite (postprocess_key_Permutation "chunk_id" _ _ _ _ _ _ _ _ Hrun)
      by discriminate.
    subst all. clear. induction ws as [|w ws IH]; [reflexivity|].
    rewrite !fmap_cons. simpl. rewrite fmap_app, IH.
    apply Permutation_app_tail. unfold mock_generate_questions_for_chunk.
    rewrite <- list_fmap_compose.
    rewrite (list_fmap_ext _ (fun _ => Some (VStr (chunk_id w))))
      by (intros i x _; reflexivity).
    rewrite fmap_replicate. unfold py_range. rewrite length_seqZ.
    replace (questions_per_partition (generation cfg) + 1 - 1)%Z
      with (questions_per_partition (generation cfg)) by lia.
    reflexivity. }
  split; [|exact Hkeys].
  apply Permutation_length in Hkeys. rewrite length_fmap in Hkeys.
  rewrite Hkeys. clear. induction ws as [|w ws IH]; [reflexivity|].
  rewrite fmap_cons. simpl. rewrite length_app, length_replicate, IH. lia.
Qed.

(** X19. A run against a model whose every attempt fails does not abort:
    provided the prompt of each window renders, every window is tried
    three times and skipped, and the run returns an output with an empty
    question list. *)
Theorem failing_model_run_is_empty run_id context_file total_pages pages cfg
    g n ws :
  make_chunks total_pages (pages_per_partition cfg) (overlap_pages cfg)
    = Some ws ->
  (forall prompt k, attempt_raises prompt k) ->
  (forall w g0, w ∈ ws ->
     exists prompt g1,
       generator_prompt (generation cfg) (prompts cfg)
         (build_chunk_text pages (page_start w) (page_end w)) g0
       = Ok (prompt, g1)) ->
  exists g',
    run_generate_pipeline run_id context_file total_pages pages cfg false g n
    = Some (Ok (output_object run_id context_file cfg [], g',
                n + 3 * length ws)).
Proof.
  intros Hws Hfail Hrender. unfold run_generate_pipeline. rewrite Hws.
  destruct (generate_loop_failing cfg pages ws [] g n Hfail Hrender)
    as (g' & Hloop).
  exists g'. rewrite Hloop. simpl. rewrite postprocess_nil. reflexivity.
Qed.

End WithRuntime.

Lemma mock_run_covers_every_chunk_witness :
  exists qs g',
    @run_generate_pipeline (Samples.runtime Samples.failing)
      "run_1" "notes.pdf" 3 RunSamples.pages RunSamples.cfg true Samples.tape 0
    = Some (Ok (output_object "run_1" "notes.pdf" RunSamples.cfg qs, g', 0))
    /\ length qs = length RunSamples.windows * Z.to_nat 2
    /\ dict_get "chunk_id" <$> qs
       ≡ₚ concat ((fun w => replicate (Z.to_nat 2) (Some (VStr (chunk_id w))))
                    <$> RunSamples.windows).
Proof.
  apply (@mock_run_covers_every_chunk (Samples.runtime Samples.failing)
           "run_1" "notes.pdf" 3 RunSamples.pages RunSamples.cfg Samples.tape 0
           RunSamples.windows).
  - vm_compute. reflexivity.
  - simpl. lia.
Defined.

Lemma failing_model_run_is_empty_witness :
  exists g',
    @run_generate_pipeline (Samples.runtime Samples.failing)
      "run_1" "notes.pdf" 3 RunSamples.pages RunSamples.cfg false Samples.tape 0
    = Some (Ok (output_object "run_1" "notes.pdf" RunSamples.cfg [], g',
                0 + 3 * length RunSamples.windows)).
Proof.
  apply (@failing_model_run_is_empty (Samples.runtime Samples.failing)
           "run_1" "notes.pdf" 3 RunSamples.pages RunSamples.cfg Samples.tape 0
           RunSamples.windows).
  - vm_compute. reflexivity.
  - intros prompt k. exists OracleError. reflexivity.
  - intros w g0 Hw.
    apply elem_of_cons in Hw as [->|Hw];
      [eexists _, _; vm_compute; reflexivity|].
    apply elem_of_cons in Hw as [->|Hw];
      [eexists _, _; vm_compute; reflexivity|].
    inversion Hw.
Defined.

End PipelineTheory.

(** ** From postprocessing to enrichment: ids as addresses *)

Module IdsTheory.
Import Py PyTheory Postprocess PostprocessTheory PostprocessMore.
Import Explain ExplainTheory ExplainMore.

(** The index built over questions that carry the ids of their positions. *)
Lemma build_by_id_numbered qs : forall i0 acc,
  (forall j q, qs !! j = Some q ->
     exists d, q = VDict d
       /\ dict_get "id" d = Some (VStr (question_id (S (i0 + j))))) ->
  exists t,
    build_by_id i0 qs acc = Ok t
    /\ (forall j, j < length qs ->
          table_get (VStr (question_id (S (i0 + j)))) t = Some (i0 + j))
    /\ (forall k, (forall j, j < length qs -> k <> question_id (S (i0 + j))) ->
          table_get (VStr k) t = table_get (VStr k) acc).
Proof.
  induction qs as [|q qs IH]; intros i0 acc Hids.
  - exists acc. split; [reflexivity|]. split; [simpl; lia | reflexivity].
  - destruct (Hids 0 q eq_refl) as (d & -> & Hd).
    rewrite Nat.add_0_r in Hd.
    destruct (IH (S i0) (table_set (VStr (question_id (S i0))) i0 acc))
      as (t & Hrun & Hhit & Hmiss).
    { intros j q' Hq'. destruct (Hids (S j) q' Hq') as (d' & -> & Hd').
      exists d'. split; [reflexivity|].
      replace (S i0 + j) with (i0 + S j) by lia. exact Hd'. }
    exists t. split.
    { simpl. unfold get_default. rewrite Hd. simpl. exact Hrun. }
    split.
    + intros [|j] Hj.
      * rewrite Nat.add_0_r, Hmiss.
        -- apply table_get_set_eq. exact (String.eqb_refl _).
        -- intros j _ E. apply question_id_inj in E. lia.
      * replace (i0 + S j) with (S i0 + j) by lia. apply Hhit.
        simpl in Hj. lia.
    + intros k Hk. rewrite Hmiss.
      * apply table_get_set_ne.
        change (String.eqb (question_id (S i0)) k = false).
        apply String.eqb_neq.
        intros E. apply (Hk 0); [simpl; lia|].
        rewrite Nat.add_0_r. symmetry. exact E.
      * intros j Hj E. apply (Hk (S j)); [simpl; lia|].
        replace (i0 + S j) with (S i0 + j) by lia. exact E.
Qed.

(** X20. For a list of pairwise distinct question objects, the ids that
    [postprocess_questions] assigns are the addresses the enrichment uses:
    loading an output that holds the returned list succeeds, looking up
    the id of position [i] finds the question at position [i], and no
    other id is known. *)
Theorem assigned_ids_address_their_questions
    refs s qt cpq rq ro g refs' s' g' d :
  NoDup refs ->
  postprocess_objects refs s qt cpq rq ro g = Ok (refs', s', g') ->
  dict_get "questions" d = Some (VList (VDict <$> contents s' refs')) ->
  exists by_id,
    load (VDict d) = Ok (VDict <$> contents s' refs', by_id)
    /\ (forall i r, refs' !! i = Some r ->
          find_question by_id (VDict <$> contents s' refs') (question_id (S i))
          = Some (i, deref s' r))
    /\ (forall qid, is_known (VDict d) qid = true
                    <-> exists i, i < length refs' /\ qid = question_id (S i)).
Proof.
  intros Hnd Hobj Hd.
  pose proof (postprocess_objects_values _ _ _ _ _ _ _ _ _ _ Hnd Hobj) as Hrun.
  set (out := contents s' refs') in *.
  pose proof (postprocess_normalized _ _ _ _ _ _ _ _ Hrun) as Hnorm.
  assert (Hids : forall j q, (VDict <$> out) !! j = Some q ->
            exists d0, q = VDict d0
              /\ dict_get "id" d0 = Some (VStr (question_id (S (0 + j))))).
  { intros j q Hq. apply list_lookup_fmap_Some in Hq as (d0 & -> & Hj).
    exists d0. split; [reflexivity|]. apply (Hnorm j d0 Hj). }
  destruct (build_by_id_numbered (VDict <$> out) 0 [] Hids)
    as (t & Hbuild & Hhit & Hmiss).
  rewrite length_fmap in Hhit. clear Hmiss.
  assert (Hhit' : forall j, j < length out ->
            table_get (VStr (question_id (S j))) t = Some j) by exact Hhit.
  assert (Hload : load (VDict d) = Ok (VDict <$> out, t)).
  { unfold load. simpl. unfold get_default. rewrite Hd. simpl.
    rewrite Hbuild. reflexivity. }
  assert (Hfind : forall i q, out !! i = Some q ->
            find_question t (VDict <$> out) (question_id (S i)) = Some (i, q)).
  { intros i q Hq. unfold find_question.
    rewrite (Hhit' i) by (eapply lookup_lt_Some; exact Hq).
    rewrite (list_lookup_fmap_Some_2 VDict out i q Hq).
    destruct (Hnorm i q Hq) as (_ & _ & Hid).
    destruct q; [discriminate | reflexivity]. }
  assert (Hlen : length out = length refs')
    by (subst out; unfold contents; apply length_fmap).
  exists t. split; [exact Hload|]. split.
  { intros i r Hi. apply Hfind. subst out.
    apply list_lookup_fmap_Some_2. exact Hi. }
  intros qid. unfold is_known. rewrite Hload. split.
  - destruct (find_question t (VDict <$> out) qid) as [[i q]|] eqn:Hf;
      [|discriminate].
    intros _. apply find_question_Some in Hf as (Hi & Hq & _).
    destruct (build_by_id_sound _ _ _ _ _ _ Hbuild Hi)
      as [Hemp|(_ & d0 & Hd0 & Heq)]; [discriminate|].
    rewrite Nat.sub_0_r in Hd0.
    apply list_lookup_fmap_Some in Hd0 as (q0 & [= ->] & Hq0).
    destruct (Hnorm i q0 Hq0) as (_ & _ & Hid).
    unfold get_default in Heq. rewrite Hid in Heq.
    apply py_eqb_str in Heq.
    change (VStr (question_id (S i)) = VStr qid) in Heq.
    exists i. split; [rewrite <- Hlen; eapply lookup_lt_Some; exact Hq0|].
    congruence.
  - intros (i & Hi & ->).
    rewrite <- Hlen in Hi.
    destruct (lookup_lt_is_Some_2 out i Hi) as (q & Hq).
    rewrite (Hfind i q Hq). reflexivity.
Qed.

Lemma assigned_ids_address_their_questions_witness :
  exists by_id,
    load (VDict [("questions",
                  VList (VDict <$> contents MoreSamples.shuffled_objects
                                     MoreSamples.shuffled_refs))])
    = Ok (VDict <$> contents MoreSamples.shuffled_objects
                      MoreSamples.shuffled_refs, by_id)
    /\ (forall i r, MoreSamples.shuffled_refs !! i = Some r ->
          find_question by_id
            (VDict <$> contents MoreSamples.shuffled_objects
                         MoreSamples.shuffled_refs) (question_id (S i))
          = Some (i, deref MoreSamples.shuffled_objects r))
    /\ (forall qid,
          is_known (VDict [("questions",
                            VList (VDict <$> contents
                                     MoreSamples.shuffled_objects
                                     MoreSamples.shuffled_refs))]) qid = true
          <-> exists i, i < length MoreSamples.shuffled_refs
                        /\ qid = question_id (S i)).
Proof.
  apply (assigned_ids_address_their_questions [0; 1; 2]
           MoreSamples.three_objects "MCQ" 3 true true Samples.tape
           MoreSamples.shuffled_refs MoreSamples.shuffled_objects
           Samples.shuffled_rng).
  - apply (NoDup_seq 0 3).
  - vm_compute. reflexivity.
  - reflexivity.
Defined.

End IdsTheory.
